(** * Receive-side decimation core: kernels and per-sequence orchestration

A shallow embedding of [rx_signal_processing/decimate.cu] (the two
decimation kernels and the block-wide reduction they share) and of
[dsp.cu] (the per-sequence [DSPCore] object), with the properties the
specification states about them. *)

From Stdlib Require Import ZArith List Lia Bool String Btauto.
Import ListNotations.
Local Open Scope Z_scope.

(** ** 32-bit unsigned arithmetic

[threadIdx], [blockIdx], [blockDim], [gridDim] and every [uint32_t]
parameter are 32-bit unsigned: sums and products wrap. *)

Definition u32 (x : Z) : Z := x mod 2 ^ 32.

Definition zseq (n : Z) : list Z := map Z.of_nat (seq 0 (Z.to_nat n)).

(** ** [cuComplex]

A complex sample is two 32-bit floats.  The scalar type and its three
operations are an interface; the kernels are written once against it. *)

Class FloatOps (F : Type) : Type := {
  f0 : F;
  fadd : F -> F -> F;
  fsub : F -> F -> F;
  fmul : F -> F -> F
}.

Record cuComplex (F : Type) : Type := make_cuComplex {
  cuCrealf : F;
  cuCimagf : F
}.
Arguments make_cuComplex {F} _ _.
Arguments cuCrealf {F} _.
Arguments cuCimagf {F} _.

Section Complex.
Context {F : Type} `{FloatOps F}.

Definition cuCaddf (x y : cuComplex F) : cuComplex F :=
  make_cuComplex (fadd (cuCrealf x) (cuCrealf y))
                 (fadd (cuCimagf x) (cuCimagf y)).

Definition cuCmulf (x y : cuComplex F) : cuComplex F :=
  make_cuComplex
    (fsub (fmul (cuCrealf x) (cuCrealf y)) (fmul (cuCimagf x) (cuCimagf y)))
    (fadd (fmul (cuCrealf x) (cuCimagf y)) (fmul (cuCimagf x) (cuCrealf y))).

Definition czero : cuComplex F := make_cuComplex f0 f0.
End Complex.

(** Integer-valued samples: every float operation on small integers is
    exact, so runs on this instance are runs of the float code. *)
#[export] Instance Z_FloatOps : FloatOps Z :=
  {| f0 := 0; fadd := Z.add; fsub := Z.sub; fmul := Z.mul |}.

(** The laws of exact arithmetic that the order-independent statements
    about sums rely on.  Floats obey them on values they represent
    exactly; in general a float sum depends on the order of its terms. *)
Class ExactArith (F : Type) `{FloatOps F} : Prop := {
  fadd_assoc : forall x y z : F, fadd x (fadd y z) = fadd (fadd x y) z;
  fadd_comm : forall x y : F, fadd x y = fadd y x;
  fadd_0_l : forall x : F, fadd f0 x = x;
  fsub_0_0 : fsub f0 f0 = f0;
  fmul_0_l : forall x : F, fmul f0 x = f0
}.

#[export] Instance Z_ExactArith : ExactArith Z.
Proof. split; cbn; intros; lia. Qed.

(** ** Device memory and thread blocks *)

Module Kernel.
Section Kernel.
Context {F : Type} `{FloatOps F}.

(** What an uninitialised shared-memory cell holds, and what a shuffle
    delivers from a lane that does not take part in it: CUDA leaves
    both undefined. *)
Variable garbage : cuComplex F.

(** A device pointer gives access to the cells at every offset from it. *)
Definition mem : Type := Z -> cuComplex F.

Definition store (m : mem) (i : Z) (v : cuComplex F) : mem :=
  fun j => if j =? i then v else m j.

(** The writes of one barrier-delimited phase, in thread order. *)
Definition commit (ws : list (Z * cuComplex F)) (m : mem) : mem :=
  fold_left (fun m' w => store m' (fst w) (snd w)) ws m.

(** Threads of a block ([threadIdx.x], [threadIdx.y]) in linear order,
    [threadIdx.x] fastest; the same enumeration serves for the blocks
    of a grid. *)
Definition threads (dim_x dim_y : Z) : list (Z * Z) :=
  flat_map (fun ty => map (fun tx => (tx, ty)) (zseq dim_x)) (zseq dim_y).

Definition linear_id (dim_x : Z) (t : Z * Z) : Z := snd t * dim_x + fst t.

Definition warpSize : Z := 32.

(** *** [__shfl_down]

    The hardware primitive on one 32-bit register: lane [l] of a warp
    receives the register of lane [l + delta] of the same warp, or keeps
    its own when [l + delta] leaves the [width]-lane section.  [var]
    maps a linear thread index to that thread's register, [takes_part]
    tells which threads execute the shuffle. *)
Definition shfl_down_float {A : Type} (undef : A) (takes_part : Z -> bool)
    (var : Z -> A) (lin : Z) (delta width : Z) : A :=
  if (lin mod warpSize) mod width + delta <? width
  then if takes_part (lin + delta) then var (lin + delta) else undef
  else var lin.

(** The [cuComplex] overload: the value is reinterpreted as a [float2],
    each half is shuffled on its own, and the halves are put together. *)
Definition shfl_down (takes_part : Z -> bool) (var : Z -> cuComplex F)
    (lin : Z) (srcLane : Z) (width : Z) : cuComplex F :=
  let ax := shfl_down_float (cuCrealf garbage) takes_part
              (fun i => cuCrealf (var i)) lin srcLane width in
  let ay := shfl_down_float (cuCimagf garbage) takes_part
              (fun i => cuCimagf (var i)) lin srcLane width in
  make_cuComplex ax ay.

(** *** [parallel_reduce] *)

Section Reduce.
Variables blockDim_x blockDim_y : Z.
(** [tap_offset] of each thread, as its caller computed it. *)
Variable tap_offset : Z * Z -> Z.

(** One guarded step of the tree, up to the next [__syncthreads()]:
    [if ((num_filter_taps >= limit) && (filter_tap_num < stride))]. *)
Definition tree_step (limit stride : Z)
    (st : mem * list (cuComplex F)) : mem * list (cuComplex F) :=
  let data := fst st in
  let res :=
    map (fun ts : (Z * Z) * cuComplex F =>
           let t := fst ts in
           let total_sum := snd ts in
           if (blockDim_x >=? limit) && (fst t <? stride)
           then let total_sum' :=
                  cuCaddf total_sum (data (u32 (tap_offset t + stride))) in
                (total_sum', [(tap_offset t, total_sum')])
           else (total_sum, []))
        (combine (threads blockDim_x blockDim_y) (snd st)) in
  (commit (flat_map snd res) data, map fst res).

(** The threads that enter [if (filter_tap_num < 32)]. *)
Definition in_final_warp (lin : Z) : bool :=
  (0 <=? lin) && (lin <? blockDim_x * blockDim_y)
  && (lin mod blockDim_x <? 32).

(** [if (num_filter_taps >= 64) total_sum += data[tap_offset + 32]]. *)
Definition fetch_second_warp (st : mem * list (cuComplex F))
    : list (cuComplex F) :=
  let data := fst st in
  map (fun ts : (Z * Z) * cuComplex F =>
         let t := fst ts in
         if (fst t <? 32) && (blockDim_x >=? 64)
         then cuCaddf (snd ts) (data (u32 (tap_offset t + 32)))
         else snd ts)
      (combine (threads blockDim_x blockDim_y) (snd st)).

(** One iteration of the shuffle loop, all lanes in lock step. *)
Definition shuffle_step (offset : Z) (sums : list (cuComplex F))
    : list (cuComplex F) :=
  let var := fun i => nth (Z.to_nat i) sums garbage in
  map (fun ts : (Z * Z) * cuComplex F =>
         let t := fst ts in
         if fst t <? 32
         then cuCaddf (snd ts)
                (shfl_down in_final_warp var (linear_id blockDim_x t)
                           offset 32)
         else snd ts)
      (combine (threads blockDim_x blockDim_y) sums).

(** [for (int offset = warpSize/2; offset > 0; offset /= 2)]. *)
Fixpoint shuffle_loop (fuel : nat) (offset : Z)
    (sums : list (cuComplex F)) : list (cuComplex F) :=
  match fuel with
  | O => sums
  | S fuel' =>
      if offset >? 0
      then shuffle_loop fuel' (offset / 2) (shuffle_step offset sums)
      else sums
  end.

(** The value [parallel_reduce] returns in every thread of the block,
    in linear thread order. *)
Definition parallel_reduce (data : mem) : list (cuComplex F) :=
  let total_sum :=
    map (fun t => data (tap_offset t)) (threads blockDim_x blockDim_y) in
  let st := tree_step 1024 512 (data, total_sum) in
  let st := tree_step 512 256 st in
  let st := tree_step 256 128 st in
  let st := tree_step 128 64 st in
  shuffle_loop (Z.to_nat warpSize) (warpSize / 2) (fetch_second_warp st).
End Reduce.

(** *** Sample loads

    Which cells of [original_samples] a thread reads. *)
Inductive load : Type :=
| LoadZero : load
| LoadAt (final_offset : Z) : load.

Definition fetch (original_samples : mem) (l : load) : cuComplex F :=
  match l with
  | LoadZero => czero
  | LoadAt final_offset => original_samples final_offset
  end.

Definition load1024 (dm_rate samples_per_antenna : Z)
    (blockIdx_x blockIdx_y threadIdx_x : Z) : load :=
  let antenna_offset := u32 (blockIdx_y * samples_per_antenna) in
  let dec_sample_offset := u32 (blockIdx_x * dm_rate) in
  if u32 (dec_sample_offset + threadIdx_x) >=? samples_per_antenna
  then LoadZero
  else LoadAt (u32 (u32 (antenna_offset + dec_sample_offset) + threadIdx_x)).

Definition load2048 (dm_rate samples_per_antenna : Z)
    (blockIdx_x blockIdx_y threadIdx_x : Z) : load * load :=
  let antenna_offset := u32 (blockIdx_y * samples_per_antenna) in
  let dec_sample_offset := u32 (blockIdx_x * dm_rate) in
  if u32 (dec_sample_offset + u32 (2 * threadIdx_x)) >=? samples_per_antenna
  then (LoadZero, LoadZero)
  else
    let final_offset :=
      u32 (u32 (antenna_offset + dec_sample_offset) + u32 (2 * threadIdx_x)) in
    if u32 (dec_sample_offset + u32 (2 * threadIdx_x))
         >=? u32 (samples_per_antenna - 1)
    then (LoadAt final_offset, LoadZero)
    else (LoadAt final_offset, LoadAt (u32 (final_offset + 1))).

(** [off] is cell [local] of the row of antenna [blockIdx_y], for some
    [local] below [samples_per_antenna]. *)
Definition in_antenna_row (samples_per_antenna blockIdx_y off : Z) : Prop :=
  exists local,
    0 <= local < samples_per_antenna /\
    off = u32 (u32 (blockIdx_y * samples_per_antenna) + local).

(** *** The kernels, one block at a time *)

Section Launch.
Variables original_samples filter_taps : mem.
Variables dm_rate samples_per_antenna : Z.
Variables gridDim_x gridDim_y blockDim_x blockDim_y : Z.

(** Where thread [(0, threadIdx.y)] of block [(blockIdx.x, blockIdx.y)]
    puts its output sample. *)
Definition total_offset (blockIdx_x blockIdx_y threadIdx_y : Z) : Z :=
  let antenna_offset := u32 (blockIdx_y * samples_per_antenna) / dm_rate in
  let total_antennas := gridDim_y in
  let freq_offset := u32 (u32 (threadIdx_y * gridDim_x) * total_antennas) in
  u32 (u32 (freq_offset + antenna_offset) + blockIdx_x).

Definition output_writes (blockIdx_x blockIdx_y : Z)
    (sums : list (cuComplex F)) : list (Z * cuComplex F) :=
  flat_map (fun ts : (Z * Z) * cuComplex F =>
              let t := fst ts in
              if fst t =? 0
              then [(total_offset blockIdx_x blockIdx_y (snd t), snd ts)]
              else [])
           (combine (threads blockDim_x blockDim_y) sums).

Definition tap_offset1024 (t : Z * Z) : Z :=
  u32 (u32 (snd t * blockDim_x) + fst t).

Definition decimate1024_block (b : Z * Z) : list (Z * cuComplex F) :=
  let blockIdx_x := fst b in
  let blockIdx_y := snd b in
  let products :=
    map (fun t =>
           let sample :=
             fetch original_samples
               (load1024 dm_rate samples_per_antenna
                         blockIdx_x blockIdx_y (fst t)) in
           (tap_offset1024 t,
            cuCmulf sample (filter_taps (tap_offset1024 t))))
        (threads blockDim_x blockDim_y) in
  let filter_products := commit products (fun _ => garbage) in
  output_writes blockIdx_x blockIdx_y
    (parallel_reduce blockDim_x blockDim_y tap_offset1024 filter_products).

Definition tap_offset2048 (t : Z * Z) : Z :=
  u32 (u32 (snd t * blockDim_x) + u32 (2 * fst t)).

(** A thread's own three stores to [filter_products]; it reads back
    the two cells it has just written. *)
Definition products2048 (b : Z * Z) : list (Z * cuComplex F) :=
  let blockIdx_x := fst b in
  let blockIdx_y := snd b in
  flat_map (fun t =>
         let ld := load2048 dm_rate samples_per_antenna
                            blockIdx_x blockIdx_y (fst t) in
         let sample_1 := fetch original_samples (fst ld) in
         let sample_2 := fetch original_samples (snd ld) in
         let o := tap_offset2048 t in
         let p1 := cuCmulf sample_1 (filter_taps o) in
         let p2 := cuCmulf sample_2 (filter_taps (u32 (o + 1))) in
         let own := store (store (fun _ => garbage) o p1) (u32 (o + 1)) p2 in
         [(o, p1); (u32 (o + 1), p2);
          (o, cuCaddf (own o) (own (u32 (o + 1))))])
      (threads blockDim_x blockDim_y).

Definition decimate2048_block (b : Z * Z) : list (Z * cuComplex F) :=
  let filter_products := commit (products2048 b) (fun _ => garbage) in
  output_writes (fst b) (snd b)
    (parallel_reduce blockDim_x blockDim_y tap_offset2048 filter_products).

(** A launch runs every block of the grid; blocks do not share
    [filter_products]. *)
Definition decimate1024 (decimated_samples : mem) : mem :=
  commit (flat_map decimate1024_block (threads gridDim_x gridDim_y))
         decimated_samples.

Definition decimate2048 (decimated_samples : mem) : mem :=
  commit (flat_map decimate2048_block (threads gridDim_x gridDim_y))
         decimated_samples.
End Launch.

(** *** Host-side wrappers *)

Definition create_grid (num_samples dm_rate num_antennas : Z) : Z * Z :=
  (num_samples / dm_rate, num_antennas).

Definition create_block (num_taps_per_filter num_freqs : Z) : Z * Z :=
  (num_taps_per_filter, num_freqs).

Definition decimate1024_wrapper (original_samples decimated_samples
    filter_taps : mem) (dm_rate samples_per_antenna num_taps_per_filter
    num_freqs num_antennas : Z) : mem :=
  let dimGrid := create_grid samples_per_antenna dm_rate num_antennas in
  let dimBlock := create_block num_taps_per_filter num_freqs in
  decimate1024 original_samples filter_taps dm_rate samples_per_antenna
    (fst dimGrid) (snd dimGrid) (fst dimBlock) (snd dimBlock)
    decimated_samples.

Definition decimate2048_wrapper (original_samples decimated_samples
    filter_taps : mem) (dm_rate samples_per_antenna num_taps_per_filter
    num_freqs num_antennas : Z) : mem :=
  let dimGrid := create_grid samples_per_antenna dm_rate num_antennas in
  let dimBlock := create_block (num_taps_per_filter / 2) num_freqs in
  decimate2048 original_samples filter_taps dm_rate samples_per_antenna
    (fst dimGrid) (snd dimGrid) (fst dimBlock) (snd dimBlock)
    decimated_samples.

(** *** What the specification asks of the output block

    [out[f, a, k] = sum over t of in[a, k*dm_rate + t] * tap[f, t]],
    a term whose sample index leaves the antenna's row being zero. *)
Definition spec_term (original_samples filter_taps : mem)
    (dm_rate samples_per_antenna num_taps : Z) (f a k t : Z) : cuComplex F :=
  cuCmulf
    (if k * dm_rate + t <? samples_per_antenna
     then original_samples (a * samples_per_antenna + k * dm_rate + t)
     else czero)
    (filter_taps (f * num_taps + t)).

(** The sum [f 0 + f 1 + ... + f (n - 1)], from the left. *)
Definition csum (f : Z -> cuComplex F) (n : Z) : cuComplex F :=
  fold_left cuCaddf (map f (zseq n)) czero.

Definition spec_output (original_samples filter_taps : mem)
    (dm_rate samples_per_antenna num_taps : Z) (f a k : Z) : cuComplex F :=
  csum (spec_term original_samples filter_taps dm_rate
          samples_per_antenna num_taps f a k) num_taps.

(** The sum of row [ty] of [data], rows of [n] cells. *)
Definition row_sum (data : mem) (n ty : Z) : cuComplex F :=
  csum (fun tx => data (ty * n + tx)) n.

Definition spec_offset (dm_rate samples_per_antenna num_antennas : Z)
    (f a k : Z) : Z :=
  f * (samples_per_antenna / dm_rate) * num_antennas
  + a * (samples_per_antenna / dm_rate) + k.
(** *** Invariants of the reduction

    [halve s f] is the row [f] after its upper half, [s] cells away, has
    been added onto its lower half.  A block of [X] by [Y] threads has
    reduced its rows to width [h] when the first [h] partial sums of
    every row add up to what the whole row added up to at the start. *)
Definition halve (s : Z) (f : Z * Z -> cuComplex F) : Z * Z -> cuComplex F :=
  fun t => cuCaddf (f t) (f (fst t + s, snd t)).

Definition agree (Y h : Z) (f g : Z * Z -> cuComplex F) : Prop :=
  forall tx ty, 0 <= tx < h -> 0 <= ty < Y -> g (tx, ty) = f (tx, ty).

Definition keeps_row_sums (Y h : Z) (target : Z -> cuComplex F)
    (f : Z * Z -> cuComplex F) : Prop :=
  forall ty, 0 <= ty < Y -> csum (fun j => f (j, ty)) h = target ty.

Definition reduced_sums (X Y h : Z) (target : Z -> cuComplex F)
    (sums : list (cuComplex F)) : Prop :=
  exists f g,
    sums = map g (threads X Y) /\ agree Y h f g /\
    keeps_row_sums Y h target f.

Definition reduced_state (X Y h : Z) (target : Z -> cuComplex F)
    (st : mem * list (cuComplex F)) : Prop :=
  exists f g,
    snd st = map g (threads X Y) /\ agree Y h f g /\
    agree Y h f (fun t => fst st (snd t * X + fst t)) /\
    keeps_row_sums Y h target f.

(** *** Rows shorter than a warp

    [thread_of X n] is the thread with linear index [n].  On a warp
    whose 32 lanes all belong to the block, the shuffle loop keeps this
    invariant: the first [h] partial sums of warp [q] add up to what the
    warp's 32 cells added up to at the start. *)
Definition thread_of (X n : Z) : Z * Z := (n mod X, n / X).

Definition warp_sums (X Y h : Z) (target : Z -> cuComplex F)
    (sums : list (cuComplex F)) : Prop :=
  exists f g,
    sums = map g (threads X Y) /\
    (forall q l, 0 <= q -> 32 * q + 32 <= X * Y -> 0 <= l < h ->
       g (thread_of X (32 * q + l)) = f (32 * q + l)) /\
    (forall q, 0 <= q -> 32 * q + 32 <= X * Y ->
       csum (fun l => f (32 * q + l)) h = target q).

(** The sum of the 32 cells of [data] that warp [q] starts from. *)
Definition warp_sum (data : mem) (q : Z) : cuComplex F :=
  csum (fun l => data (32 * q + l)) 32.

End Kernel.
End Kernel.

Import Kernel.


(** ** Runs of the kernels on integer-valued samples *)

Module Runs.
Definition c (re im : Z) : cuComplex Z := make_cuComplex re im.

(** Every input sample is [1 + 0i]. *)
Definition all_ones : mem := fun _ => c 1 0.

(** Two filters of 16 taps: frequency 0 all zero, frequency 1 all one. *)
Definition taps_16x2 : mem := fun i => if i <? 16 then c 0 0 else c 1 0.

(** A [filter_products] array holding the same two rows. *)
Definition rows_16x2 : mem := taps_16x2.

(** Two filters of 1024 taps, zero but for the upper half of the filter
    of frequency 1. *)
Definition taps_1024x2 : mem := fun i => if i <? 1536 then c 0 0 else c 1 0.

(** One filter of 128 taps, all one; sample [i] is [i + 0i]. *)
Definition ramp : mem := fun i => c i 0.

(** [taps_1024x2] with the taps from cell 1536 on replaced. *)
Definition taps_1024x2_low : mem :=
  fun i => if i <? 1536 then c 0 0 else c 9 9.

(** [ramp] on the cells 64 to 127, zero elsewhere. *)
Definition ramp_row_1 : mem :=
  fun i => if (64 <=? i) && (i <? 128) then c i 0 else c 0 0.
End Runs.


(** ** The host side: CUDA runtime, messaging and [DSPCore] *)

Module Host.

(** *** The world a sequence runs in *)

Inductive cudaError_t : Type :=
| cudaSuccess
| cudaErrorMemoryAllocation
| cudaErrorInvalidValue
| cudaErrorInvalidConfiguration
| cudaErrorInvalidResourceHandle.

Record cudaDeviceProp : Type := {
  maxThreadsPerBlock : Z;
  sharedMemPerBlock : Z
}.

Inductive kernel : Type := decimate1024_kernel | decimate2048_kernel.

(** The fields of a [SigProcPacket] that [dsp.cu] sets. *)
Record SigProcPacket : Type := {
  kerneltime : option Z;
  packet_sequence_num : option Z
}.

(** What the process does that others can see, in the order it does it. *)
Inductive action : Type :=
| Cout (text : string) (values : list Z)
| SocketSend (socket : Z) (msg : SigProcPacket)
| EventRecord (event stream : Z)
| MemcpyAsync (dst src count stream : Z)
| KernelLaunch (k : kernel) (dimGrid dimBlock : Z * Z) (shr_mem_taps : Z)
    (args : list Z) (stream : Z)
| ShrMemOpen (name : string)
| ShrMemRemove (name : string)
| Delete (object : Z).

Inductive kind : Type :=
| DeviceMemory | PinnedMemory | Event | Stream | Object.

Definition kind_eqb (a b : kind) : bool :=
  match a, b with
  | DeviceMemory, DeviceMemory | PinnedMemory, PinnedMemory
  | Event, Event | Stream, Stream | Object, Object => true
  | _, _ => false
  end.

Record world : Type := {
  gpus : list cudaDeviceProp;
  (** bytes of device memory still free *)
  device_free : Z;
  (** live allocations, events, streams and heap objects: kind, handle *)
  live : list (kind * Z);
  (** time of the last record of each event *)
  recorded : list (Z * Z);
  (** what [cudaPeekAtLastError] returns *)
  last_error : cudaError_t;
  (** the clock, in ms, and the time each action takes *)
  now : Z;
  latency : action -> Z;
  (** the named shared-memory regions that exist *)
  shr_mem_regions : list string;
  (** the region each live [SharedMemoryHandler] was made for *)
  handler_name : list (Z * string);
  (** sockets on which a send throws *)
  broken_sockets : list Z;
  trace : list action
}.

Definition with_resources (dfree : Z) (l : list (kind * Z)) (w : world)
    : world :=
  {| gpus := gpus w; device_free := dfree; live := l;
     recorded := recorded w; last_error := last_error w; now := now w;
     latency := latency w; shr_mem_regions := shr_mem_regions w;
     handler_name := handler_name w; broken_sockets := broken_sockets w;
     trace := trace w |}.

Definition with_recorded (r : list (Z * Z)) (w : world) : world :=
  {| gpus := gpus w; device_free := device_free w; live := live w;
     recorded := r; last_error := last_error w; now := now w;
     latency := latency w; shr_mem_regions := shr_mem_regions w;
     handler_name := handler_name w; broken_sockets := broken_sockets w;
     trace := trace w |}.

Definition with_last_error (e : cudaError_t) (w : world) : world :=
  {| gpus := gpus w; device_free := device_free w; live := live w;
     recorded := recorded w; last_error := e; now := now w;
     latency := latency w; shr_mem_regions := shr_mem_regions w;
     handler_name := handler_name w; broken_sockets := broken_sockets w;
     trace := trace w |}.

Definition with_shr_mem (regions : list string) (names : list (Z * string))
    (w : world) : world :=
  {| gpus := gpus w; device_free := device_free w; live := live w;
     recorded := recorded w; last_error := last_error w; now := now w;
     latency := latency w; shr_mem_regions := regions;
     handler_name := names; broken_sockets := broken_sockets w;
     trace := trace w |}.

(** An action happens: it joins the trace and the clock moves on. *)
Definition emit (a : action) (w : world) : world :=
  {| gpus := gpus w; device_free := device_free w; live := live w;
     recorded := recorded w; last_error := last_error w;
     now := now w + Z.max 0 (latency w a);
     latency := latency w; shr_mem_regions := shr_mem_regions w;
     handler_name := handler_name w; broken_sockets := broken_sockets w;
     trace := trace w ++ [a] |}.

(** *** Computations that act on the world and may end the process *)

Inductive failure : Type :=
| GpuAssert (code : cudaError_t)
| ZmqError
| ShrMemError
| Undefined.

Inductive outcome (A : Type) : Type :=
| Ok (a : A) (w : world)
| Fatal (f : failure) (w : world).
Arguments Ok {A} _ _.
Arguments Fatal {A} _ _.

Definition M (A : Type) : Type := world -> outcome A.

Definition ret {A : Type} (a : A) : M A := fun w => Ok a w.

Definition bind {A B : Type} (m : M A) (f : A -> M B) : M B :=
  fun w => match m w with
           | Ok a w' => f a w'
           | Fatal e w' => Fatal e w'
           end.

Definition raise {A : Type} (e : failure) : M A := fun w => Fatal e w.

Definition act (a : action) : M unit := fun w => Ok tt (emit a w).

Definition final_world {A : Type} (o : outcome A) : world :=
  match o with Ok _ w => w | Fatal _ w => w end.

Declare Scope host_scope.
Delimit Scope host_scope with host.
Notation "x <- m ;; k" := (bind m (fun x => k))
  (at level 61, m at next level, right associativity) : host_scope.
Notation "m ;; k" := (bind m (fun _ => k))
  (at level 61, right associativity) : host_scope.
Local Open Scope host_scope.

(** Modelled from the spec: the [gpuErrchk] macro comes from [dsp.hpp],
    which is not part of the sources at hand.  Section 7 makes a failed
    check fatal to the process; nothing after it runs. *)
Definition gpuErrchk (code : cudaError_t) : M unit :=
  match code with
  | cudaSuccess => ret tt
  | _ => raise (GpuAssert code)
  end.

(** *** The CUDA runtime calls that [dsp.cu] makes *)

Definition is_live (k : kind) (h : Z) (w : world) : bool :=
  existsb (fun r => kind_eqb (fst r) k && (snd r =? h)) (live w).

(** A handle no live resource has; never null. *)
Definition fresh (w : world) : Z :=
  1 + fold_right Z.max 0 (map snd (live w)).

Definition drop (k : kind) (h : Z) (l : list (kind * Z)) : list (kind * Z) :=
  filter (fun r => negb (kind_eqb (fst r) k && (snd r =? h))) l.

(** [create k] makes a resource of kind [k] and returns its handle. *)
Definition create (k : kind) : M (cudaError_t * Z) :=
  fun w => let h := fresh w in
           Ok (cudaSuccess, h)
              (with_resources (device_free w) ((k, h) :: live w) w).

Definition destroy (k : kind) (h : Z) : M cudaError_t :=
  fun w => if is_live k h w
           then Ok cudaSuccess
                   (with_resources (device_free w) (drop k h (live w)) w)
           else Ok cudaErrorInvalidResourceHandle w.

Definition cudaStreamCreate : M (cudaError_t * Z) := create Stream.
Definition cudaEventCreate : M (cudaError_t * Z) := create Event.
Definition cudaEventDestroy (event : Z) : M cudaError_t := destroy Event event.
Definition cudaStreamDestroy (stream : Z) : M cudaError_t :=
  destroy Stream stream.

Definition cudaEventRecord (event stream : Z) : M cudaError_t :=
  fun w => if is_live Event event w && is_live Stream stream w
           then Ok cudaSuccess
                   (emit (EventRecord event stream)
                         (with_recorded ((event, now w) :: recorded w) w))
           else Ok cudaErrorInvalidResourceHandle w.

Definition cudaEventSynchronize (event : Z) : M cudaError_t :=
  fun w => if is_live Event event w then Ok cudaSuccess w
           else Ok cudaErrorInvalidResourceHandle w.

Definition record_time (event : Z) (w : world) : option Z :=
  option_map snd (find (fun r => fst r =? event) (recorded w)).

(** [cudaEventElapsedTime (&ms, start, end)]; [old] is what [ms] held. *)
Definition cudaEventElapsedTime (old start end_ : Z) : M (cudaError_t * Z) :=
  fun w => match is_live Event start w && is_live Event end_ w,
                 record_time start w, record_time end_ w with
           | true, Some t0, Some t1 => Ok (cudaSuccess, t1 - t0) w
           | _, _, _ => Ok (cudaErrorInvalidResourceHandle, old) w
           end.

(** [cudaMalloc (&p, size)]; [old] is what [p] held. *)
Definition cudaMalloc (old size : Z) : M (cudaError_t * Z) :=
  fun w => if size <=? device_free w
           then let p := fresh w in
                Ok (cudaSuccess, p)
                   (with_resources (device_free w - size)
                      ((DeviceMemory, p) :: live w) w)
           else Ok (cudaErrorMemoryAllocation, old) w.

Definition cudaHostAlloc (old size : Z) : M (cudaError_t * Z) :=
  fun w => let p := fresh w in
           Ok (cudaSuccess, p)
              (with_resources (device_free w) ((PinnedMemory, p) :: live w) w).

(** Freeing the null pointer does nothing; freeing anything that is
    not a live allocation is an error. *)
Definition free (k : kind) (p : Z) : M cudaError_t :=
  fun w => if p =? 0 then Ok cudaSuccess w
           else if is_live k p w
           then Ok cudaSuccess
                   (with_resources (device_free w) (drop k p (live w)) w)
           else Ok cudaErrorInvalidValue w.

Definition cudaFree (p : Z) : M cudaError_t := free DeviceMemory p.
Definition cudaFreeHost (p : Z) : M cudaError_t := free PinnedMemory p.

Definition cudaMemcpyAsync (dst src count stream : Z) : M cudaError_t :=
  fun w => if is_live Stream stream w
           then Ok cudaSuccess (emit (MemcpyAsync dst src count stream) w)
           else Ok cudaErrorInvalidResourceHandle w.

Definition cudaPeekAtLastError : M cudaError_t :=
  fun w => Ok (last_error w) w.

(** [kernel<<<dimGrid, dimBlock, shr_mem_taps, stream>>>(args)]: a
    configuration the device cannot run leaves an error behind and
    launches nothing. *)
Definition launch (k : kernel) (dimGrid dimBlock : Z * Z) (shr_mem_taps : Z)
    (args : list Z) (stream : Z) : M unit :=
  fun w => match gpus w with
           | [] => Fatal Undefined w
           | p :: _ =>
               if (1 <=? fst dimGrid) && (1 <=? snd dimGrid)
                  && (1 <=? fst dimBlock) && (1 <=? snd dimBlock)
                  && (fst dimBlock * snd dimBlock <=? maxThreadsPerBlock p)
                  && (shr_mem_taps <=? sharedMemPerBlock p)
               then Ok tt (emit (KernelLaunch k dimGrid dimBlock shr_mem_taps
                                   args stream) w)
               else Ok tt (with_last_error cudaErrorInvalidConfiguration w)
           end.

Definition get_gpu_properties : M (list cudaDeviceProp) :=
  fun w => Ok (gpus w) w.

(** [socket->send (msg)]: a broken socket throws, and nothing in
    [dsp.cu] catches. *)
Definition send (socket : Z) (msg : SigProcPacket) : M unit :=
  fun w => if existsb (Z.eqb socket) (broken_sockets w)
           then Fatal ZmqError w
           else Ok tt (emit (SocketSend socket msg) w).

(** *** [SharedMemoryHandler]

Modelled from the spec: the class is declared outside the sources at
hand.  A handler is made for a named region; opening maps the
region, and a region that does not exist fails the sequence;
removing unlinks the region; the handler is a heap object. *)

Definition region_of (handler : Z) (w : world) : option string :=
  option_map snd (find (fun r => fst r =? handler) (handler_name w)).

Definition new_SharedMemoryHandler (name : string) : M Z :=
  fun w => let h := fresh w in
           Ok h (with_shr_mem (shr_mem_regions w) ((h, name) :: handler_name w)
                   (with_resources (device_free w) ((Object, h) :: live w) w)).

Definition open_shr_mem (handler : Z) : M unit :=
  fun w => match is_live Object handler w, region_of handler w with
           | true, Some name =>
               if existsb (String.eqb name) (shr_mem_regions w)
               then Ok tt (emit (ShrMemOpen name) w)
               else Fatal ShrMemError w
           | _, _ => Fatal Undefined w
           end.

Definition get_shrmem_addr (handler : Z) : M Z :=
  fun w => if is_live Object handler w then Ok handler w
           else Fatal Undefined w.

Definition remove_shr_mem (handler : Z) : M unit :=
  fun w => match is_live Object handler w, region_of handler w with
           | true, Some name =>
               Ok tt (emit (ShrMemRemove name)
                        (with_shr_mem
                           (filter (fun n => negb (String.eqb name n))
                                   (shr_mem_regions w))
                           (handler_name w) w))
           | _, _ => Fatal Undefined w
           end.

(** [delete p]: deleting what is not a live object is undefined. *)
Definition delete (object : Z) : M unit :=
  fun w => if is_live Object object w
           then Ok tt (emit (Delete object)
                         (with_shr_mem (shr_mem_regions w)
                            (filter (fun r => negb (fst r =? object))
                                    (handler_name w))
                            (with_resources (device_free w)
                               (drop Object object (live w)) w)))
           else Fatal Undefined w.

(** *** [DSPCore]

    The members [dsp.cu] uses; every one is a number, a handle or a
    pointer, so an instance is a map from member to value.  [this_]
    stands for the address of the instance. *)
Inductive member : Type :=
| this_
| sequence_num | ack_socket | timing_socket
| stream | initial_start | kernel_start | stop
| shr_mem
| rf_samples_d | rf_samples_size
| first_stage_bp_filters_d | first_stage_bp_filters_size
| second_stage_filters_d | second_stage_filters_size
| third_stage_filters_d | third_stage_filters_size
| first_stage_output_d | first_stage_output_size
| second_stage_output_d | second_stage_output_size
| third_stage_output_d | third_stage_output_size
| host_output_h | host_output_size
| total_process_timing_ms | decimate_kernel_timing_ms.

Definition member_eq_dec (a b : member) : {a = b} + {a <> b}.
Proof. decide equality. Defined.

Definition DSPCore : Type := member -> Z.

Definition set (m : member) (v : Z) (dp : DSPCore) : DSPCore :=
  fun m' => if member_eq_dec m' m then v else dp m'.

(** [gpuErrchk (call)] for a call that only returns a status. *)
Definition check (call : M cudaError_t) : M unit :=
  code <- call ;; gpuErrchk code.

(** [gpuErrchk (call (&member, ...))] for a call with an out-pointer. *)
Definition check_into (m : member) (call : Z -> M (cudaError_t * Z))
    (dp : DSPCore) : M DSPCore :=
  r <- call (dp m) ;;
  gpuErrchk (fst r) ;;
  ret (set m (snd r) dp).

Definition sizeof_cuComplex : Z := 8.

(** The constructor, on an instance whose members hold what [raw]
    holds. *)
Definition DSPCore_ctor (raw : DSPCore) (ack_s timing_s sq_num : Z)
    (shr_mem_name : string) : M DSPCore :=
  let dp := set sequence_num sq_num raw in
  let dp := set ack_socket ack_s dp in
  let dp := set timing_socket timing_s dp in
  dp <- check_into stream (fun _ => cudaStreamCreate) dp ;;
  dp <- check_into initial_start (fun _ => cudaEventCreate) dp ;;
  dp <- check_into kernel_start (fun _ => cudaEventCreate) dp ;;
  dp <- check_into stop (fun _ => cudaEventCreate) dp ;;
  check (cudaEventRecord (dp initial_start) (dp stream)) ;;
  h <- new_SharedMemoryHandler shr_mem_name ;;
  let dp := set shr_mem h dp in
  open_shr_mem (dp shr_mem) ;;
  ret dp.

Definition allocate_and_copy_rf_samples (total_samples : Z) (dp : DSPCore)
    : M DSPCore :=
  let dp := set rf_samples_size (total_samples * sizeof_cuComplex) dp in
  dp <- check_into rf_samples_d
          (fun old => cudaMalloc old (dp rf_samples_size)) dp ;;
  src <- get_shrmem_addr (dp shr_mem) ;;
  check (cudaMemcpyAsync (dp rf_samples_d) src (dp rf_samples_size)
           (dp stream)) ;;
  ret dp.

(** The three filter-bank methods differ in the members they use. *)
Definition allocate_and_copy_filters (filters_d filters_size : member)
    (taps total_taps : Z) (dp : DSPCore) : M DSPCore :=
  let dp := set filters_size (total_taps * sizeof_cuComplex) dp in
  dp <- check_into filters_d
          (fun old => cudaMalloc old (dp filters_size)) dp ;;
  check (cudaMemcpyAsync (dp filters_d) taps (dp filters_size)
           (dp stream)) ;;
  ret dp.

Definition allocate_and_copy_first_stage_filters :=
  allocate_and_copy_filters first_stage_bp_filters_d
                            first_stage_bp_filters_size.
Definition allocate_and_copy_second_stage_filter :=
  allocate_and_copy_filters second_stage_filters_d second_stage_filters_size.
Definition allocate_and_copy_third_stage_filter :=
  allocate_and_copy_filters third_stage_filters_d third_stage_filters_size.

(** So do the three output-buffer methods. *)
Definition allocate_output (output_d output_size : member)
    (num_output_samples : Z) (dp : DSPCore) : M DSPCore :=
  let dp := set output_size (num_output_samples * sizeof_cuComplex) dp in
  check_into output_d (fun old => cudaMalloc old (dp output_size)) dp.

Definition allocate_first_stage_output :=
  allocate_output first_stage_output_d first_stage_output_size.
Definition allocate_second_stage_output :=
  allocate_output second_stage_output_d second_stage_output_size.
Definition allocate_third_stage_output :=
  allocate_output third_stage_output_d third_stage_output_size.

Definition allocate_and_copy_host_output (num_host_samples : Z)
    (dp : DSPCore) : M DSPCore :=
  let dp := set host_output_size (num_host_samples * sizeof_cuComplex) dp in
  dp <- check_into host_output_h
          (fun old => cudaHostAlloc old (dp host_output_size)) dp ;;
  check (cudaMemcpyAsync (dp host_output_h) (dp third_stage_output_d)
           (dp host_output_size) (dp stream)) ;;
  ret dp.

Definition clear_device_and_destroy (dp : DSPCore) : M unit :=
  check (cudaFree (dp rf_samples_d)) ;;
  check (cudaFree (dp first_stage_bp_filters_d)) ;;
  check (cudaFree (dp second_stage_filters_d)) ;;
  check (cudaFree (dp third_stage_filters_d)) ;;
  check (cudaFree (dp first_stage_output_d)) ;;
  check (cudaFree (dp second_stage_output_d)) ;;
  check (cudaFree (dp third_stage_output_d)) ;;
  check (cudaFreeHost (dp host_output_h)) ;;
  check (cudaEventDestroy (dp initial_start)) ;;
  check (cudaEventDestroy (dp kernel_start)) ;;
  check (cudaEventDestroy (dp stop)) ;;
  check (cudaStreamDestroy (dp stream)) ;;
  remove_shr_mem (dp shr_mem) ;;
  delete (dp shr_mem).

Definition stop_timing (dp : DSPCore) : M DSPCore :=
  check (cudaEventRecord (dp stop) (dp stream)) ;;
  check (cudaEventSynchronize (dp stop)) ;;
  dp <- check_into total_process_timing_ms
          (fun old => cudaEventElapsedTime old (dp initial_start) (dp stop))
          dp ;;
  check_into decimate_kernel_timing_ms
    (fun old => cudaEventElapsedTime old (dp kernel_start) (dp stop)) dp.

Definition timing_packet (dp : DSPCore) : SigProcPacket :=
  {| kerneltime := Some (dp decimate_kernel_timing_ms);
     packet_sequence_num := Some (dp sequence_num) |}.

Definition send_timing (dp : DSPCore) : M unit :=
  send (dp timing_socket) (timing_packet dp) ;;
  act (Cout "Sent timing after processing" []).

Definition ack_packet (dp : DSPCore) : SigProcPacket :=
  {| kerneltime := None; packet_sequence_num := Some (dp sequence_num) |}.

Definition send_ack (dp : DSPCore) : M unit :=
  send (dp ack_socket) (ack_packet dp) ;;
  act (Cout "Sent ack after copy" []).

Definition start_decimate_timing (dp : DSPCore) : M unit :=
  check (cudaEventRecord (dp kernel_start) (dp stream)).

Definition get_decimate_timing (dp : DSPCore) : Z :=
  dp decimate_kernel_timing_ms.
Definition get_total_timing (dp : DSPCore) : Z :=
  dp total_process_timing_ms.

Definition postprocess (dp : DSPCore) : M unit :=
  dp <- stop_timing dp ;;
  send_timing dp ;;
  act (Cout "Cuda kernel timing: ms" [get_decimate_timing dp]) ;;
  act (Cout "Complete process timing: ms" [get_total_timing dp]) ;;
  clear_device_and_destroy dp ;;
  delete (dp this_).

(** The stream callbacks hand their work to a host thread; the second
    is joined, the first detached. *)
Definition cuda_postprocessing_callback (status : cudaError_t)
    (processing_data : DSPCore) : M unit :=
  gpuErrchk status ;;
  postprocess processing_data.

Definition initial_memcpy_callback_handler (dp : DSPCore) : M unit :=
  send_ack dp ;;
  start_decimate_timing dp.

Definition initial_memcpy_callback (status : cudaError_t)
    (processing_data : DSPCore) : M unit :=
  gpuErrchk status ;;
  initial_memcpy_callback_handler processing_data.

(** The launch halves of the two wrappers of [decimate.cu]. *)
Definition launch_wrapper (k : kernel) (threads_x : Z)
    (original_samples decimated_samples filter_taps dm_rate
     samples_per_antenna num_taps_per_filter num_freqs num_antennas
     stream_ : Z) : M unit :=
  let shr_mem_taps := u32 (num_freqs * num_taps_per_filter)
                      * sizeof_cuComplex in
  act (Cout "    Number of shared memory bytes: " [shr_mem_taps]) ;;
  (if dm_rate =? 0 then raise Undefined else ret tt) ;;
  let dimGrid := create_grid samples_per_antenna dm_rate num_antennas in
  act (Cout "    Grid size: x x " [fst dimGrid; snd dimGrid; 1]) ;;
  let dimBlock := create_block threads_x num_freqs in
  act (Cout "    Block size: x x " [fst dimBlock; snd dimBlock; 1]) ;;
  launch k dimGrid dimBlock shr_mem_taps
    [original_samples; decimated_samples; filter_taps; dm_rate;
     samples_per_antenna] stream_.

Definition decimate1024_wrapper (original_samples decimated_samples
    filter_taps dm_rate samples_per_antenna num_taps_per_filter num_freqs
    num_antennas stream_ : Z) : M unit :=
  launch_wrapper decimate1024_kernel num_taps_per_filter
    original_samples decimated_samples filter_taps dm_rate
    samples_per_antenna num_taps_per_filter num_freqs num_antennas stream_.

Definition decimate2048_wrapper (original_samples decimated_samples
    filter_taps dm_rate samples_per_antenna num_taps_per_filter num_freqs
    num_antennas stream_ : Z) : M unit :=
  launch_wrapper decimate2048_kernel (num_taps_per_filter / 2)
    original_samples decimated_samples filter_taps dm_rate
    samples_per_antenna num_taps_per_filter num_freqs num_antennas stream_.

Definition call_decimate (original_samples decimated_samples filter_taps
    dm_rate samples_per_antenna num_taps_per_filter num_freqs
    num_antennas : Z) (output_msg : string) (dp : DSPCore) : M unit :=
  act (Cout output_msg []) ;;
  gpu_properties <- get_gpu_properties ;;
  match gpu_properties with
  | [] => raise Undefined
  | gpu0 :: _ =>
      (if u32 (num_taps_per_filter * num_freqs)
            >? u32 (2 * maxThreadsPerBlock gpu0)
       then ret tt
       else if u32 (num_taps_per_filter * num_freqs)
                 >? u32 (maxThreadsPerBlock gpu0)
       then decimate2048_wrapper original_samples decimated_samples
              filter_taps dm_rate samples_per_antenna num_taps_per_filter
              num_freqs num_antennas (dp stream)
       else decimate1024_wrapper original_samples decimated_samples
              filter_taps dm_rate samples_per_antenna num_taps_per_filter
              num_freqs num_antennas (dp stream)) ;;
      check cudaPeekAtLastError
  end.

Definition get_rf_samples_p (dp : DSPCore) : Z := dp rf_samples_d.
Definition get_first_stage_bp_filters_p (dp : DSPCore) : Z :=
  dp first_stage_bp_filters_d.
Definition get_second_stage_filter_p (dp : DSPCore) : Z :=
  dp second_stage_filters_d.
Definition get_third_stage_filter_p (dp : DSPCore) : Z :=
  dp third_stage_filters_d.
Definition get_first_stage_output_p (dp : DSPCore) : Z :=
  dp first_stage_output_d.
Definition get_second_stage_output_p (dp : DSPCore) : Z :=
  dp second_stage_filters_d.
Definition get_third_stage_output_p (dp : DSPCore) : Z :=
  dp third_stage_filters_d.
Definition get_cuda_stream (dp : DSPCore) : Z := dp stream.

(** *** Reading traces *)

Definition is_release (a : action) : bool :=
  match a with
  | ShrMemRemove _ | Delete _ => true
  | _ => false
  end.

Definition is_kernel_start_record (dp : DSPCore) (a : action) : bool :=
  match a with
  | EventRecord event _ => event =? dp kernel_start
  | _ => false
  end.

Definition timing_messages (socket : Z) (tr : list action)
    : list SigProcPacket :=
  flat_map (fun a => match a with
                     | SocketSend s msg => if s =? socket then [msg] else []
                     | _ => []
                     end) tr.

Definition launches (tr : list action) : list kernel :=
  flat_map (fun a => match a with
                     | KernelLaunch k _ _ _ _ _ => [k]
                     | _ => []
                     end) tr.

(** In [tr], every action that [guarded] accepts comes after [key]. *)
Definition comes_first (key : action) (guarded : action -> bool)
    (tr : list action) : Prop :=
  forall before a after,
    tr = before ++ a :: after -> guarded a = true -> In key before.

(** A starting point for runs: one device, nothing allocated, one
    shared-memory region, every action taking a millisecond. *)
Definition idle_world (max_threads : Z) : world :=
  {| gpus := [{| maxThreadsPerBlock := max_threads;
                 sharedMemPerBlock := 49152 |}];
     device_free := 2 ^ 32;
     live := [];
     recorded := [];
     last_error := cudaSuccess;
     now := 0;
     latency := fun _ => 1;
     shr_mem_regions := ["rx_ringbuffer_0"%string];
     handler_name := [];
     broken_sockets := [];
     trace := [] |}.

(** An instance before its constructor ran: every member is null. *)
Definition blank : DSPCore := fun _ => 0.

(** What a computation adds to the trace is accepted by [P], however
    the computation ends. *)
Definition Emits {A : Type} (P : action -> bool) (m : M A) : Prop :=
  forall w, exists added,
    trace (final_world (m w)) = trace w ++ added /\ forallb P added = true.

Definition anything (a : action) : bool := true.
Definition no_release (a : action) : bool := negb (is_release a).

(** Whatever [m] releases, it releases after [key] has happened. *)
Definition ReleasesAfter {A : Type} (key : action) (m : M A) : Prop :=
  forall w, exists added,
    trace (final_world (m w)) = trace w ++ added /\
    comes_first key is_release added.

Definition fails {A : Type} (m : M A) (w : world) : Prop :=
  exists f w', m w = Fatal f w'.

(** A step after which nothing is live that was not live before. *)
Definition shrinks {A : Type} (m : M A) : Prop :=
  forall w a w', m w = Ok a w' ->
    forall k h, is_live k h w' = true -> is_live k h w = true.

Definition result {A : Type} (default : A) (o : outcome A) : A :=
  match o with Ok a _ => a | Fatal _ _ => default end.

(** An instance made by [new DSPCore (&ack, &timing, 7, name)] with the
    ack socket 50 and the timing socket 51, in the idle world. *)
Definition example_started : outcome DSPCore :=
  (r <- create Object ;;
   DSPCore_ctor (set this_ (snd r) blank) 50 51 7 "rx_ringbuffer_0")
    (idle_world 1024).

(** The same instance after its samples were copied and acknowledged. *)
Definition example_acked : outcome DSPCore :=
  (dp <- allocate_and_copy_rf_samples 8192 (result blank example_started) ;;
   initial_memcpy_callback cudaSuccess dp ;;
   ret dp) (final_world example_started).

(** A sequence whose stage-1 filters are too long for either kernel:
    2048 taps for each of 2 frequencies on a device of 1024 threads per
    block. *)
Definition over_limit_sequence : outcome unit :=
  (call_decimate (get_rf_samples_p (result blank example_acked))
     (get_first_stage_output_p (result blank example_acked))
     (get_first_stage_bp_filters_p (result blank example_acked))
     8 4096 2048 2 2 "Stage 1" (result blank example_acked) ;;
   postprocess (result blank example_acked)) (final_world example_acked).

(** The started instance with the filter banks and output buffers of
    stages 2 and 3 allocated, one call after the other. *)
Definition example_filters_2 : outcome DSPCore :=
  allocate_and_copy_second_stage_filter 1002 64
    (result blank example_started) (final_world example_started).
Definition example_filters_3 : outcome DSPCore :=
  allocate_and_copy_third_stage_filter 1003 32
    (result blank example_filters_2) (final_world example_filters_2).
Definition example_output_2 : outcome DSPCore :=
  allocate_second_stage_output 2048
    (result blank example_filters_3) (final_world example_filters_3).
Definition example_output_3 : outcome DSPCore :=
  allocate_third_stage_output 512
    (result blank example_output_2) (final_world example_output_2).

(** The acknowledged instance, its timing stopped. *)
Definition example_stopped : outcome DSPCore :=
  stop_timing (result blank example_acked) (final_world example_acked).

(** The acknowledged instance, torn down once. *)
Definition example_cleared : outcome unit :=
  clear_device_and_destroy (result blank example_acked)
    (final_world example_acked).

(** *** Time, ownership and launches *)

(** No event carries a time later than the clock. *)
Definition clock_ok (w : world) : bool :=
  forallb (fun r => snd r <=? now w) (recorded w).

(** A computation that keeps the clock sound, however it ends. *)
Definition keeps_clock {A : Type} (m : M A) : Prop :=
  forall w, clock_ok w = true -> clock_ok (final_world (m w)) = true.

(** The messages of a trace, each with the socket it went to. *)
Definition sent (tr : list action) : list (Z * SigProcPacket) :=
  flat_map (fun a => match a with
                     | SocketSend s msg => [(s, msg)]
                     | _ => []
                     end) tr.

Definition sends_nothing (a : action) : bool :=
  match a with
  | SocketSend _ _ => false
  | _ => true
  end.

(** The kernel launches of a trace, with their configurations. *)
Definition kernel_launches (tr : list action) : list action :=
  filter (fun a => match a with
                   | KernelLaunch _ _ _ _ _ _ => true
                   | _ => false
                   end) tr.

(** The configurations [launch] accepts on device [p]. *)
Definition launchable (p : cudaDeviceProp) (dimGrid dimBlock : Z * Z)
    (shr_mem_taps : Z) : bool :=
  (1 <=? fst dimGrid) && (1 <=? snd dimGrid)
  && (1 <=? fst dimBlock) && (1 <=? snd dimBlock)
  && (fst dimBlock * snd dimBlock <=? maxThreadsPerBlock p)
  && (shr_mem_taps <=? sharedMemPerBlock p).

(** [holds r l]: the resource [r] is among [l]. *)
Definition holds (r : kind * Z) (l : list (kind * Z)) : bool :=
  existsb (fun r' => kind_eqb (fst r') (fst r) && (snd r' =? snd r)) l.

(** What [cudaFree (p)] or [cudaFreeHost (p)] gives back: nothing for
    the null pointer. *)
Definition buffer (k : kind) (p : Z) : list (kind * Z) :=
  if p =? 0 then [] else [(k, p)].

(** The resources an instance has handles of: its eight buffers, its
    three events, its stream and its shared-memory handler. *)
Definition owned (dp : DSPCore) : list (kind * Z) :=
  buffer DeviceMemory (dp rf_samples_d)
  ++ buffer DeviceMemory (dp first_stage_bp_filters_d)
  ++ buffer DeviceMemory (dp second_stage_filters_d)
  ++ buffer DeviceMemory (dp third_stage_filters_d)
  ++ buffer DeviceMemory (dp first_stage_output_d)
  ++ buffer DeviceMemory (dp second_stage_output_d)
  ++ buffer DeviceMemory (dp third_stage_output_d)
  ++ buffer PinnedMemory (dp host_output_h)
  ++ [(Event, dp initial_start); (Event, dp kernel_start);
      (Event, dp stop); (Stream, dp stream); (Object, dp shr_mem)].

(** A stage-1 launch on fewer samples than the decimation rate, from the
    acknowledged instance. *)
Definition example_empty_grid : outcome unit :=
  call_decimate (get_rf_samples_p (result blank example_acked))
    (get_first_stage_output_p (result blank example_acked))
    (get_first_stage_bp_filters_p (result blank example_acked))
    8 4 64 2 2 "Stage 1" (result blank example_acked)
    (final_world example_acked).

(** Every live resource is one of [base] or one of [own], every one of
    these is live, and none of [base] is one of [own]. *)
Definition accounted (base own : list (kind * Z)) (w : world) : bool :=
  forallb (fun r => holds r base || holds r own) (live w)
  && forallb (fun r => holds r (live w)) (base ++ own)
  && forallb (fun r => negb (holds r own)) base.

(** An instance none of whose buffers has been allocated. *)
Definition unallocated (dp : DSPCore) : bool :=
  forallb (fun m => dp m =? 0)
    [rf_samples_d; first_stage_bp_filters_d; second_stage_filters_d;
     third_stage_filters_d; first_stage_output_d; second_stage_output_d;
     third_stage_output_d; host_output_h].

(** The world in which the constructor of [example_started] ran. *)
Definition example_allocated : world :=
  final_world (create Object (idle_world 1024)).

(** The started instance with its samples allocated and their copy
    queued. *)
Definition example_samples : outcome DSPCore :=
  allocate_and_copy_rf_samples 8192 (result blank example_started)
    (final_world example_started).

(** *** What an allocation leaves behind *)

(** The call has put into [ptr] a new allocation of kind [k] and into
    [size_] the size in bytes of [n] samples: the pointer is not null
    and was the handle of nothing live, the allocation is the one
    resource that became live, and no other member has changed. *)
Definition allocates (k : kind) (ptr size_ : member) (n : Z)
    (dp : DSPCore) (w : world) (dp' : DSPCore) (w' : world) : Prop :=
  dp' ptr <> 0 /\
  (forall k', is_live k' (dp' ptr) w = false) /\
  live w' = (k, dp' ptr) :: live w /\
  dp' size_ = n * sizeof_cuComplex /\
  (forall m, m <> ptr -> m <> size_ -> dp' m = dp m).

(** The acknowledged instance, its stage-1 launch refused for an empty
    grid, and the finalisation that would follow. *)
Definition refused_sequence : outcome unit :=
  (call_decimate (get_rf_samples_p (result blank example_acked))
     (get_first_stage_output_p (result blank example_acked))
     (get_first_stage_bp_filters_p (result blank example_acked))
     8 4 64 2 2 "Stage 1" (result blank example_acked) ;;
   postprocess (result blank example_acked)) (final_world example_acked).

(** The acknowledged instance, its finalisation callback handed an
    error status. *)
Definition copy_failed_sequence : outcome unit :=
  cuda_postprocessing_callback cudaErrorInvalidValue
    (result blank example_acked) (final_world example_acked).


(** The acknowledged instance, finalised: timing sent, torn down and
    deleted. *)
Definition example_finished : outcome unit :=
  postprocess (result blank example_acked) (final_world example_acked).

(** The next sequence, started after [example_finished] in the same
    region: constructor and sample allocation. *)
Definition example_restarted : outcome DSPCore :=
  (r <- create Object ;;
   dp <- DSPCore_ctor (set this_ (snd r) blank) 50 51 8 "rx_ringbuffer_0" ;;
   allocate_and_copy_rf_samples 8192 dp)
    (with_shr_mem ["rx_ringbuffer_0"%string]
       (handler_name (final_world example_finished))
       (final_world example_finished)).
End Host.

Import Runs.
Import Host.
Local Open Scope host_scope.

(** ** Bounds of the sample loads *)

Lemma u32_range (x : Z) : 0 <= u32 x < 2 ^ 32.
Proof. unfold u32. apply Z.mod_pos_bound. lia. Qed.

Lemma u32_small (x : Z) : 0 <= x < 2 ^ 32 -> u32 x = x.
Proof. intros Hx. unfold u32. apply Z.mod_small. exact Hx. Qed.

Lemma u32_add_l (x y : Z) : u32 (u32 x + y) = u32 (x + y).
Proof. unfold u32. apply Z.add_mod_idemp_l. lia. Qed.

Lemma u32_add_r (x y : Z) : u32 (x + u32 y) = u32 (x + y).
Proof. unfold u32. apply Z.add_mod_idemp_r. lia. Qed.

Lemma LoadAt_inj (a b : Z) : LoadAt a = LoadAt b -> a = b.
Proof. congruence. Qed.

Lemma in_antenna_row_bound (samples_per_antenna blockIdx_y off : Z) :
  u32 (blockIdx_y * samples_per_antenna) + samples_per_antenna <= 2 ^ 32 ->
  in_antenna_row samples_per_antenna blockIdx_y off ->
  u32 (blockIdx_y * samples_per_antenna) <= off
  < u32 (blockIdx_y * samples_per_antenna) + samples_per_antenna.
Proof.
  intros Hfit (local & Hl & ->).
  pose proof (u32_range (blockIdx_y * samples_per_antenna)) as Hr.
  rewrite (u32_small (u32 _ + local)) by lia. lia.
Qed.

(** Equations between wrapped sums, by the division equations. *)
Ltac u32_lia :=
  unfold u32 in *; change (2 ^ 32) with 4294967296 in *;
  Z.div_mod_to_equations; lia.

Lemma load1024_cases (dm_rate samples_per_antenna bx by_ tx : Z) :
  let local := u32 (u32 (bx * dm_rate) + tx) in
  (samples_per_antenna <= local /\
   load1024 dm_rate samples_per_antenna bx by_ tx = LoadZero) \/
  (local < samples_per_antenna /\
   load1024 dm_rate samples_per_antenna bx by_ tx =
     LoadAt (u32 (u32 (by_ * samples_per_antenna) + local))).
Proof.
  intros local. unfold load1024. fold local.
  destruct (Z.geb_spec local samples_per_antenna) as [Hge | Hlt].
  - left. split; [lia | reflexivity].
  - right. split; [lia |]. f_equal. subst local.
    u32_lia.
Qed.

Lemma load2048_cases (dm_rate samples_per_antenna bx by_ tx : Z) :
  0 <= samples_per_antenna < 2 ^ 32 ->
  let local := u32 (u32 (bx * dm_rate) + u32 (2 * tx)) in
  let row := u32 (by_ * samples_per_antenna) in
  (samples_per_antenna <= local /\
   load2048 dm_rate samples_per_antenna bx by_ tx = (LoadZero, LoadZero)) \/
  (local = samples_per_antenna - 1 /\
   load2048 dm_rate samples_per_antenna bx by_ tx =
     (LoadAt (u32 (row + local)), LoadZero)) \/
  (local + 1 < samples_per_antenna /\
   load2048 dm_rate samples_per_antenna bx by_ tx =
     (LoadAt (u32 (row + local)), LoadAt (u32 (row + (local + 1))))).
Proof.
  intros Hspa local row. unfold load2048. fold local. fold row.
  assert (Hoff : u32 (u32 (row + u32 (bx * dm_rate)) + u32 (2 * tx))
                 = u32 (row + local)).
  { subst local row. u32_lia. }
  rewrite Hoff.
  destruct (Z.geb_spec local samples_per_antenna) as [Hge | Hlt].
  - left. split; [lia | reflexivity].
  - right.
    assert (Hm : u32 (samples_per_antenna - 1) = samples_per_antenna - 1).
    { apply u32_small.
      pose proof (u32_range (u32 (bx * dm_rate) + u32 (2 * tx))) as Hr.
      fold local in Hr. lia. }
    rewrite Hm.
    destruct (Z.geb_spec local (samples_per_antenna - 1)) as [Hge1 | Hlt1].
    + left. split; [lia | reflexivity].
    + right. split; [lia |]. f_equal. f_equal.
      u32_lia.
Qed.

(** C5.  In both kernels every read of [original_samples] is at a cell of
    the block's own antenna row: the antenna-local index is below
    [samples_per_antenna].  A small-variant thread whose index
    [dec_sample_offset + threadIdx.x] is not below [samples_per_antenna]
    loads zero without reading; a large-variant thread loads two zeros
    when its first index is out of range and one zero when only its second
    is.  When the row lies inside the 32-bit index space, no read is at or
    past [antenna_offset + samples_per_antenna]. *)
Theorem loads_stay_in_antenna_row :
  forall dm_rate samples_per_antenna blockIdx_x blockIdx_y threadIdx_x,
    0 <= samples_per_antenna < 2 ^ 32 ->
    let antenna_offset := u32 (blockIdx_y * samples_per_antenna) in
    let dec_sample_offset := u32 (blockIdx_x * dm_rate) in
    let l1 := load1024 dm_rate samples_per_antenna
                blockIdx_x blockIdx_y threadIdx_x in
    let l2 := load2048 dm_rate samples_per_antenna
                blockIdx_x blockIdx_y threadIdx_x in
    (forall off, In (LoadAt off) [l1; fst l2; snd l2] ->
       in_antenna_row samples_per_antenna blockIdx_y off /\
       (antenna_offset + samples_per_antenna <= 2 ^ 32 ->
        antenna_offset <= off < antenna_offset + samples_per_antenna)) /\
    (u32 (dec_sample_offset + threadIdx_x) >= samples_per_antenna ->
       l1 = LoadZero) /\
    (u32 (dec_sample_offset + u32 (2 * threadIdx_x)) >= samples_per_antenna ->
       l2 = (LoadZero, LoadZero)) /\
    (u32 (dec_sample_offset + u32 (2 * threadIdx_x)) = samples_per_antenna - 1 ->
       snd l2 = LoadZero /\ exists off, fst l2 = LoadAt off).
Proof.
  intros dm_rate spa bx by_ tx Hspa antenna_offset dec_sample_offset l1 l2.
  pose proof (load1024_cases dm_rate spa bx by_ tx) as H1.
  pose proof (load2048_cases dm_rate spa bx by_ tx Hspa) as H2.
  cbv zeta in H1, H2. fold dec_sample_offset in H1, H2.
  fold antenna_offset in H1, H2. fold l1 in H1. fold l2 in H2.
  assert (Hrow : forall local, 0 <= local < spa ->
            in_antenna_row spa by_ (u32 (antenna_offset + local))).
  { intros local Hl. exists local. split; [exact Hl | reflexivity]. }
  pose proof (u32_range (dec_sample_offset + tx)) as Hr1.
  pose proof (u32_range (dec_sample_offset + u32 (2 * tx))) as Hr2.
  assert (Hall : forall off, In (LoadAt off) [l1; fst l2; snd l2] ->
            in_antenna_row spa by_ off).
  { intros off [E | [E | [E | []]]];
      destruct H1 as [[_ H1] | [Hl H1]];
      destruct H2 as [[_ H2] | [[Hl2 H2] | [Hl2 H2]]];
      rewrite ?H1, ?H2 in E; cbn [fst snd] in E;
      try discriminate; apply LoadAt_inj in E; subst off; apply Hrow; lia. }
  split; [| repeat split].
  - intros off Hin. split; [exact (Hall off Hin) |].
    intros Hfit. apply in_antenna_row_bound; [exact Hfit | exact (Hall off Hin)].
  - intros Hge. destruct H1 as [[_ H1] | [Hl _]]; [exact H1 | lia].
  - intros Hge. destruct H2 as [[_ H2] | [[Hl _] | [Hl _]]];
      [exact H2 | lia | lia].
  - destruct H2 as [[Hl _] | [[_ H2] | [Hl _]]]; try lia.
    rewrite H2. reflexivity.
  - destruct H2 as [[Hl _] | [[_ H2] | [Hl _]]]; try lia.
    rewrite H2. eexists. reflexivity.
Qed.

Lemma loads_stay_in_antenna_row_witness :
  0 <= 10 < 2 ^ 32 /\
  forall off,
    In (LoadAt off)
       [load1024 5 10 1 1 2; fst (load2048 5 10 1 1 2);
        snd (load2048 5 10 1 1 2)] ->
    in_antenna_row 10 1 off /\
    (u32 (1 * 10) + 10 <= 2 ^ 32 -> u32 (1 * 10) <= off < u32 (1 * 10) + 10).
Proof.
  assert (Hspa : 0 <= 10 < 2 ^ 32) by lia.
  split; [exact Hspa |].
  exact (proj1 (loads_stay_in_antenna_row 5 10 1 1 2 Hspa)).
Defined.


(** ** The kernels on rows shorter than a warp, and the large variant *)

(** C3.  A block of two rows of 16 threads is one warp.  The shuffle
    loop of [parallel_reduce] always runs its five steps over 32 lanes, so
    thread [(0, 0)] returns the sum of both rows and thread [(0, 1)] twice
    the sum of its own row, where the row sums are 0 and 16. *)
Theorem parallel_reduce_row_of_16 :
  forall garbage : cuComplex Z,
    let sums := parallel_reduce garbage 16 2 (tap_offset1024 16) rows_16x2 in
    nth 0 sums garbage = c 16 0 /\ row_sum rows_16x2 16 0 = c 0 0 /\
    nth 16 sums garbage = c 32 0 /\ row_sum rows_16x2 16 1 = c 16 0.
Proof. intros garbage. vm_compute. repeat split. Qed.

(** C1.  Two filters of 16 taps, one antenna of 16 samples all equal to
    one, decimation by 16: [decimate1024] writes 16 and 32 where the
    output layout asks for 0 and 16. *)
Theorem decimate1024_filters_of_16 :
  forall (garbage : cuComplex Z) (decimated_samples : mem),
    let out := Kernel.decimate1024_wrapper garbage all_ones decimated_samples
                 taps_16x2 16 16 16 2 1 in
    out (spec_offset 16 16 1 0 0 0) = c 16 0 /\
    spec_output all_ones taps_16x2 16 16 16 0 0 0 = c 0 0 /\
    out (spec_offset 16 16 1 1 0 0) = c 32 0 /\
    spec_output all_ones taps_16x2 16 16 16 1 0 0 = c 16 0.
Proof. intros garbage decimated_samples. vm_compute. repeat split. Qed.

(** In the large variant the rows of [filter_products] and of
    [filter_taps] start [blockDim.x = num_taps / 2] cells apart although
    each is [num_taps] cells long: the first cell of row [ty > 0] lies
    before the first tap of filter [ty]. *)
Lemma tap_offset2048_row_start (num_taps ty : Z) :
  0 < ty -> 2 <= num_taps -> ty * num_taps < 2 ^ 32 ->
  tap_offset2048 (num_taps / 2) (0, ty) < ty * num_taps.
Proof.
  intros Hty Hn Hfit. unfold tap_offset2048. cbn [fst snd].
  assert (Hh : 0 < num_taps / 2 < num_taps).
  { split; [apply Z.div_str_pos; lia | apply Z.div_lt; lia]. }
  assert (Hp : 0 <= ty * (num_taps / 2) < ty * num_taps) by nia.
  rewrite (u32_small (ty * (num_taps / 2))) by lia.
  change (u32 (2 * 0)) with 0. rewrite Z.add_0_r.
  rewrite u32_small by lia. lia.
Qed.

(** C2.  Stage-1 filters of 1024 taps for two frequencies, zero except
    the upper half of the second filter, on one antenna of 1024 samples
    all equal to one: the small variant writes 512 for frequency 1, as the
    output layout asks, the large variant writes 0.  One filter of 128
    taps all equal to one on the samples 0, 1, ..., 127: the small variant
    writes 8128, the large variant 6080. *)
Theorem decimate2048_differs_from_decimate1024 :
  forall (garbage : cuComplex Z) (decimated_samples : mem),
    (let small := Kernel.decimate1024_wrapper garbage all_ones
                    decimated_samples taps_1024x2 1024 1024 1024 2 1 in
     let large := Kernel.decimate2048_wrapper garbage all_ones
                    decimated_samples taps_1024x2 1024 1024 1024 2 1 in
     small (spec_offset 1024 1024 1 1 0 0) = c 512 0 /\
     large (spec_offset 1024 1024 1 1 0 0) = c 0 0 /\
     spec_output all_ones taps_1024x2 1024 1024 1024 1 0 0 = c 512 0) /\
    (let small := Kernel.decimate1024_wrapper garbage ramp
                    decimated_samples all_ones 128 128 128 1 1 in
     let large := Kernel.decimate2048_wrapper garbage ramp
                    decimated_samples all_ones 128 128 128 1 1 in
     small 0 = c 8128 0 /\ large 0 = c 6080 0).
Proof. intros garbage decimated_samples. vm_compute. repeat split. Qed.

(** ** Rows of at least a warp: the kernels under exact arithmetic *)

Section ExactSums.
Context {F : Type} `{ExactArith F}.

Lemma cuCaddf_assoc (x y z : cuComplex F) :
  cuCaddf x (cuCaddf y z) = cuCaddf (cuCaddf x y) z.
Proof. unfold cuCaddf. cbn. rewrite !fadd_assoc. reflexivity. Qed.

Lemma cuCaddf_comm (x y : cuComplex F) : cuCaddf x y = cuCaddf y x.
Proof.
  unfold cuCaddf. rewrite (fadd_comm (cuCrealf x)), (fadd_comm (cuCimagf x)).
  reflexivity.
Qed.

Lemma cuCaddf_0_l (x : cuComplex F) : cuCaddf czero x = x.
Proof. destruct x. unfold cuCaddf, czero. cbn. rewrite !fadd_0_l. reflexivity. Qed.

Lemma cuCaddf_0_r (x : cuComplex F) : cuCaddf x czero = x.
Proof. rewrite cuCaddf_comm. apply cuCaddf_0_l. Qed.

Lemma cuCmulf_0_l (y : cuComplex F) : cuCmulf czero y = czero.
Proof.
  unfold cuCmulf, czero. cbn. rewrite !fmul_0_l, fsub_0_0, fadd_0_l.
  reflexivity.
Qed.

Lemma cuComplex_eta (x : cuComplex F) :
  make_cuComplex (cuCrealf x) (cuCimagf x) = x.
Proof. destruct x. reflexivity. Qed.

Lemma zseq_succ (n : Z) : 0 <= n -> zseq (n + 1) = zseq n ++ [n].
Proof.
  intros Hn. unfold zseq.
  replace (Z.to_nat (n + 1)) with (S (Z.to_nat n)) by lia.
  rewrite seq_S, map_app. cbn. rewrite Z2Nat.id by exact Hn. reflexivity.
Qed.

Lemma csum_0 (f : Z -> cuComplex F) : csum f 0 = czero.
Proof. reflexivity. Qed.

Lemma csum_succ (f : Z -> cuComplex F) (n : Z) :
  0 <= n -> csum f (n + 1) = cuCaddf (csum f n) (f n).
Proof.
  intros Hn. unfold csum. rewrite zseq_succ by exact Hn.
  rewrite map_app, fold_left_app. reflexivity.
Qed.

Lemma csum_ext (f g : Z -> cuComplex F) (n : Z) :
  (forall i, 0 <= i < n -> f i = g i) -> csum f n = csum g n.
Proof.
  destruct (Z.le_gt_cases 0 n) as [Hn | Hn].
  - revert n Hn. apply (natlike_ind (fun n => _ -> csum f n = csum g n)).
    + reflexivity.
    + intros n Hn IH Hfg. unfold Z.succ. rewrite !csum_succ by exact Hn.
      rewrite IH, Hfg by (intros; try apply Hfg; lia). reflexivity.
  - intros _. unfold csum, zseq. destruct n; try lia. reflexivity.
Qed.

Lemma csum_add (f g : Z -> cuComplex F) (n : Z) :
  0 <= n ->
  csum (fun i => cuCaddf (f i) (g i)) n = cuCaddf (csum f n) (csum g n).
Proof.
  revert n. apply natlike_ind.
  - rewrite !csum_0, cuCaddf_0_l. reflexivity.
  - intros n Hn IH. unfold Z.succ. rewrite !csum_succ by exact Hn. rewrite IH.
    rewrite <- !cuCaddf_assoc. f_equal.
    rewrite !cuCaddf_assoc. f_equal. apply cuCaddf_comm.
Qed.

Lemma csum_split (f : Z -> cuComplex F) (n m : Z) :
  0 <= n -> 0 <= m ->
  csum f (n + m) = cuCaddf (csum f n) (csum (fun i => f (i + n)) m).
Proof.
  intros Hn. revert m. apply natlike_ind.
  - rewrite Z.add_0_r, csum_0, cuCaddf_0_r. reflexivity.
  - intros m Hm IH. unfold Z.succ. rewrite Z.add_assoc.
    rewrite !csum_succ by lia. rewrite IH, <- cuCaddf_assoc.
    rewrite (Z.add_comm n m). reflexivity.
Qed.

(** The step of a tree reduction: adding the upper half of a row onto
    its lower half keeps the sum. *)
Lemma csum_halve (f : Z -> cuComplex F) (m : Z) :
  0 <= m ->
  csum (fun i => cuCaddf (f i) (f (i + m))) m = csum f (m + m).
Proof.
  intros Hm. rewrite csum_add, csum_split by exact Hm. reflexivity.
Qed.

Lemma csum_1 (f : Z -> cuComplex F) : csum f 1 = f 0.
Proof. unfold csum. cbn. apply cuCaddf_0_l. Qed.
End ExactSums.

(** *** Lists of threads and committed writes *)

Section Memory.
Context {F : Type} `{FloatOps F}.

Lemma commit_last (ws : list (Z * cuComplex F)) (k : Z) (v : cuComplex F)
    (m : mem) (i : Z) :
  commit (ws ++ [(k, v)]) m i = if i =? k then v else commit ws m i.
Proof. unfold commit. rewrite fold_left_app. reflexivity. Qed.

Lemma commit_notin (ws : list (Z * cuComplex F)) (m : mem) (i : Z) :
  (forall v, ~ In (i, v) ws) -> commit ws m i = m i.
Proof.
  induction ws as [| [k v] ws IH] using rev_ind; intros Hn; [reflexivity |].
  rewrite commit_last. destruct (Z.eqb_spec i k) as [-> | Hne].
  - exfalso. apply (Hn v). apply in_or_app. right. left. reflexivity.
  - apply IH. intros v' Hin. apply (Hn v'). apply in_or_app. left. exact Hin.
Qed.

(** When every write to cell [i] writes [v], the cell holds [v]. *)
Lemma commit_In (ws : list (Z * cuComplex F)) (m : mem) (i : Z)
    (v : cuComplex F) :
  In (i, v) ws -> (forall v', In (i, v') ws -> v' = v) -> commit ws m i = v.
Proof.
  induction ws as [| [k v0] ws IH] using rev_ind; intros Hin Hu; [destruct Hin |].
  rewrite commit_last. destruct (Z.eqb_spec i k) as [-> | Hne].
  - apply Hu. apply in_or_app. right. left. reflexivity.
  - apply in_app_or in Hin as [Hin | [E | []]].
    + apply IH; [exact Hin |]. intros v' Hv'. apply Hu.
      apply in_or_app. left. exact Hv'.
    + congruence.
Qed.

Lemma In_zseq (n i : Z) : In i (zseq n) <-> 0 <= i < n.
Proof.
  unfold zseq. rewrite in_map_iff. split.
  - intros (k & <- & Hk). apply in_seq in Hk. lia.
  - intros Hi. exists (Z.to_nat i). split; [lia |]. apply in_seq. lia.
Qed.

Lemma length_zseq (n : Z) : List.length (zseq n) = Z.to_nat n.
Proof. unfold zseq. rewrite length_map, length_seq. reflexivity. Qed.

Lemma nth_zseq (n i d : Z) : 0 <= i < n -> nth (Z.to_nat i) (zseq n) d = i.
Proof.
  intros Hi. unfold zseq.
  rewrite nth_indep with (d' := Z.of_nat 0)
    by (rewrite length_map, length_seq; lia).
  rewrite map_nth, seq_nth by lia. lia.
Qed.

Lemma In_threads (X Y tx ty : Z) :
  In (tx, ty) (threads X Y) <-> 0 <= tx < X /\ 0 <= ty < Y.
Proof.
  unfold threads. rewrite in_flat_map. split.
  - intros (y & Hy & Hin). apply in_map_iff in Hin as (x & E & Hx).
    injection E as <- <-. apply In_zseq in Hy, Hx. split; assumption.
  - intros [Hx Hy]. exists ty. split; [apply In_zseq; exact Hy |].
    apply in_map_iff. exists tx. split; [reflexivity | apply In_zseq; exact Hx].
Qed.

Lemma threads_succ (X Y : Z) :
  0 <= Y ->
  threads X (Y + 1) = threads X Y ++ map (fun tx => (tx, Y)) (zseq X).
Proof.
  intros HY. unfold threads. rewrite zseq_succ by exact HY.
  rewrite flat_map_app. cbn. rewrite app_nil_r. reflexivity.
Qed.

Lemma length_threads (X Y : Z) :
  0 <= X -> 0 <= Y -> List.length (threads X Y) = Z.to_nat (X * Y).
Proof.
  intros HX. revert Y. apply natlike_ind.
  - rewrite Z.mul_0_r. reflexivity.
  - intros Y HY IH. unfold Z.succ. rewrite threads_succ by exact HY.
    rewrite length_app, IH, length_map, length_zseq. nia.
Qed.

(** The thread at linear index [ty * X + tx] is [(tx, ty)]. *)
Lemma nth_threads {A : Type} (g : Z * Z -> A) (d : A) (X Y tx ty : Z) :
  0 <= tx < X -> 0 <= ty < Y ->
  nth (Z.to_nat (ty * X + tx)) (map g (threads X Y)) d = g (tx, ty).
Proof.
  intros Hx. revert ty. 
  assert (HY : 0 <= Y \/ Y < 0) by lia. destruct HY as [HY | HY]; [| lia].
  revert Y HY. apply (natlike_ind (fun Y => forall ty, 0 <= ty < Y -> _)).
  - lia.
  - intros Y HY IH ty Hty. unfold Z.succ. rewrite threads_succ by exact HY.
    rewrite map_app.
    assert (Hlen : List.length (map g (threads X Y)) = Z.to_nat (X * Y))
      by (rewrite length_map; apply length_threads; lia).
    destruct (Z.eq_dec ty Y) as [-> | Hne].
    + rewrite app_nth2 by (rewrite Hlen; nia).
      rewrite Hlen.
      replace (Z.to_nat (Y * X + tx) - Z.to_nat (X * Y))%nat
        with (Z.to_nat tx) by nia.
      rewrite map_map.
      rewrite nth_indep with (d' := g (0, Y))
        by (rewrite length_map, length_zseq; lia).
      rewrite (map_nth (fun tx0 => g (tx0, Y)) (zseq X) 0).
      rewrite nth_zseq by exact Hx. reflexivity.
    + rewrite app_nth1 by (rewrite Hlen; nia).
      apply IH. lia.
Qed.

Lemma combine_map_self {A B : Type} (g : A -> B) (l : list A) :
  combine l (map g l) = map (fun t => (t, g t)) l.
Proof. induction l as [| a l IH]; cbn; [| rewrite IH]; reflexivity. Qed.

Lemma flat_map_nil {A B : Type} (f : A -> list B) (l : list A) :
  (forall a, In a l -> f a = []) -> flat_map f l = [].
Proof.
  induction l as [| a l IH]; cbn; intros Hf; [reflexivity |].
  rewrite (Hf a) by (left; reflexivity). apply IH.
  intros b Hb. apply Hf. right. exact Hb.
Qed.
End Memory.

Lemma flat_map_ext_in {A B : Type} (f g : A -> list B) (l : list A) :
  (forall a, In a l -> f a = g a) -> flat_map f l = flat_map g l.
Proof.
  induction l as [| a l IH]; cbn; intros Hfg; [reflexivity |].
  rewrite (Hfg a) by (left; reflexivity). f_equal. apply IH.
  intros b Hb. apply Hfg. right. exact Hb.
Qed.

(** The large variant reads [filter_taps] only below
    [(num_freqs + 1) * num_taps / 2], whatever the schedule: two filter
    banks that agree there give the same block, although a bank holds
    [num_freqs * num_taps] taps. *)
Lemma products2048_reads_lower_taps {F : Type} `{FloatOps F}
    (garbage : cuComplex F) (original_samples filter_taps filter_taps' : mem)
    (dm_rate samples_per_antenna blockDim_x blockDim_y : Z) (b : Z * Z) :
  (blockDim_y + 1) * blockDim_x <= 2 ^ 32 ->
  (forall i, 0 <= i < (blockDim_y + 1) * blockDim_x ->
     filter_taps i = filter_taps' i) ->
  products2048 garbage original_samples filter_taps dm_rate
    samples_per_antenna blockDim_x blockDim_y b
  = products2048 garbage original_samples filter_taps' dm_rate
      samples_per_antenna blockDim_x blockDim_y b.
Proof.
  intros Hfit Hagree. unfold products2048. cbv zeta.
  apply flat_map_ext_in. intros [tx ty] Ht.
  apply In_threads in Ht as [Hx Hy]. cbn [fst snd].
  assert (Hrow : 0 <= ty * blockDim_x
                 /\ ty * blockDim_x + blockDim_x <= blockDim_y * blockDim_x)
    by nia.
  assert (Ho : tap_offset2048 blockDim_x (tx, ty) = ty * blockDim_x + 2 * tx).
  { unfold tap_offset2048. cbn [fst snd].
    rewrite (u32_small (ty * blockDim_x)), (u32_small (2 * tx)) by lia.
    apply u32_small. lia. }
  rewrite Ho.
  rewrite (u32_small (ty * blockDim_x + 2 * tx + 1)) by lia.
  rewrite (Hagree (ty * blockDim_x + 2 * tx)) by lia.
  rewrite (Hagree (ty * blockDim_x + 2 * tx + 1)) by lia.
  reflexivity.
Qed.

(** X5.  A block of [decimate2048] reads [filter_taps] only below
    [(blockDim.y + 1) * blockDim.x], that is below
    [(num_freqs + 1) * num_taps / 2] in a launch by its wrapper: two filter
    banks that agree there give the same stores, although a bank holds
    [num_freqs * num_taps] taps. *)
Lemma decimate2048_reads_lower_taps {F : Type} `{FloatOps F}
    (garbage : cuComplex F) (original_samples filter_taps filter_taps' : mem)
    (dm_rate samples_per_antenna gridDim_x gridDim_y blockDim_x blockDim_y : Z)
    (b : Z * Z) :
  (blockDim_y + 1) * blockDim_x <= 2 ^ 32 ->
  (forall i, 0 <= i < (blockDim_y + 1) * blockDim_x ->
     filter_taps i = filter_taps' i) ->
  decimate2048_block garbage original_samples filter_taps dm_rate
    samples_per_antenna gridDim_x gridDim_y blockDim_x blockDim_y b
  = decimate2048_block garbage original_samples filter_taps' dm_rate
      samples_per_antenna gridDim_x gridDim_y blockDim_x blockDim_y b.
Proof.
  intros Hfit Hagree. unfold decimate2048_block.
  rewrite (products2048_reads_lower_taps garbage original_samples filter_taps
             filter_taps' dm_rate samples_per_antenna blockDim_x blockDim_y b
             Hfit Hagree).
  reflexivity.
Qed.

Lemma decimate2048_reads_lower_taps_witness :
  decimate2048_block (c 77 77) all_ones taps_1024x2 1024 1024 1 1 512 2 (0, 0)
  = decimate2048_block (c 77 77) all_ones taps_1024x2_low 1024 1024 1 1 512 2
      (0, 0).
Proof.
  apply decimate2048_reads_lower_taps; [lia |].
  intros i Hi. unfold taps_1024x2, taps_1024x2_low.
  destruct (Z.ltb_spec i 1536); [reflexivity | lia].
Defined.

(** *** [parallel_reduce] on rows of at least a warp *)

Lemma flat_map_map {A B C : Type} (f : A -> B) (g : B -> list C) (l : list A) :
  flat_map g (map f l) = flat_map (fun a => g (f a)) l.
Proof. induction l as [| a l IH]; cbn; [| rewrite IH]; reflexivity. Qed.

Lemma radix_inj (X tx ty tx' ty' : Z) :
  0 <= tx < X -> 0 <= tx' < X -> ty * X + tx = ty' * X + tx' ->
  tx = tx' /\ ty = ty'.
Proof.
  intros Hx Hx' E.
  assert (ty = ty') by nia. subst ty'. split; [lia | reflexivity].
Qed.

Section ReduceCorrect.
Context {F : Type} `{ExactArith F}.
Variable garbage : cuComplex F.
Variables X Y : Z.
Hypothesis HX : 32 <= X.
Hypothesis Hwarp : X mod 32 = 0.
Hypothesis Hfit : X * Y <= 2 ^ 32.
Variable target : Z -> cuComplex F.

Lemma tap_offset1024_valid (tx ty : Z) :
  0 <= tx < X -> 0 <= ty < Y -> tap_offset1024 X (tx, ty) = ty * X + tx.
Proof.
  intros Hx Hy. unfold tap_offset1024. cbn [fst snd].
  assert (0 <= ty * X /\ ty * X + X <= X * Y) by nia.
  rewrite (u32_small (ty * X)) by lia. apply u32_small. lia.
Qed.

Lemma lane_of_thread (tx ty : Z) :
  0 <= tx < 32 -> (ty * X + tx) mod 32 = tx.
Proof.
  intros Hx. apply Z.mod_divide in Hwarp as [q Hq]; [| lia].
  rewrite Hq, Z.mul_assoc, Z.add_comm, Z_mod_plus_full.
  apply Z.mod_small. exact Hx.
Qed.

Lemma column_of_thread (tx ty : Z) :
  0 <= tx < X -> (ty * X + tx) mod X = tx.
Proof.
  intros Hx. rewrite Z.add_comm, Z_mod_plus_full. apply Z.mod_small. exact Hx.
Qed.

Lemma reduced_state_init (data : mem) :
  reduced_state X Y X (row_sum data X)
    (data, map (fun t => data (tap_offset1024 X t)) (threads X Y)).
Proof.
  exists (fun t => data (snd t * X + fst t)),
         (fun t => data (tap_offset1024 X t)).
  split; [reflexivity |]. split; [| split].
  - intros tx ty Hx Hy. cbn [fst snd].
    rewrite tap_offset1024_valid by assumption. reflexivity.
  - intros tx ty Hx Hy. reflexivity.
  - intros ty Hy. reflexivity.
Qed.

Lemma tree_step_active (limit stride : Z) (st : mem * list (cuComplex F)) :
  limit = stride + stride -> 0 < stride -> limit <= X ->
  reduced_state X Y limit target st ->
  reduced_state X Y stride target
    (tree_step X Y (tap_offset1024 X) limit stride st).
Proof.
  intros Hl Hs Hle (f & g & Hsums & Hg & Hd & Hsum).
  destruct st as [data sums]. cbn [fst snd] in *. subst sums.
  pose proof (fun tx ty => Hd tx ty) as Hd'. cbn [fst snd] in Hd'.
  unfold tree_step. cbn [fst snd].
  rewrite combine_map_self, !map_map, flat_map_map.
  assert (Hc : forall tx, 0 <= tx < stride ->
            (X >=? limit) && (tx <? stride) = true).
  { intros tx Hx. apply andb_true_intro. split; [apply Z.geb_le | apply Z.ltb_lt]; lia. }
  assert (Hv : forall tx ty, 0 <= tx < stride -> 0 <= ty < Y ->
            cuCaddf (g (tx, ty))
              (data (u32 (tap_offset1024 X (tx, ty) + stride)))
            = halve stride f (tx, ty)).
  { intros tx ty Hx Hy. unfold halve. cbn [fst snd].
    rewrite tap_offset1024_valid by lia.
    assert (0 <= ty * X /\ ty * X + X <= X * Y) by nia.
    rewrite u32_small by lia.
    rewrite Hg by lia.
    replace (ty * X + tx + stride) with (ty * X + (tx + stride)) by lia.
    rewrite (Hd' (tx + stride) ty) by lia. reflexivity. }
  eexists (halve stride f), _. split; [reflexivity |]. split; [| split].
  - intros tx ty Hx Hy. cbn [fst snd]. rewrite Hc by exact Hx.
    cbn [fst]. apply Hv; assumption.
  - intros tx ty Hx Hy. cbn [fst snd].
    apply commit_In.
    + apply in_flat_map. exists (tx, ty). split; [apply In_threads; lia |].
      cbn [fst snd]. rewrite Hc by exact Hx. cbn [snd]. left.
      rewrite Hv by assumption. rewrite tap_offset1024_valid by lia.
      reflexivity.
    + intros v' Hin. apply in_flat_map in Hin as ([tx' ty'] & Ht & Hin).
      apply In_threads in Ht as [Hx' Hy']. cbn [fst snd] in Hin.
      destruct ((X >=? limit) && (tx' <? stride)) eqn:Ec; cbn [snd] in Hin;
        [| destruct Hin].
      destruct Hin as [E | []].
      apply andb_prop in Ec as [_ Ec]. apply Z.ltb_lt in Ec.
      rewrite Hv in E by lia. rewrite tap_offset1024_valid in E by lia.
      injection E as E1 E2.
      apply radix_inj in E1 as [-> ->]; [| lia | lia].
      symmetry. exact E2.
  - intros ty Hy. rewrite <- (Hsum ty Hy), Hl.
    apply (csum_halve (fun j => f (j, ty))). lia.
Qed.

Lemma tree_step_inactive (limit stride h : Z) (st : mem * list (cuComplex F)) :
  X < limit ->
  reduced_state X Y h target st ->
  reduced_state X Y h target
    (tree_step X Y (tap_offset1024 X) limit stride st).
Proof.
  intros Hlt (f & g & Hsums & Hg & Hd & Hsum).
  destruct st as [data sums]. cbn [fst snd] in *. subst sums.
  pose proof (fun tx ty => Hd tx ty) as Hd'. cbn [fst snd] in Hd'.
  unfold tree_step. cbn [fst snd].
  rewrite combine_map_self, !map_map, flat_map_map.
  assert (Hc : forall tx, (X >=? limit) && (tx <? stride) = false).
  { intros tx. apply andb_false_intro1. rewrite Z.geb_leb. apply Z.leb_gt. lia. }
  rewrite flat_map_nil by (intros [tx ty] _; cbn [fst snd]; rewrite Hc; reflexivity).
  exists f, g. split; [| split; [exact Hg | split; [exact Hd | exact Hsum]]].
  apply map_ext. intros [tx ty]. cbn [fst snd]. rewrite Hc. reflexivity.
Qed.

Lemma fetch_second_warp_active (st : mem * list (cuComplex F)) :
  64 <= X ->
  reduced_state X Y 64 target st ->
  reduced_sums X Y 32 target
    (fetch_second_warp X Y (tap_offset1024 X) st).
Proof.
  intros Hle (f & g & Hsums & Hg & Hd & Hsum).
  destruct st as [data sums]. cbn [fst snd] in *. subst sums.
  pose proof (fun tx ty => Hd tx ty) as Hd'. cbn [fst snd] in Hd'.
  unfold fetch_second_warp. cbn [fst snd].
  rewrite combine_map_self, !map_map.
  eexists (halve 32 f), _. split; [reflexivity |]. split.
  - intros tx ty Hx Hy. cbn [fst snd].
    replace ((tx <? 32) && (X >=? 64)) with true
      by (symmetry; apply andb_true_intro;
          split; [apply Z.ltb_lt | apply Z.geb_le]; lia).
    unfold halve. cbn [fst snd].
    rewrite tap_offset1024_valid by lia.
    assert (0 <= ty * X /\ ty * X + X <= X * Y) by nia.
    rewrite u32_small by lia. rewrite Hg by lia.
    replace (ty * X + tx + 32) with (ty * X + (tx + 32)) by lia.
    rewrite (Hd' (tx + 32) ty) by lia. reflexivity.
  - intros ty Hy. rewrite <- (Hsum ty Hy).
    apply (csum_halve (fun j => f (j, ty)) 32). lia.
Qed.

Lemma fetch_second_warp_inactive (h : Z) (st : mem * list (cuComplex F)) :
  X < 64 ->
  reduced_state X Y h target st ->
  reduced_sums X Y h target
    (fetch_second_warp X Y (tap_offset1024 X) st).
Proof.
  intros Hlt (f & g & Hsums & Hg & Hd & Hsum).
  destruct st as [data sums]. cbn [fst snd] in *. subst sums.
  pose proof (fun tx ty => Hd tx ty) as Hd'. cbn [fst snd] in Hd'.
  unfold fetch_second_warp. cbn [fst snd].
  rewrite combine_map_self, !map_map.
  exists f, g. split; [| split; [exact Hg | exact Hsum]].
  apply map_ext. intros [tx ty]. cbn [fst snd].
  replace (X >=? 64) with false
    by (symmetry; rewrite Z.geb_leb; apply Z.leb_gt; lia).
  rewrite andb_false_r. reflexivity.
Qed.

Lemma shuffle_step_halves (offset : Z) (sums : list (cuComplex F)) :
  0 < offset -> offset + offset <= 32 ->
  reduced_sums X Y (offset + offset) target sums ->
  reduced_sums X Y offset target (shuffle_step garbage X Y offset sums).
Proof.
  intros Ho Hle (f & g & Hsums & Hg & Hsum). subst sums.
  unfold shuffle_step. rewrite combine_map_self, !map_map.
  eexists (halve offset f), _. split; [reflexivity |]. split.
  - intros tx ty Hx Hy. cbn [fst snd].
    replace (tx <? 32) with true by (symmetry; apply Z.ltb_lt; lia).
    unfold halve, shfl_down, shfl_down_float, linear_id, warpSize.
    cbn [fst snd].
    rewrite lane_of_thread by lia. rewrite (Z.mod_small tx 32) by lia.
    replace (tx + offset <? 32) with true by (symmetry; apply Z.ltb_lt; lia).
    assert (Hrow : 0 <= ty * X /\ ty * X + X <= X * Y) by nia.
    assert (Hin : in_final_warp X Y (ty * X + tx + offset) = true).
    { unfold in_final_warp.
      replace (ty * X + tx + offset) with (ty * X + (tx + offset)) by lia.
      rewrite column_of_thread by lia.
      repeat (apply andb_true_intro; split);
        [apply Z.leb_le | apply Z.ltb_lt | apply Z.ltb_lt]; lia. }
    rewrite Hin.
    replace (ty * X + tx + offset) with (ty * X + (tx + offset)) by lia.
    rewrite nth_threads by lia.
    rewrite cuComplex_eta, !Hg by lia. reflexivity.
  - intros ty Hy. rewrite <- (Hsum ty Hy).
    apply (csum_halve (fun j => f (j, ty)) offset). lia.
Qed.

Lemma shuffle_loop_unroll (sums : list (cuComplex F)) :
  shuffle_loop garbage X Y (Z.to_nat warpSize) (warpSize / 2) sums
  = shuffle_step garbage X Y 1
      (shuffle_step garbage X Y 2
         (shuffle_step garbage X Y 4
            (shuffle_step garbage X Y 8
               (shuffle_step garbage X Y 16 sums)))).
Proof. reflexivity. Qed.

Lemma reduced_sums_result (sums : list (cuComplex F)) (ty : Z) :
  reduced_sums X Y 1 target sums -> 0 <= ty < Y ->
  nth (Z.to_nat (ty * X)) sums garbage = target ty.
Proof.
  intros (f & g & Hsums & Hg & Hsum) Hy. subst sums.
  rewrite <- (Z.add_0_r (ty * X)). rewrite nth_threads by lia.
  rewrite Hg by lia. rewrite <- (Hsum ty Hy), csum_1. reflexivity.
Qed.
End ReduceCorrect.

Ltac reduce_side := first [assumption | reflexivity | lia].

(** For a row length [X] among 32, 64, ..., 1024, under exact
    arithmetic, [parallel_reduce] reduces every row to one partial sum:
    guarded tree steps down to 64 partial sums, the fetch from the second
    warp, and five shuffle steps. *)
Lemma parallel_reduce_reduces {F : Type} `{ExactArith F}
    (garbage : cuComplex F) (data : mem) (X Y e : Z) :
  5 <= e <= 10 -> X = 2 ^ e -> X * Y <= 2 ^ 32 ->
  reduced_sums X Y 1 (row_sum data X)
    (parallel_reduce garbage X Y (tap_offset1024 X) data).
Proof.
  intros He HX Hfit.
  assert (Hcases : e = 5 \/ e = 6 \/ e = 7 \/ e = 8 \/ e = 9 \/ e = 10) by lia.
  assert (Hwarp : X mod 32 = 0 /\ 32 <= X).
  { destruct Hcases as [-> | [-> | [-> | [-> | [-> | ->]]]]]; subst X;
      split; [reflexivity | lia | reflexivity | lia | reflexivity | lia
             | reflexivity | lia | reflexivity | lia | reflexivity | lia]. }
  destruct Hwarp as [Hwarp HX32].
  unfold parallel_reduce. cbv zeta. rewrite shuffle_loop_unroll.
  apply shuffle_step_halves with (offset := 1); try reduce_side.
  apply shuffle_step_halves with (offset := 2); try reduce_side.
  apply shuffle_step_halves with (offset := 4); try reduce_side.
  apply shuffle_step_halves with (offset := 8); try reduce_side.
  apply shuffle_step_halves with (offset := 16); try reduce_side.
  destruct Hcases as [-> | [-> | [-> | [-> | [-> | ->]]]]];
    match goal with
    | HX : X = 2 ^ ?k |- _ =>
        let v := eval compute in (2 ^ k) in change (2 ^ k) with v in HX
    end;
    first [ apply fetch_second_warp_active; [lia | assumption | lia |]
          | apply fetch_second_warp_inactive with (h := 32); [lia |] ];
    repeat first
      [ apply tree_step_active; [lia | assumption | reflexivity | lia | lia |]
      | apply tree_step_inactive; [lia |] ];
    subst X; apply reduced_state_init; lia.
Qed.

(** X1.  For a row length [blockDim.x] among 32, 64, ..., 1024 and a
    block inside the 32-bit index space, under exact arithmetic, thread
    [(0, ty)] of [parallel_reduce] returns the sum of the [blockDim.x]
    cells of row [ty] of [data], for every row of the block. *)
Lemma parallel_reduce_sums_rows {F : Type} `{ExactArith F}
    (garbage : cuComplex F) (data : mem) (X Y e ty : Z) :
  5 <= e <= 10 -> X = 2 ^ e -> X * Y <= 2 ^ 32 -> 0 <= ty < Y ->
  nth (Z.to_nat (ty * X))
      (parallel_reduce garbage X Y (tap_offset1024 X) data) garbage
  = row_sum data X ty.
Proof.
  intros He HX Hfit Hty.
  apply reduced_sums_result with (Y := Y); [| | exact Hty].
  - subst X. assert (2 ^ 5 <= 2 ^ e) by (apply Z.pow_le_mono_r; lia). lia.
  - apply parallel_reduce_reduces with (e := e); assumption.
Qed.

Lemma parallel_reduce_sums_rows_witness :
  nth (Z.to_nat (1 * 32))
      (parallel_reduce (F:=Z) (c 77 77) 32 2 (tap_offset1024 32) ramp) (c 77 77)
  = row_sum ramp 32 1.
Proof.
  apply (parallel_reduce_sums_rows (c 77 77) ramp 32 2 5 1);
    [lia | reflexivity | lia | lia].
Defined.

(** *** [decimate1024] on filters of at least a warp *)

Lemma spec_offset_inj (dm_rate samples_per_antenna num_antennas : Z)
    (f a k f' a' k' : Z) :
  0 <= k < samples_per_antenna / dm_rate ->
  0 <= k' < samples_per_antenna / dm_rate ->
  0 <= a < num_antennas -> 0 <= a' < num_antennas ->
  spec_offset dm_rate samples_per_antenna num_antennas f a k
  = spec_offset dm_rate samples_per_antenna num_antennas f' a' k' ->
  f = f' /\ a = a' /\ k = k'.
Proof.
  unfold spec_offset. set (gx := samples_per_antenna / dm_rate).
  intros Hk Hk' Ha Ha' E.
  assert (E1 : (f * num_antennas + a) * gx + k
               = (f' * num_antennas + a') * gx + k') by lia.
  apply radix_inj in E1 as [-> E2]; [| lia | lia].
  apply radix_inj in E2 as [-> ->]; [| lia | lia].
  repeat split.
Qed.

Lemma total_offset_valid (dm_rate samples_per_antenna num_freqs num_antennas
    f a k : Z) :
  0 < dm_rate -> samples_per_antenna mod dm_rate = 0 ->
  num_antennas * samples_per_antenna <= 2 ^ 32 ->
  num_freqs * (samples_per_antenna / dm_rate) * num_antennas <= 2 ^ 32 ->
  0 <= f < num_freqs -> 0 <= a < num_antennas ->
  0 <= k < samples_per_antenna / dm_rate ->
  total_offset dm_rate samples_per_antenna (samples_per_antenna / dm_rate)
    num_antennas k a f
  = spec_offset dm_rate samples_per_antenna num_antennas f a k.
Proof.
  intros Hdm Hdiv Hin Hout Hf Ha Hk. unfold total_offset, spec_offset.
  set (gx := samples_per_antenna / dm_rate) in *.
  assert (Hspa : samples_per_antenna = dm_rate * gx).
  { subst gx. apply Z.div_exact; lia. }
  assert (Hgx : 0 < gx) by lia.
  assert (Hpos : 0 < samples_per_antenna) by nia.
  assert (Has : 0 <= a * samples_per_antenna
                /\ a * samples_per_antenna + samples_per_antenna
                   <= num_antennas * samples_per_antenna) by nia.
  assert (Hrow : u32 (a * samples_per_antenna) / dm_rate = a * gx).
  { rewrite u32_small by lia. rewrite Hspa.
    replace (a * (dm_rate * gx)) with (a * gx * dm_rate) by lia.
    apply Z.div_mul. lia. }
  rewrite Hrow.
  assert (Hfg : 0 <= f * gx /\ f * gx * num_antennas + gx * num_antennas
                                <= num_freqs * gx * num_antennas) by nia.
  assert (Hag : 0 <= a * gx /\ a * gx + gx <= gx * num_antennas) by nia.
  assert (Hfn : 0 <= f * gx * num_antennas
                /\ f * gx <= f * gx * num_antennas) by nia.
  rewrite (u32_small (f * gx)) by lia.
  rewrite (u32_small (f * gx * num_antennas)) by lia.
  rewrite (u32_small (f * gx * num_antennas + a * gx)) by lia.
  apply u32_small. lia.
Qed.

Section Decimate1024Correct.
Context {F : Type} `{ExactArith F}.
Variable garbage : cuComplex F.
Variables original_samples filter_taps : mem (F:=F).
Variables dm_rate samples_per_antenna num_taps num_freqs num_antennas e : Z.
Hypothesis He : 5 <= e <= 10.
Hypothesis Hpow : num_taps = 2 ^ e.
Hypothesis Hthreads : num_taps * num_freqs <= 1024.
Hypothesis Hdm : 0 < dm_rate.
Hypothesis Hdiv : samples_per_antenna mod dm_rate = 0.
Hypothesis Hin : num_antennas * samples_per_antenna + num_taps <= 2 ^ 32.
Hypothesis Hout :
  num_freqs * (samples_per_antenna / dm_rate) * num_antennas <= 2 ^ 32.


Lemma num_taps_bounds : 32 <= num_taps <= 1024.
Proof.
  rewrite Hpow.
  assert (2 ^ 5 <= 2 ^ e) by (apply Z.pow_le_mono_r; lia).
  assert (2 ^ e <= 2 ^ 10) by (apply Z.pow_le_mono_r; lia). lia.
Qed.

(** The product a thread of block [(k, a)] leaves in [filter_products]
    is the term of the output layout. *)
Lemma product_is_spec_term (f a k tx : Z) :
  0 <= f < num_freqs -> 0 <= a < num_antennas -> 0 <= k < (samples_per_antenna / dm_rate) ->
  0 <= tx < num_taps ->
  cuCmulf
    (fetch original_samples (load1024 dm_rate samples_per_antenna k a tx))
    (filter_taps (tap_offset1024 num_taps (tx, f)))
  = spec_term original_samples filter_taps dm_rate samples_per_antenna
      num_taps f a k tx.
Proof.
  intros Hf Ha Hk Htx. pose proof num_taps_bounds as Hn.
  assert (Hspa : samples_per_antenna = dm_rate * (samples_per_antenna / dm_rate))
    by (apply Z.div_exact; lia).
  assert (Hkd : 0 <= k * dm_rate /\ k * dm_rate + dm_rate <= samples_per_antenna)
    by nia.
  assert (Has : 0 <= a * samples_per_antenna
                /\ a * samples_per_antenna + samples_per_antenna
                   <= num_antennas * samples_per_antenna) by nia.
  unfold spec_term. f_equal.
  - unfold load1024.
    rewrite (u32_small (k * dm_rate)) by lia.
    rewrite (u32_small (k * dm_rate + tx)) by lia.
    rewrite (u32_small (a * samples_per_antenna)) by lia.
    destruct (Z.geb_spec (k * dm_rate + tx) samples_per_antenna) as [Hge | Hlt];
      destruct (Z.ltb_spec (k * dm_rate + tx) samples_per_antenna); try lia.
    + reflexivity.
    + cbn [fetch].
      rewrite (u32_small (a * samples_per_antenna + k * dm_rate)) by lia.
      rewrite u32_small by lia. reflexivity.
  - rewrite (tap_offset1024_valid num_taps num_freqs) by lia. reflexivity.
Qed.

(** What a block writes: for every frequency, the sum of the output
    layout at the place of the output layout. *)
Lemma decimate1024_block_writes (a k i : Z) (v : cuComplex F) :
  0 <= a < num_antennas -> 0 <= k < (samples_per_antenna / dm_rate) ->
  In (i, v)
     (decimate1024_block garbage original_samples filter_taps dm_rate
        samples_per_antenna (samples_per_antenna / dm_rate) num_antennas num_taps num_freqs (k, a))
  <-> exists f,
        0 <= f < num_freqs /\
        i = spec_offset dm_rate samples_per_antenna num_antennas f a k /\
        v = spec_output original_samples filter_taps dm_rate
              samples_per_antenna num_taps f a k.
Proof.
  intros Ha Hk. pose proof num_taps_bounds as Hn.
  unfold decimate1024_block. cbn [fst snd].
  match goal with
  | |- context [parallel_reduce garbage num_taps num_freqs _ ?fp] =>
      remember fp as filter_products eqn:Hfp
  end.
  destruct (parallel_reduce_reduces garbage filter_products num_taps
              num_freqs e He Hpow ltac:(lia))
    as (f1 & g & Hs & Hg & Hsum).
  rewrite Hs. unfold output_writes. rewrite combine_map_self, flat_map_map.
  assert (Hval : forall f, 0 <= f < num_freqs ->
            g (0, f) = spec_output original_samples filter_taps dm_rate
                         samples_per_antenna num_taps f a k).
  { intros f Hf. rewrite Hg by lia.
    rewrite <- (csum_1 (fun j => f1 (j, f))), (Hsum f Hf).
    unfold row_sum, spec_output. apply csum_ext. intros tx Htx.
    subst filter_products.
    rewrite <- product_is_spec_term by assumption.
    apply commit_In.
    - apply in_map_iff. exists (tx, f). split; [| apply In_threads; lia].
      cbn [fst snd]. f_equal.
      rewrite (tap_offset1024_valid num_taps num_freqs) by lia. reflexivity.
    - intros v' Hv'. apply in_map_iff in Hv' as ([tx' f'] & E & Ht).
      apply In_threads in Ht as [Hx' Hf']. cbn [fst snd] in E.
      rewrite (tap_offset1024_valid num_taps num_freqs) in E by lia.
      injection E as E1 E2.
      apply radix_inj in E1 as [-> ->]; [| lia | lia].
      rewrite (tap_offset1024_valid num_taps num_freqs) by lia.
      symmetry. exact E2. }
  split.
  - intros Hiv. apply in_flat_map in Hiv as ([tx f] & Ht & Hiv).
    apply In_threads in Ht as [Hx Hf]. cbn [fst snd] in Hiv.
    destruct (Z.eqb_spec tx 0) as [-> | Hne]; [| destruct Hiv].
    destruct Hiv as [E | []]. injection E as <- <-.
    exists f. split; [exact Hf |]. split; [| apply Hval; exact Hf].
    apply total_offset_valid with (num_freqs := num_freqs); try assumption; lia.
  - intros (f & Hf & -> & ->). apply in_flat_map. exists (0, f).
    split; [apply In_threads; lia |]. cbn [fst snd]. left. f_equal.
    + apply total_offset_valid with (num_freqs := num_freqs);
        try assumption; lia.
    + apply Hval. exact Hf.
Qed.

(** X2.  Let the filters have 32, 64, ..., 1024 taps, a power of two;
    the taps over all frequencies number at most 1024; the decimation
    rate be positive and divide [samples_per_antenna];
    [num_antennas * samples_per_antenna + num_taps <= 2 ^ 32] and
    [num_freqs * (samples_per_antenna / dm_rate) * num_antennas <= 2 ^ 32];
    and the samples, the taps and the output be three buffers that do not
    overlap.  Then a launch of [decimate1024] by its wrapper leaves in
    cell
    [f * (samples_per_antenna / dm_rate) * num_antennas
     + a * (samples_per_antenna / dm_rate) + k] of [decimated_samples] the
    sum over the taps [t] of sample [k * dm_rate + t] of antenna [a] times
    tap [t] of filter [f], a sample past the end of the row counting as
    zero (under exact arithmetic). *)
Lemma decimate1024_output_layout (decimated_samples : mem (F:=F))
    (f a k : Z) :
  0 <= f < num_freqs -> 0 <= a < num_antennas -> 0 <= k < (samples_per_antenna / dm_rate) ->
  Kernel.decimate1024_wrapper garbage original_samples decimated_samples
    filter_taps dm_rate samples_per_antenna num_taps num_freqs num_antennas
    (spec_offset dm_rate samples_per_antenna num_antennas f a k)
  = spec_output original_samples filter_taps dm_rate samples_per_antenna
      num_taps f a k.
Proof.
  intros Hf Ha Hk.
  unfold Kernel.decimate1024_wrapper, create_grid, create_block, decimate1024.
  cbn [fst snd].
  apply commit_In.
  - apply in_flat_map. exists (k, a). split; [apply In_threads; lia |].
    apply decimate1024_block_writes; [exact Ha | exact Hk |].
    exists f. split; [exact Hf | split; reflexivity].
  - intros v' Hv'. apply in_flat_map in Hv' as ([k' a'] & Hb & Hv').
    apply In_threads in Hb as [Hk' Ha'].
    apply decimate1024_block_writes in Hv' as (f' & Hf' & E & ->);
      [| exact Ha' | exact Hk'].
    apply spec_offset_inj in E as (-> & -> & ->); try assumption.
    reflexivity.
Qed.
End Decimate1024Correct.

Lemma decimate1024_output_layout_witness :
  Kernel.decimate1024_wrapper (c 77 77) ramp all_ones ramp 16 64 32 2 2
    (spec_offset 16 64 2 1 0 3)
  = spec_output ramp ramp 16 64 32 1 0 3 /\
  spec_output ramp ramp 16 64 32 1 0 3 = c 35416 0.
Proof.
  split; [| vm_compute; reflexivity].
  apply decimate1024_output_layout with (e := 5);
    try reflexivity; cbn; lia.
Defined.

(** *** Where a launch writes, and what a block reads *)

Lemma output_writes_offsets {F : Type}
    (dm_rate samples_per_antenna gridDim_x gridDim_y blockDim_x blockDim_y
     blockIdx_x blockIdx_y : Z) (sums : list (cuComplex F)) (i : Z)
    (v : cuComplex F) :
  In (i, v) (output_writes dm_rate samples_per_antenna gridDim_x gridDim_y
               blockDim_x blockDim_y blockIdx_x blockIdx_y sums) ->
  exists ty, 0 <= ty < blockDim_y /\
    i = total_offset dm_rate samples_per_antenna gridDim_x gridDim_y
          blockIdx_x blockIdx_y ty.
Proof.
  unfold output_writes. intros Hin.
  apply in_flat_map in Hin as ([[tx ty] s] & Hc & Hin).
  apply in_combine_l in Hc. apply In_threads in Hc as [_ Hy].
  cbn [fst snd] in Hin. destruct (tx =? 0); [| destruct Hin].
  destruct Hin as [E | []]. injection E as <- _.
  exists ty. split; [exact Hy | reflexivity].
Qed.

Lemma spec_offset_range (dm_rate samples_per_antenna num_freqs num_antennas
    f a k : Z) :
  0 <= f < num_freqs -> 0 <= a < num_antennas ->
  0 <= k < samples_per_antenna / dm_rate ->
  0 <= spec_offset dm_rate samples_per_antenna num_antennas f a k
  < num_freqs * (samples_per_antenna / dm_rate) * num_antennas.
Proof.
  unfold spec_offset. set (gx := samples_per_antenna / dm_rate).
  intros Hf Ha Hk.
  assert (Hg : 0 < gx) by lia.
  assert (Hn : 0 <= gx * num_antennas) by nia.
  assert (H0 : 0 <= f * (gx * num_antennas)) by (apply Z.mul_nonneg_nonneg; lia).
  assert (H1 : (f + 1) * (gx * num_antennas) <= num_freqs * (gx * num_antennas))
    by (apply Z.mul_le_mono_nonneg_r; lia).
  assert (H2 : 0 <= a * gx) by (apply Z.mul_nonneg_nonneg; lia).
  assert (H3 : (a + 1) * gx <= num_antennas * gx)
    by (apply Z.mul_le_mono_nonneg_r; lia).
  lia.
Qed.

(** X3.  When the decimation rate divides the row length and both
    buffers lie inside the 32-bit index space, a launch of either kernel,
    whatever the width of its blocks, stores only into the
    [num_freqs * (samples_per_antenna / dm_rate) * num_antennas] cells of
    the output block: every other cell of [decimated_samples] holds
    afterwards what it held before. *)
Theorem decimate_writes_stay_in_output_block {F : Type} `{FloatOps F}
    (garbage : cuComplex F)
    (original_samples decimated_samples filter_taps : mem)
    (dm_rate samples_per_antenna num_taps_per_filter num_freqs
     num_antennas i : Z) :
  0 < dm_rate -> samples_per_antenna mod dm_rate = 0 ->
  num_antennas * samples_per_antenna <= 2 ^ 32 ->
  num_freqs * (samples_per_antenna / dm_rate) * num_antennas <= 2 ^ 32 ->
  ~ 0 <= i < num_freqs * (samples_per_antenna / dm_rate) * num_antennas ->
  Kernel.decimate1024_wrapper garbage original_samples decimated_samples
    filter_taps dm_rate samples_per_antenna num_taps_per_filter num_freqs
    num_antennas i = decimated_samples i /\
  Kernel.decimate2048_wrapper garbage original_samples decimated_samples
    filter_taps dm_rate samples_per_antenna num_taps_per_filter num_freqs
    num_antennas i = decimated_samples i.
Proof.
  intros Hdm Hdiv Hin Hout Hi.
  assert (Hw : forall bdx k a (v : cuComplex F) sums,
            0 <= k < samples_per_antenna / dm_rate -> 0 <= a < num_antennas ->
            ~ In (i, v)
                (output_writes dm_rate samples_per_antenna
                   (samples_per_antenna / dm_rate) num_antennas bdx num_freqs
                   k a sums)).
  { intros bdx k a v sums Hk Ha Hiv.
    apply output_writes_offsets in Hiv as (f & Hf & ->).
    rewrite (total_offset_valid dm_rate samples_per_antenna num_freqs
               num_antennas f a k) in Hi by assumption.
    apply Hi.
    apply spec_offset_range; assumption. }
  unfold Kernel.decimate1024_wrapper, Kernel.decimate2048_wrapper,
    create_grid, create_block, decimate1024, decimate2048.
  cbn [fst snd].
  split; apply commit_notin; intros v Hv;
    apply in_flat_map in Hv as ([k a] & Hb & Hv);
    apply In_threads in Hb as [Hk Ha];
    [unfold decimate1024_block in Hv | unfold decimate2048_block in Hv];
    cbn [fst snd] in Hv; exact (Hw _ k a v _ Hk Ha Hv).
Qed.

Lemma decimate_writes_stay_in_output_block_witness :
  Kernel.decimate1024_wrapper (c 77 77) ramp all_ones taps_1024x2
    16 64 32 2 1 8 = all_ones 8 /\
  Kernel.decimate2048_wrapper (c 77 77) ramp all_ones taps_1024x2
    16 64 32 2 1 8 = all_ones 8.
Proof.
  apply decimate_writes_stay_in_output_block;
    [lia | reflexivity | lia | cbn; lia | cbn; lia].
Defined.

Lemma fetch_agree {F : Type} `{FloatOps F} (m m' : mem) (l : load) :
  (forall off, l = LoadAt off -> m off = m' off) -> fetch m l = fetch m' l.
Proof.
  intros Hl. destruct l as [| off]; [reflexivity |]. cbn. apply Hl. reflexivity.
Qed.

(** X4.  A block of either kernel reads [original_samples] in the row of
    its own antenna [blockIdx.y] only: when that row lies inside the
    32-bit index space, two sample buffers that agree on it give the same
    stores, whatever the other antennas' rows hold. *)
Theorem blocks_read_their_antenna_row {F : Type} `{FloatOps F}
    (garbage : cuComplex F) (original_samples original_samples' filter_taps : mem)
    (dm_rate samples_per_antenna gridDim_x gridDim_y blockDim_x blockDim_y
     blockIdx_x blockIdx_y : Z) :
  0 <= samples_per_antenna < 2 ^ 32 ->
  u32 (blockIdx_y * samples_per_antenna) + samples_per_antenna <= 2 ^ 32 ->
  (forall i,
     u32 (blockIdx_y * samples_per_antenna) <= i
       < u32 (blockIdx_y * samples_per_antenna) + samples_per_antenna ->
     original_samples i = original_samples' i) ->
  decimate1024_block garbage original_samples filter_taps dm_rate
    samples_per_antenna gridDim_x gridDim_y blockDim_x blockDim_y
    (blockIdx_x, blockIdx_y)
  = decimate1024_block garbage original_samples' filter_taps dm_rate
      samples_per_antenna gridDim_x gridDim_y blockDim_x blockDim_y
      (blockIdx_x, blockIdx_y) /\
  decimate2048_block garbage original_samples filter_taps dm_rate
    samples_per_antenna gridDim_x gridDim_y blockDim_x blockDim_y
    (blockIdx_x, blockIdx_y)
  = decimate2048_block garbage original_samples' filter_taps dm_rate
      samples_per_antenna gridDim_x gridDim_y blockDim_x blockDim_y
      (blockIdx_x, blockIdx_y).
Proof.
  intros Hspa Hrow Hagree.
  pose proof (u32_range (blockIdx_y * samples_per_antenna)) as Hr.
  assert (Hcell : forall local, 0 <= local < samples_per_antenna ->
            original_samples
              (u32 (u32 (blockIdx_y * samples_per_antenna) + local))
            = original_samples'
                (u32 (u32 (blockIdx_y * samples_per_antenna) + local))).
  { intros local Hl. rewrite u32_small by lia. apply Hagree. lia. }
  assert (H1 : forall tx,
            fetch original_samples
              (load1024 dm_rate samples_per_antenna blockIdx_x blockIdx_y tx)
            = fetch original_samples'
                (load1024 dm_rate samples_per_antenna blockIdx_x blockIdx_y tx)).
  { intros tx. apply fetch_agree. intros off E.
    pose proof (u32_range (u32 (blockIdx_x * dm_rate) + tx)) as Hl.
    destruct (load1024_cases dm_rate samples_per_antenna blockIdx_x
                blockIdx_y tx) as [[_ E1] | [Hlt E1]];
      rewrite E1 in E; [discriminate |].
    apply LoadAt_inj in E. subst off. apply Hcell. lia. }
  assert (H2 : forall tx,
            let ld := load2048 dm_rate samples_per_antenna blockIdx_x
                        blockIdx_y tx in
            fetch original_samples (fst ld) = fetch original_samples' (fst ld)
            /\ fetch original_samples (snd ld)
               = fetch original_samples' (snd ld)).
  { intros tx ld. subst ld.
    pose proof (u32_range (u32 (blockIdx_x * dm_rate) + u32 (2 * tx))) as Hl.
    destruct (load2048_cases dm_rate samples_per_antenna blockIdx_x
                blockIdx_y tx Hspa) as [[_ E2] | [[Hlt E2] | [Hlt E2]]];
      rewrite E2; cbn [fst snd fetch]; split;
      try reflexivity; apply Hcell; lia. }
  split.
  - unfold decimate1024_block. cbn [fst snd].
    match goal with
    | |- context [commit ?p _] =>
        match goal with
        | |- _ = output_writes _ _ _ _ _ _ _ _
                   (parallel_reduce _ _ _ _ (commit ?p' _)) =>
            assert (E : p = p')
        end
    end.
    { apply map_ext. intros [tx ty]. cbn [fst snd]. rewrite H1. reflexivity. }
    rewrite E. reflexivity.
  - unfold decimate2048_block.
    assert (E : products2048 garbage original_samples filter_taps dm_rate
                  samples_per_antenna blockDim_x blockDim_y
                  (blockIdx_x, blockIdx_y)
                = products2048 garbage original_samples' filter_taps dm_rate
                    samples_per_antenna blockDim_x blockDim_y
                    (blockIdx_x, blockIdx_y)).
    { unfold products2048. cbv zeta. cbn [fst snd].
      apply flat_map_ext_in. intros [tx ty] _. cbn [fst snd].
      destruct (H2 tx) as [Ea Eb]. rewrite Ea, Eb. reflexivity. }
    rewrite E. reflexivity.
Qed.

Lemma blocks_read_their_antenna_row_witness :
  decimate1024_block (c 77 77) ramp taps_1024x2 16 64 4 2 32 2 (1, 1)
  = decimate1024_block (c 77 77) ramp_row_1 taps_1024x2 16 64 4 2 32 2 (1, 1)
  /\
  decimate2048_block (c 77 77) ramp taps_1024x2 16 64 4 2 32 2 (1, 1)
  = decimate2048_block (c 77 77) ramp_row_1 taps_1024x2 16 64 4 2 32 2 (1, 1).
Proof.
  apply blocks_read_their_antenna_row;
    [lia | change (u32 (1 * 64)) with 64; lia |].
  intros i Hi. change (u32 (1 * 64)) with 64 in Hi. unfold ramp, ramp_row_1.
  destruct (Z.leb_spec 64 i); [| lia].
  destruct (Z.ltb_spec i 128); [reflexivity | lia].
Defined.

(** *** [parallel_reduce] on rows of at most a warp *)

Section WarpSums.
Context {F : Type} `{ExactArith F}.
Variable garbage : cuComplex F.
Variables X Y : Z.
Hypothesis HX : 1 <= X <= 32.
Hypothesis Hfit : X * Y <= 2 ^ 32.
Variable target : Z -> cuComplex F.

Lemma thread_of_linear (n : Z) :
  0 <= n < X * Y ->
  0 <= fst (thread_of X n) < X /\ 0 <= snd (thread_of X n) < Y /\
  snd (thread_of X n) * X + fst (thread_of X n) = n.
Proof.
  intros Hn. unfold thread_of. cbn [fst snd].
  pose proof (Z.mod_pos_bound n X ltac:(lia)) as Hm.
  pose proof (Z.div_mod n X ltac:(lia)) as Hd.
  assert (Hq : 0 <= n / X) by (apply Z.div_pos; lia).
  assert (Hq' : n / X < Y) by (apply Z.div_lt_upper_bound; lia).
  repeat split; lia.
Qed.

Lemma tap_offset1024_thread_of (n : Z) :
  0 <= n < X * Y -> tap_offset1024 X (thread_of X n) = n.
Proof.
  intros Hn. destruct (thread_of_linear n Hn) as (Hx & Hy & Hlin).
  unfold tap_offset1024.
  assert (0 <= snd (thread_of X n) * X) by nia.
  rewrite (u32_small (snd (thread_of X n) * X)) by lia.
  rewrite u32_small by lia. exact Hlin.
Qed.

Lemma nth_thread_of (g : Z * Z -> cuComplex F) (n : Z) :
  0 <= n < X * Y ->
  nth (Z.to_nat n) (map g (threads X Y)) garbage = g (thread_of X n).
Proof.
  intros Hn. destruct (thread_of_linear n Hn) as (Hx & Hy & Hlin).
  rewrite <- Hlin at 1. rewrite nth_threads by assumption.
  destruct (thread_of X n). reflexivity.
Qed.

Lemma tree_step_idle (off : Z * Z -> Z) (limit stride : Z) (data : mem)
    (g : Z * Z -> cuComplex F) :
  X < limit ->
  tree_step X Y off limit stride (data, map g (threads X Y))
  = (data, map g (threads X Y)).
Proof.
  intros Hlt. unfold tree_step. cbn [fst snd].
  rewrite combine_map_self, !map_map, flat_map_map.
  assert (Hc : forall tx, (X >=? limit) && (tx <? stride) = false).
  { intros tx. apply andb_false_intro1. rewrite Z.geb_leb. apply Z.leb_gt. lia. }
  rewrite flat_map_nil
    by (intros [tx ty] _; cbn [fst snd]; rewrite Hc; reflexivity).
  f_equal. apply map_ext. intros [tx ty]. cbn [fst snd]. rewrite Hc.
  reflexivity.
Qed.

Lemma fetch_second_warp_idle (off : Z * Z -> Z) (data : mem)
    (g : Z * Z -> cuComplex F) :
  fetch_second_warp X Y off (data, map g (threads X Y))
  = map g (threads X Y).
Proof.
  unfold fetch_second_warp. cbn [fst snd].
  rewrite combine_map_self, !map_map.
  apply map_ext. intros [tx ty]. cbn [fst snd].
  replace (X >=? 64) with false
    by (symmetry; rewrite Z.geb_leb; apply Z.leb_gt; lia).
  rewrite andb_false_r. reflexivity.
Qed.

Lemma warp_sums_init (data : mem) :
  warp_sums X Y 32 (warp_sum data)
    (map (fun t => data (tap_offset1024 X t)) (threads X Y)).
Proof.
  exists data, (fun t => data (tap_offset1024 X t)).
  split; [reflexivity |]. split.
  - intros q l Hq Hw Hl. cbv beta.
    rewrite tap_offset1024_thread_of by lia. reflexivity.
  - intros q Hq Hw. unfold warp_sum. reflexivity.
Qed.

Lemma shuffle_step_warp (offset : Z) (sums : list (cuComplex F)) :
  0 < offset -> offset + offset <= 32 ->
  warp_sums X Y (offset + offset) target sums ->
  warp_sums X Y offset target (shuffle_step garbage X Y offset sums).
Proof.
  intros Ho Hle (f & g & Hsums & Hg & Hsum). subst sums.
  unfold shuffle_step. rewrite combine_map_self, !map_map.
  eexists (fun n => cuCaddf (f n) (f (n + offset))), _.
  split; [reflexivity |]. split.
  - intros q l Hq Hw Hl. cbv beta.
    destruct (thread_of_linear (32 * q + l)) as (Hx & Hy & Hlin); [lia |].
    cbn [fst snd].
    replace (fst (thread_of X (32 * q + l)) <? 32) with true
      by (symmetry; apply Z.ltb_lt; lia).
    unfold shfl_down, shfl_down_float, linear_id, warpSize.
    rewrite Hlin.
    assert (Hlane : (32 * q + l) mod 32 = l).
    { rewrite Z.add_comm, Z.mul_comm, Z_mod_plus_full.
      apply Z.mod_small. lia. }
    rewrite Hlane, (Z.mod_small l 32) by lia.
    replace (l + offset <? 32) with true by (symmetry; apply Z.ltb_lt; lia).
    assert (Hin : in_final_warp X Y (32 * q + l + offset) = true).
    { unfold in_final_warp.
      pose proof (Z.mod_pos_bound (32 * q + l + offset) X ltac:(lia)).
      repeat (apply andb_true_intro; split);
        [apply Z.leb_le | apply Z.ltb_lt | apply Z.ltb_lt]; lia. }
    rewrite Hin, nth_thread_of by lia.
    rewrite cuComplex_eta.
    replace (32 * q + l + offset) with (32 * q + (l + offset)) by lia.
    rewrite !Hg by lia. reflexivity.
  - intros q Hq Hw. rewrite <- (Hsum q Hq Hw).
    rewrite <- (csum_halve (fun l => f (32 * q + l)) offset) by lia.
    apply csum_ext. intros l Hl. cbv beta.
    replace (32 * q + l + offset) with (32 * q + (l + offset)) by lia.
    reflexivity.
Qed.

Lemma warp_sums_result (sums : list (cuComplex F)) (q : Z) :
  warp_sums X Y 1 target sums -> 0 <= q -> 32 * q + 32 <= X * Y ->
  nth (Z.to_nat (32 * q)) sums garbage = target q.
Proof.
  intros (f & g & Hsums & Hg & Hsum) Hq Hw. subst sums.
  rewrite nth_thread_of by lia.
  rewrite <- (Z.add_0_r (32 * q)) at 1. rewrite Hg by lia.
  rewrite <- (Hsum q Hq Hw), csum_1. reflexivity.
Qed.
End WarpSums.

(** X6.  Rows of at most 32 threads, under exact arithmetic: the shuffle
    loop of [parallel_reduce] adds up whole warps, not rows.  In every
    warp whose 32 lanes all belong to the block, the first thread returns
    the sum of the warp's 32 cells of [data], which are [32 / blockDim.x]
    rows when [blockDim.x] divides 32. *)
Theorem parallel_reduce_sums_warps {F : Type} `{ExactArith F}
    (garbage : cuComplex F) (data : mem) (X Y q : Z) :
  1 <= X <= 32 -> X * Y <= 2 ^ 32 -> 0 <= q -> 32 * q + 32 <= X * Y ->
  nth (Z.to_nat (32 * q))
      (parallel_reduce garbage X Y (tap_offset1024 X) data) garbage
  = warp_sum data q.
Proof.
  intros HX Hfit Hq Hw.
  apply warp_sums_result with (X := X) (Y := Y); [exact HX | | exact Hq | exact Hw].
  unfold parallel_reduce. cbv zeta.
  rewrite !tree_step_idle by lia.
  rewrite fetch_second_warp_idle by lia.
  rewrite shuffle_loop_unroll.
  apply shuffle_step_warp with (offset := 1); [exact HX | lia | lia |].
  apply shuffle_step_warp with (offset := 2); [exact HX | lia | lia |].
  apply shuffle_step_warp with (offset := 4); [exact HX | lia | lia |].
  apply shuffle_step_warp with (offset := 8); [exact HX | lia | lia |].
  apply shuffle_step_warp with (offset := 16); [exact HX | lia | lia |].
  apply warp_sums_init; assumption.
Qed.

Lemma parallel_reduce_sums_warps_witness :
  nth (Z.to_nat (32 * 0))
      (parallel_reduce (c 77 77) 16 2 (tap_offset1024 16) rows_16x2) (c 77 77)
  = warp_sum rows_16x2 0.
Proof.
  apply parallel_reduce_sums_warps; [lia | lia | lia | lia].
Defined.

(** A term whose sample index leaves the antenna's row is zero. *)
Lemma spec_term_out_of_range {F : Type} `{ExactArith F}
    (original_samples filter_taps : mem (F:=F))
    (dm_rate samples_per_antenna num_taps f a k t : Z) :
  samples_per_antenna <= k * dm_rate + t ->
  spec_term original_samples filter_taps dm_rate samples_per_antenna
    num_taps f a k t = czero.
Proof.
  intros Hout. unfold spec_term.
  destruct (Z.ltb_spec (k * dm_rate + t) samples_per_antenna); [lia |].
  apply cuCmulf_0_l.
Qed.

(** ** The host computations *)

Lemma bind_Ok {A B : Type} (m : M A) (f : A -> M B) (w w' : world) (b : B) :
  bind m f w = Ok b w' ->
  exists a w1, m w = Ok a w1 /\ f a w1 = Ok b w'.
Proof.
  unfold bind. destruct (m w) as [a w1 | e w1]; [| discriminate].
  intros Hf. exists a, w1. split; [reflexivity | exact Hf].
Qed.

Lemma gpuErrchk_Ok (code : cudaError_t) (w w' : world) :
  gpuErrchk code w = Ok tt w' -> code = cudaSuccess /\ w' = w.
Proof.
  destruct code; cbn; intros E; try discriminate.
  injection E as <-. split; reflexivity.
Qed.

Lemma check_Ok (call : M cudaError_t) (w w' : world) :
  check call w = Ok tt w' -> call w = Ok cudaSuccess w'.
Proof.
  unfold check. intros E. apply bind_Ok in E as (code & w1 & Hc & Hg).
  apply gpuErrchk_Ok in Hg as [-> ->]. exact Hc.
Qed.

Lemma check_into_Ok (m : member) (call : Z -> M (cudaError_t * Z))
    (dp dp' : DSPCore) (w w' : world) :
  check_into m call dp w = Ok dp' w' ->
  exists v, call (dp m) w = Ok (cudaSuccess, v) w' /\ dp' = set m v dp.
Proof.
  unfold check_into. intros E.
  apply bind_Ok in E as ([code v] & w1 & Hc & E).
  apply bind_Ok in E as ([] & w2 & Hg & E).
  apply gpuErrchk_Ok in Hg as [Hcode ->]. cbn in Hcode. subst code.
  cbn in E. injection E as <- <-. exists v. split; [exact Hc | reflexivity].
Qed.

Lemma set_same (m : member) (v : Z) (dp : DSPCore) : set m v dp m = v.
Proof. unfold set. destruct (member_eq_dec m m); congruence. Qed.

Lemma set_other (m m' : member) (v : Z) (dp : DSPCore) :
  m' <> m -> set m v dp m' = dp m'.
Proof. unfold set. destruct (member_eq_dec m' m); congruence. Qed.

(** *** What each computation adds to the trace *)

Section Emits.
Variable P : action -> bool.

Lemma emits_ret {A : Type} (a : A) : Emits P (ret a).
Proof. intros w. exists []. cbn. rewrite app_nil_r. split; reflexivity. Qed.

Lemma emits_raise {A : Type} (e : failure) : Emits P (@raise A e).
Proof. intros w. exists []. cbn. rewrite app_nil_r. split; reflexivity. Qed.

Lemma emits_bind {A B : Type} (m : M A) (f : A -> M B) :
  Emits P m -> (forall a, Emits P (f a)) -> Emits P (bind m f).
Proof.
  intros Hm Hf w. unfold bind. destruct (Hm w) as (l1 & E1 & P1).
  destruct (m w) as [a w1 | e w1]; cbn in E1.
  - destruct (Hf a w1) as (l2 & E2 & P2). exists (l1 ++ l2). split.
    + rewrite E2, E1, app_assoc. reflexivity.
    + rewrite forallb_app, P1, P2. reflexivity.
  - exists l1. split; [exact E1 | exact P1].
Qed.

Lemma emits_gpuErrchk (code : cudaError_t) : Emits P (gpuErrchk code).
Proof. destruct code; cbn; auto using emits_ret, emits_raise. Qed.

Lemma emits_check (call : M cudaError_t) :
  Emits P call -> Emits P (check call).
Proof.
  intros Hc. unfold check. apply emits_bind; [exact Hc |].
  intros code. apply emits_gpuErrchk.
Qed.

Lemma emits_check_into (m : member) (call : Z -> M (cudaError_t * Z))
    (dp : DSPCore) :
  (forall old, Emits P (call old)) -> Emits P (check_into m call dp).
Proof.
  intros Hc. unfold check_into. apply emits_bind; [apply Hc |].
  intros r. apply emits_bind; [apply emits_gpuErrchk |].
  intros _. apply emits_ret.
Qed.

(** A step that leaves the trace alone. *)
Lemma emits_silent {A : Type} (m : M A) :
  (forall w, trace (final_world (m w)) = trace w) -> Emits P m.
Proof.
  intros Hm w. exists []. rewrite app_nil_r. split; [apply Hm | reflexivity].
Qed.

(** A step that adds at most the action [a]. *)
Lemma emits_one {A : Type} (m : M A) (a : action) :
  P a = true ->
  (forall w, trace (final_world (m w)) = trace w \/
             trace (final_world (m w)) = trace w ++ [a]) ->
  Emits P m.
Proof.
  intros Ha Hm w. destruct (Hm w) as [E | E].
  - exists []. rewrite app_nil_r. split; [exact E | reflexivity].
  - exists [a]. split; [exact E |]. cbn. rewrite Ha. reflexivity.
Qed.

Lemma emits_create (k : kind) : Emits P (create k).
Proof. apply emits_silent. reflexivity. Qed.

Lemma emits_destroy (k : kind) (h : Z) : Emits P (destroy k h).
Proof.
  apply emits_silent. intros w. unfold destroy.
  destruct (is_live k h w); reflexivity.
Qed.

Lemma emits_free (k : kind) (p : Z) : Emits P (free k p).
Proof.
  apply emits_silent. intros w. unfold free.
  destruct (p =? 0); [reflexivity |]. destruct (is_live k p w); reflexivity.
Qed.

Lemma emits_cudaStreamCreate : Emits P cudaStreamCreate.
Proof. apply emits_create. Qed.

Lemma emits_cudaEventCreate : Emits P cudaEventCreate.
Proof. apply emits_create. Qed.

Lemma emits_cudaEventDestroy (event : Z) : Emits P (cudaEventDestroy event).
Proof. apply emits_destroy. Qed.

Lemma emits_cudaStreamDestroy (stream_ : Z) :
  Emits P (cudaStreamDestroy stream_).
Proof. apply emits_destroy. Qed.

Lemma emits_cudaFree (p : Z) : Emits P (cudaFree p).
Proof. apply emits_free. Qed.

Lemma emits_cudaFreeHost (p : Z) : Emits P (cudaFreeHost p).
Proof. apply emits_free. Qed.

Lemma emits_cudaMalloc (old size : Z) : Emits P (cudaMalloc old size).
Proof.
  apply emits_silent. intros w. unfold cudaMalloc.
  destruct (size <=? device_free w); reflexivity.
Qed.

Lemma emits_cudaHostAlloc (old size : Z) : Emits P (cudaHostAlloc old size).
Proof. apply emits_silent. reflexivity. Qed.

Lemma emits_cudaEventSynchronize (event : Z) :
  Emits P (cudaEventSynchronize event).
Proof.
  apply emits_silent. intros w. unfold cudaEventSynchronize.
  destruct (is_live Event event w); reflexivity.
Qed.

Lemma emits_cudaEventElapsedTime (old start end_ : Z) :
  Emits P (cudaEventElapsedTime old start end_).
Proof.
  apply emits_silent. intros w. unfold cudaEventElapsedTime.
  destruct (is_live Event start w && is_live Event end_ w);
    destruct (record_time start w); destruct (record_time end_ w);
    reflexivity.
Qed.

Lemma emits_cudaPeekAtLastError : Emits P cudaPeekAtLastError.
Proof. apply emits_silent. reflexivity. Qed.

Lemma emits_get_gpu_properties : Emits P get_gpu_properties.
Proof. apply emits_silent. reflexivity. Qed.

Lemma emits_get_shrmem_addr (handler : Z) : Emits P (get_shrmem_addr handler).
Proof.
  apply emits_silent. intros w. unfold get_shrmem_addr.
  destruct (is_live Object handler w); reflexivity.
Qed.

Lemma emits_new_SharedMemoryHandler (name : string) :
  Emits P (new_SharedMemoryHandler name).
Proof. apply emits_silent. reflexivity. Qed.

Lemma emits_act (a : action) : P a = true -> Emits P (act a).
Proof. intros Ha. apply (emits_one _ a Ha). intros w. right. reflexivity. Qed.

Lemma emits_send (socket : Z) (msg : SigProcPacket) :
  P (SocketSend socket msg) = true -> Emits P (send socket msg).
Proof.
  intros Ha. apply (emits_one _ _ Ha). intros w. unfold send.
  destruct (existsb (Z.eqb socket) (broken_sockets w));
    [left | right]; reflexivity.
Qed.

Lemma emits_cudaEventRecord (event stream_ : Z) :
  P (EventRecord event stream_) = true ->
  Emits P (cudaEventRecord event stream_).
Proof.
  intros Ha. apply (emits_one _ _ Ha). intros w. unfold cudaEventRecord.
  destruct (is_live Event event w && is_live Stream stream_ w);
    [right | left]; reflexivity.
Qed.

Lemma emits_cudaMemcpyAsync (dst src count stream_ : Z) :
  P (MemcpyAsync dst src count stream_) = true ->
  Emits P (cudaMemcpyAsync dst src count stream_).
Proof.
  intros Ha. apply (emits_one _ _ Ha). intros w. unfold cudaMemcpyAsync.
  destruct (is_live Stream stream_ w); [right | left]; reflexivity.
Qed.

Lemma emits_launch (k : kernel) (dimGrid dimBlock : Z * Z)
    (shr_mem_taps : Z) (args : list Z) (stream_ : Z) :
  P (KernelLaunch k dimGrid dimBlock shr_mem_taps args stream_) = true ->
  Emits P (launch k dimGrid dimBlock shr_mem_taps args stream_).
Proof.
  intros Ha. apply (emits_one _ _ Ha). intros w. unfold launch.
  destruct (gpus w) as [| gpu0 rest]; [left; reflexivity |].
  match goal with |- context [if ?b then _ else _] => destruct b end;
    [right | left]; reflexivity.
Qed.

Lemma emits_open_shr_mem (handler : Z) :
  (forall name, P (ShrMemOpen name) = true) ->
  Emits P (open_shr_mem handler).
Proof.
  intros Ha w. unfold open_shr_mem.
  destruct (is_live Object handler w);
    [| exists []; cbn; rewrite app_nil_r; split; reflexivity].
  destruct (region_of handler w) as [name |];
    [| exists []; cbn; rewrite app_nil_r; split; reflexivity].
  destruct (existsb (String.eqb name) (shr_mem_regions w)).
  - exists [ShrMemOpen name]. cbn. rewrite Ha. split; reflexivity.
  - exists []. cbn. rewrite app_nil_r. split; reflexivity.
Qed.
End Emits.

Lemma emits_remove_shr_mem (handler : Z) :
  Emits anything (remove_shr_mem handler).
Proof.
  intros w. unfold remove_shr_mem.
  destruct (is_live Object handler w);
    [| exists []; cbn; rewrite app_nil_r; split; reflexivity].
  destruct (region_of handler w) as [name |];
    [| exists []; cbn; rewrite app_nil_r; split; reflexivity].
  exists [ShrMemRemove name]. cbn. split; reflexivity.
Qed.

Lemma emits_delete (object : Z) : Emits anything (delete object).
Proof.
  apply (emits_one _ _ (Delete object) eq_refl). intros w. unfold delete.
  destruct (is_live Object object w); [right | left]; reflexivity.
Qed.

Create HintDb emits.
#[export] Hint Resolve emits_ret emits_raise emits_bind emits_gpuErrchk
  emits_check emits_check_into emits_create emits_destroy emits_free
  emits_cudaMalloc emits_cudaHostAlloc emits_cudaEventSynchronize
  emits_cudaEventElapsedTime emits_cudaPeekAtLastError
  emits_get_gpu_properties emits_get_shrmem_addr
  emits_new_SharedMemoryHandler emits_act emits_send emits_cudaEventRecord
  emits_cudaMemcpyAsync emits_launch emits_open_shr_mem
  emits_remove_shr_mem emits_delete : emits.

#[export] Hint Resolve emits_cudaStreamCreate emits_cudaEventCreate
  emits_cudaEventDestroy emits_cudaStreamDestroy emits_cudaFree
  emits_cudaFreeHost : emits.

(** Unfold a method to its calls and account for each of them. *)
Ltac emits_steps :=
  cbv zeta;
  repeat (first
    [ apply emits_bind; [| intros ? ]
    | apply emits_check
    | apply emits_check_into; intros ?
    | match goal with
      | |- Emits _ (if ?b then _ else _) => destruct b
      | |- Emits _ (match ?l with [] => _ | _ :: _ => _ end) => destruct l
      end ]);
  auto with emits.

Lemma ret_Ok {A : Type} (a b : A) (w w' : world) :
  ret a w = Ok b w' -> b = a /\ w' = w.
Proof. unfold ret. intros E. injection E as <- <-. split; reflexivity. Qed.

(** Take a successful run apart, call by call. *)
Ltac invert_run :=
  repeat match goal with
  | u : unit |- _ => destruct u
  | H : bind _ _ _ = Ok _ _ |- _ =>
      apply bind_Ok in H; destruct H as (? & ? & ? & H)
  | H : check_into _ _ _ _ = Ok _ _ |- _ =>
      apply check_into_Ok in H; destruct H as (? & H & ->)
  | H : check _ _ = Ok tt _ |- _ => apply check_Ok in H
  | H : ret _ _ = Ok _ _ |- _ => apply ret_Ok in H; destruct H as [-> ->]
  end.

(** The methods that reach the device but release nothing. *)
Section Methods.
Variable P : action -> bool.
Hypothesis HP : forall a, is_release a = false -> P a = true.

Local Hint Extern 1 (P _ = true) => (apply HP; reflexivity) : emits.
Local Hint Extern 1 (forall _, P _ = true) =>
  (intros; apply HP; reflexivity) : emits.

Lemma emits_DSPCore_ctor raw ack_s timing_s sq_num shr_mem_name :
  Emits P (DSPCore_ctor raw ack_s timing_s sq_num shr_mem_name).
Proof. unfold DSPCore_ctor. emits_steps. Qed.

Lemma emits_allocate_and_copy_rf_samples total_samples dp :
  Emits P (allocate_and_copy_rf_samples total_samples dp).
Proof. unfold allocate_and_copy_rf_samples. emits_steps. Qed.

Lemma emits_allocate_and_copy_filters fd fs taps total_taps dp :
  Emits P (allocate_and_copy_filters fd fs taps total_taps dp).
Proof. unfold allocate_and_copy_filters. emits_steps. Qed.

Lemma emits_allocate_output od os n dp :
  Emits P (allocate_output od os n dp).
Proof. unfold allocate_output. emits_steps. Qed.

Lemma emits_allocate_and_copy_host_output n dp :
  Emits P (allocate_and_copy_host_output n dp).
Proof. unfold allocate_and_copy_host_output. emits_steps. Qed.

Lemma emits_stop_timing dp : Emits P (stop_timing dp).
Proof. unfold stop_timing. emits_steps. Qed.

Lemma emits_send_timing dp : Emits P (send_timing dp).
Proof. unfold send_timing. emits_steps. Qed.

Lemma emits_initial_memcpy_callback status dp :
  Emits P (initial_memcpy_callback status dp).
Proof.
  unfold initial_memcpy_callback, initial_memcpy_callback_handler,
    send_ack, start_decimate_timing.
  emits_steps.
Qed.

Lemma emits_launch_wrapper k threads_x a1 a2 a3 a4 a5 a6 a7 a8 a9 :
  Emits P (launch_wrapper k threads_x a1 a2 a3 a4 a5 a6 a7 a8 a9).
Proof. unfold launch_wrapper. emits_steps. Qed.

Lemma emits_call_decimate a1 a2 a3 a4 a5 a6 a7 a8 msg dp :
  Emits P (call_decimate a1 a2 a3 a4 a5 a6 a7 a8 msg dp).
Proof.
  unfold call_decimate, decimate1024_wrapper, decimate2048_wrapper.
  apply emits_bind; [auto with emits |]. intros _.
  apply emits_bind; [auto with emits |]. intros [| gpu0 rest];
    [auto with emits |].
  apply emits_bind; [| intros _; auto with emits].
  repeat match goal with
         | |- Emits _ (if ?b then _ else _) => destruct b
         end; auto using emits_launch_wrapper with emits.
Qed.
End Methods.

Lemma accepts_anything (a : action) : is_release a = false -> anything a = true.
Proof. reflexivity. Qed.

Lemma accepts_no_release (a : action) :
  is_release a = false -> no_release a = true.
Proof. unfold no_release. intros ->. reflexivity. Qed.

Lemma emits_clear_device_and_destroy dp :
  Emits anything (clear_device_and_destroy dp).
Proof.
  unfold clear_device_and_destroy. emits_steps.
Qed.

Lemma emits_postprocess dp : Emits anything (postprocess dp).
Proof.
  unfold postprocess.
  apply emits_bind; [apply emits_stop_timing, accepts_anything |]. intros dp'.
  apply emits_bind; [apply emits_send_timing, accepts_anything |]. intros _.
  apply emits_bind; [auto with emits |]. intros _.
  apply emits_bind; [auto with emits |]. intros _.
  apply emits_bind; [apply emits_clear_device_and_destroy |]. intros _.
  apply emits_delete.
Qed.

(** *** Order of the acknowledgement, the timing start and the release *)

Lemma comes_first_no_guarded (key : action) (guarded : action -> bool)
    (l : list action) :
  forallb (fun a => negb (guarded a)) l = true -> comes_first key guarded l.
Proof.
  intros Hl before a after -> Ha. rewrite forallb_app in Hl.
  apply andb_prop in Hl as [_ Hl]. cbn in Hl. rewrite Ha in Hl. discriminate.
Qed.

Lemma comes_first_app_later (key : action) (guarded : action -> bool)
    (l1 l2 : list action) :
  forallb (fun a => negb (guarded a)) l1 = true ->
  comes_first key guarded l2 -> comes_first key guarded (l1 ++ l2).
Proof.
  intros H1 H2 before a after E Ha.
  apply app_eq_app in E as [l [[-> E] | [-> E]]].
  - destruct l as [| x l].
    + cbn in E. exfalso. apply (H2 [] a after); [| exact Ha].
      symmetry. exact E.
    + cbn in E. injection E as <- ->. rewrite forallb_app in H1.
      apply andb_prop in H1 as [_ H1]. cbn in H1. rewrite Ha in H1.
      discriminate.
  - apply in_or_app. right. eapply H2; [exact E | exact Ha].
Qed.

Lemma comes_first_app_seen (key : action) (guarded : action -> bool)
    (l1 l2 : list action) :
  forallb (fun a => negb (guarded a)) l1 = true ->
  In key l1 -> comes_first key guarded (l1 ++ l2).
Proof.
  intros H1 Hk before a after E Ha.
  apply app_eq_app in E as [l [[-> E] | [-> E]]].
  - destruct l as [| x l].
    + rewrite app_nil_r in Hk. exact Hk.
    + cbn in E. injection E as <- ->. rewrite forallb_app in H1.
      apply andb_prop in H1 as [_ H1]. cbn in H1. rewrite Ha in H1.
      discriminate.
  - apply in_or_app. left. exact Hk.
Qed.

Lemma releases_after_quiet_step {A B : Type} (key : action) (Q : A -> Prop)
    (m : M A) (f : A -> M B) :
  Emits no_release m ->
  (forall w a w', m w = Ok a w' -> Q a) ->
  (forall a, Q a -> ReleasesAfter key (f a)) ->
  ReleasesAfter key (bind m f).
Proof.
  intros Hm HQ Hf w. unfold bind. destruct (Hm w) as (l1 & E1 & P1).
  destruct (m w) as [a w1 | e w1] eqn:Em; cbn in E1.
  - destruct (Hf a (HQ w a w1 Em) w1) as (l2 & E2 & C2).
    exists (l1 ++ l2). split.
    + rewrite E2, E1, app_assoc. reflexivity.
    + apply comes_first_app_later; [exact P1 | exact C2].
  - exists l1. split; [exact E1 |].
    apply comes_first_no_guarded. exact P1.
Qed.

Lemma releases_after_key_step {A B : Type} (key : action)
    (m : M A) (f : A -> M B) :
  (forall w, exists added,
     trace (final_world (m w)) = trace w ++ added /\
     forallb no_release added = true /\
     (forall a w', m w = Ok a w' -> In key added)) ->
  (forall a, Emits anything (f a)) ->
  ReleasesAfter key (bind m f).
Proof.
  intros Hm Hf w. unfold bind. destruct (Hm w) as (l1 & E1 & P1 & K1).
  destruct (m w) as [a w1 | e w1] eqn:Em; cbn in E1.
  - destruct (Hf a w1) as (l2 & E2 & _). exists (l1 ++ l2). split.
    + rewrite E2, E1, app_assoc. reflexivity.
    + apply comes_first_app_seen; [exact P1 | exact (K1 a w1 eq_refl)].
  - exists l1. split; [exact E1 |].
    apply comes_first_no_guarded. exact P1.
Qed.

(** The copy-complete callback releases nothing, and when it returns the
    acknowledgement is among what it did. *)
Lemma initial_memcpy_callback_acks (status : cudaError_t) (dp : DSPCore)
    (w : world) :
  exists added,
    trace (final_world (initial_memcpy_callback status dp w))
      = trace w ++ added /\
    forallb no_release added = true /\
    (forall a w', initial_memcpy_callback status dp w = Ok a w' ->
       In (SocketSend (dp ack_socket) (ack_packet dp)) added).
Proof.
  unfold initial_memcpy_callback, initial_memcpy_callback_handler, send_ack,
    start_decimate_timing, check, bind, send, act, cudaEventRecord.
  destruct status; cbn;
    try (exists []; rewrite app_nil_r; repeat split; intros; discriminate).
  destruct (existsb (Z.eqb (dp ack_socket)) (broken_sockets w)); cbn.
  - exists []. rewrite app_nil_r. repeat split. intros; discriminate.
  - match goal with
    | |- context [if ?b then _ else _] => destruct b
    end;
      cbn; rewrite <- !app_assoc; eexists; (split; [reflexivity |]);
      (split; [reflexivity |]); intros; try discriminate.
    left. reflexivity.
Qed.

Lemma DSPCore_ctor_members raw ack_s timing_s sq_num shr_mem_name w dp w' :
  DSPCore_ctor raw ack_s timing_s sq_num shr_mem_name w = Ok dp w' ->
  dp sequence_num = sq_num /\ dp ack_socket = ack_s /\
  dp timing_socket = timing_s /\ dp this_ = raw this_.
Proof.
  unfold DSPCore_ctor. cbv zeta. intros E. invert_run.
  repeat split; reflexivity.
Qed.

Lemma allocate_and_copy_rf_samples_members total_samples dp w dp' w' :
  allocate_and_copy_rf_samples total_samples dp w = Ok dp' w' ->
  dp' sequence_num = dp sequence_num /\ dp' ack_socket = dp ack_socket.
Proof.
  unfold allocate_and_copy_rf_samples. cbv zeta. intros E. invert_run.
  repeat split; reflexivity.
Qed.

Lemma emits_cuda_postprocessing_callback status dp :
  Emits anything (cuda_postprocessing_callback status dp).
Proof.
  unfold cuda_postprocessing_callback.
  apply emits_bind; [apply emits_gpuErrchk |]. intros _.
  apply emits_postprocess.
Qed.

(** C8.  Whatever the copy-complete handler adds to the trace, a record
    of [kernel_start] in it comes after the acknowledgement of the
    sequence; when the handler returns it has sent the acknowledgement and
    then recorded [kernel_start], in this order. *)
Theorem ack_before_kernel_start :
  forall (dp : DSPCore) (w : world),
    exists added,
      trace (final_world (initial_memcpy_callback_handler dp w))
        = trace w ++ added /\
      comes_first (SocketSend (dp ack_socket) (ack_packet dp))
                  (is_kernel_start_record dp) added /\
      (forall w', initial_memcpy_callback_handler dp w = Ok tt w' ->
         added = [SocketSend (dp ack_socket) (ack_packet dp);
                  Cout "Sent ack after copy" [];
                  EventRecord (dp kernel_start) (dp stream)]).
Proof.
  intros dp w.
  unfold initial_memcpy_callback_handler, send_ack, start_decimate_timing,
    check, bind, send, act, cudaEventRecord.
  destruct (existsb (Z.eqb (dp ack_socket)) (broken_sockets w)); cbn.
  - exists []. rewrite app_nil_r. repeat split; [| intros; discriminate].
    intros [| x before] a after E; discriminate.
  - match goal with
    | |- context [if ?b then _ else _] => destruct b
    end;
      cbn; rewrite <- !app_assoc; eexists; (split; [reflexivity |]);
      (split; [| intros; try discriminate; reflexivity]).
    + apply (comes_first_app_seen _ _ [_; _] [_]); [reflexivity |].
      left. reflexivity.
    + apply comes_first_no_guarded. reflexivity.
Qed.

(** *** Where the slot is released *)

Lemma stop_timing_members (dp dp' : DSPCore) (w w' : world) :
  stop_timing dp w = Ok dp' w' ->
  dp' timing_socket = dp timing_socket /\ dp' sequence_num = dp sequence_num.
Proof.
  unfold stop_timing. intros E. invert_run.
  split; rewrite !set_other by discriminate; reflexivity.
Qed.

(** [send_timing] releases nothing, and when it returns the timing
    message is among what it did. *)
Lemma send_timing_sends (dp : DSPCore) (w : world) :
  exists added,
    trace (final_world (send_timing dp w)) = trace w ++ added /\
    forallb no_release added = true /\
    (forall a w', send_timing dp w = Ok a w' ->
       In (SocketSend (dp timing_socket) (timing_packet dp)) added).
Proof.
  unfold send_timing, bind, send, act.
  destruct (existsb (Z.eqb (dp timing_socket)) (broken_sockets w)); cbn.
  - exists []. rewrite app_nil_r. repeat split. intros; discriminate.
  - rewrite <- !app_assoc. eexists. split; [reflexivity |].
    split; [reflexivity |]. intros _ _ _. left. reflexivity.
Qed.

Lemma postprocess_releases_after_timing (dp : DSPCore) (w : world) :
  exists added t,
    trace (final_world (postprocess dp w)) = trace w ++ added /\
    comes_first
      (SocketSend (dp timing_socket)
         {| kerneltime := Some t;
            packet_sequence_num := Some (dp sequence_num) |})
      is_release added.
Proof.
  unfold postprocess. unfold bind at 1.
  destruct (emits_stop_timing no_release accepts_no_release dp w)
    as (l1 & E1 & P1).
  destruct (stop_timing dp w) as [dp' w1 | f w1] eqn:Es; cbn in E1.
  - apply stop_timing_members in Es as [Ht Hs].
    assert (R : ReleasesAfter
                  (SocketSend (dp' timing_socket) (timing_packet dp'))
                  (send_timing dp' ;;
                   act (Cout "Cuda kernel timing: ms"
                          [get_decimate_timing dp']) ;;
                   act (Cout "Complete process timing: ms"
                          [get_total_timing dp']) ;;
                   clear_device_and_destroy dp' ;;
                   delete (dp' this_))).
    { apply releases_after_key_step; [apply send_timing_sends |].
      intros _. unfold clear_device_and_destroy. emits_steps. }
    destruct (R w1) as (l2 & E2 & C2).
    exists (l1 ++ l2), (dp' decimate_kernel_timing_ms). split.
    + rewrite E2, E1, app_assoc. reflexivity.
    + apply comes_first_app_later; [exact P1 |].
      unfold timing_packet in C2. rewrite Ht, Hs in C2. exact C2.
  - exists l1, 0. split; [exact E1 |].
    apply comes_first_no_guarded. exact P1.
Qed.

(** X17.  The slot is released in [postprocess] only, and there after
    the timing report.  The constructor, the allocating methods,
    [call_decimate] and the copy-complete callback add no removal of a
    shared-memory region and no deletion to the trace, however they end;
    in what the finalisation callback adds, every such release comes
    after a timing message on the instance's timing socket that carries
    its sequence number. *)
Theorem release_only_after_timing_report :
  (forall raw ack_s timing_s sq_num shr_mem_name,
     Emits no_release (DSPCore_ctor raw ack_s timing_s sq_num shr_mem_name)) /\
  (forall n dp, Emits no_release (allocate_and_copy_rf_samples n dp)) /\
  (forall fd fs taps n dp,
     Emits no_release (allocate_and_copy_filters fd fs taps n dp)) /\
  (forall od os n dp, Emits no_release (allocate_output od os n dp)) /\
  (forall n dp, Emits no_release (allocate_and_copy_host_output n dp)) /\
  (forall a1 a2 a3 a4 a5 a6 a7 a8 msg dp,
     Emits no_release (call_decimate a1 a2 a3 a4 a5 a6 a7 a8 msg dp)) /\
  (forall status dp, Emits no_release (initial_memcpy_callback status dp)) /\
  (forall status dp w,
     exists added t,
       trace (final_world (cuda_postprocessing_callback status dp w))
         = trace w ++ added /\
       comes_first
         (SocketSend (dp timing_socket)
            {| kerneltime := Some t;
               packet_sequence_num := Some (dp sequence_num) |})
         is_release added).
Proof.
  repeat match goal with |- _ /\ _ => split end; intros.
  - apply emits_DSPCore_ctor; apply accepts_no_release.
  - apply emits_allocate_and_copy_rf_samples; apply accepts_no_release.
  - apply emits_allocate_and_copy_filters; apply accepts_no_release.
  - apply emits_allocate_output; apply accepts_no_release.
  - apply emits_allocate_and_copy_host_output; apply accepts_no_release.
  - apply emits_call_decimate; apply accepts_no_release.
  - apply emits_initial_memcpy_callback; apply accepts_no_release.
  - unfold cuda_postprocessing_callback, bind.
    destruct status; cbn;
      try (exists [], 0; rewrite app_nil_r; split; [reflexivity |];
           apply comes_first_no_guarded; reflexivity).
    apply postprocess_releases_after_timing.
Qed.

(** X18.  Composed in the order of the stream, the code releases the
    slot after the acknowledgement.  When the copy-complete callback has
    run on an instance, then any steps that release nothing, and then the
    finalisation callback on what they return, a removal of the region or
    a deletion in the trace comes after the acknowledgement that the
    copy-complete callback sent; a step that fails ends the run, since
    nothing in [dsp.cu] catches. *)
Theorem release_follows_ack_in_stream_order :
  forall (copy_status final_status : cudaError_t) (dp : DSPCore)
         (between : M DSPCore),
    Emits no_release between ->
    ReleasesAfter (SocketSend (dp ack_socket) (ack_packet dp))
      (initial_memcpy_callback copy_status dp ;;
       dp' <- between ;;
       cuda_postprocessing_callback final_status dp').
Proof.
  intros copy_status final_status dp between Hb.
  apply releases_after_key_step; [apply initial_memcpy_callback_acks |].
  intros _. apply emits_bind.
  - intros w. destruct (Hb w) as (added & E & Hq). exists added.
    split; [exact E |]. clear E. induction added as [| a l IH];
      [reflexivity |].
    cbn in Hq. apply andb_prop in Hq as [_ Hq]. cbn. exact (IH Hq).
  - intros dp'. apply emits_cuda_postprocessing_callback.
Qed.

Lemma release_follows_ack_in_stream_order_witness :
  ReleasesAfter
    (SocketSend (result blank example_started ack_socket)
       (ack_packet (result blank example_started)))
    (initial_memcpy_callback cudaSuccess (result blank example_started) ;;
     dp' <- allocate_and_copy_host_output 512 (result blank example_started) ;;
     cuda_postprocessing_callback cudaSuccess dp').
Proof.
  exact (release_follows_ack_in_stream_order cudaSuccess cudaSuccess
           (result blank example_started)
           (allocate_and_copy_host_output 512 (result blank example_started))
           (emits_allocate_and_copy_host_output no_release accepts_no_release
              512 (result blank example_started))).
Defined.

(** *** Live resources *)

Lemma fresh_above_live (k : kind) (h : Z) (w : world) :
  is_live k h w = true -> h < fresh w.
Proof.
  unfold is_live, fresh.
  induction (live w) as [| [k0 h0] l IH]; cbn [existsb map fold_right fst snd].
  - discriminate.
  - intros E. apply orb_prop in E as [E | E].
    + apply andb_prop in E as [_ E]. apply Z.eqb_eq in E. lia.
    + specialize (IH E). lia.
Qed.

Lemma drop_subset (k k' : kind) (h h' : Z) (l : list (kind * Z)) :
  existsb (fun r => kind_eqb (fst r) k && (snd r =? h)) (drop k' h' l) = true ->
  existsb (fun r => kind_eqb (fst r) k && (snd r =? h)) l = true.
Proof.
  unfold drop. induction l as [| r l IH]; cbn; [trivial |].
  destruct (negb (kind_eqb (fst r) k' && (snd r =? h'))); cbn.
  - intros E. apply orb_prop in E as [E | E].
    + rewrite E. reflexivity.
    + rewrite (IH E). apply orb_true_r.
  - intros E. rewrite (IH E). apply orb_true_r.
Qed.

Lemma drop_removes (k : kind) (h : Z) (l : list (kind * Z)) :
  existsb (fun r => kind_eqb (fst r) k && (snd r =? h)) (drop k h l) = false.
Proof.
  unfold drop. induction l as [| r l IH]; cbn; [reflexivity |].
  destruct (kind_eqb (fst r) k && (snd r =? h)) eqn:E; cbn.
  - exact IH.
  - rewrite E, IH. reflexivity.
Qed.

Lemma shrinks_bind {A B : Type} (m : M A) (f : A -> M B) :
  shrinks m -> (forall a, shrinks (f a)) -> shrinks (bind m f).
Proof.
  intros Hm Hf w b w' E k h Hl.
  apply bind_Ok in E as (a & w1 & Em & Ef).
  eapply Hm; [exact Em |]. eapply Hf; [exact Ef | exact Hl].
Qed.

Lemma shrinks_gpuErrchk (code : cudaError_t) : shrinks (gpuErrchk code).
Proof.
  intros w [] w' E k h Hl. apply gpuErrchk_Ok in E as [_ ->]. exact Hl.
Qed.

Lemma shrinks_check (call : M cudaError_t) : shrinks call -> shrinks (check call).
Proof.
  intros Hc. unfold check. apply shrinks_bind; [exact Hc |].
  intros code. apply shrinks_gpuErrchk.
Qed.

Lemma shrinks_free (k : kind) (p : Z) : shrinks (free k p).
Proof.
  intros w a w' E k0 h0. unfold free in E.
  destruct (p =? 0); [injection E as <- <-; trivial |].
  destruct (is_live k p w); injection E as <- <-; [| trivial].
  unfold is_live. cbn. apply drop_subset.
Qed.

Lemma shrinks_destroy (k : kind) (h : Z) : shrinks (destroy k h).
Proof.
  intros w a w' E k0 h0. unfold destroy in E.
  destruct (is_live k h w); injection E as <- <-; [| trivial].
  unfold is_live. cbn. apply drop_subset.
Qed.

Lemma shrinks_remove_shr_mem (handler : Z) : shrinks (remove_shr_mem handler).
Proof.
  intros w a w' E k0 h0. unfold remove_shr_mem in E.
  destruct (is_live Object handler w); [| discriminate].
  destruct (region_of handler w); [| discriminate].
  injection E as <- <-. trivial.
Qed.

Lemma shrinks_delete (object : Z) : shrinks (delete object).
Proof.
  intros w a w' E k0 h0. unfold delete in E.
  destruct (is_live Object object w); [| discriminate].
  injection E as <- <-. unfold is_live. cbn. apply drop_subset.
Qed.

Lemma destroy_Ok (k : kind) (h : Z) (w w' : world) :
  destroy k h w = Ok cudaSuccess w' -> is_live k h w' = false.
Proof.
  unfold destroy. destruct (is_live k h w); [| discriminate].
  intros E. injection E as <-. unfold is_live. cbn. apply drop_removes.
Qed.

Lemma destroy_dead_fails (k : kind) (h : Z) (w : world) :
  is_live k h w = false -> fails (check (destroy k h)) w.
Proof.
  intros Hd. unfold fails, check, bind, destroy. rewrite Hd. cbn.
  eexists. eexists. reflexivity.
Qed.

Lemma fails_bind {A B : Type} (m : M A) (f : A -> M B) (w : world) :
  fails m w -> fails (bind m f) w.
Proof.
  intros (e & w' & E). unfold fails, bind. rewrite E.
  eexists. eexists. reflexivity.
Qed.

(** If [m] leaves dead what is dead, and [k] fails whenever [h] is dead,
    then [m] followed by [k] fails whenever [h] is dead. *)
Lemma fails_after {A B : Type} (kd : kind) (h : Z) (m : M A) (k : A -> M B) :
  shrinks m ->
  (forall a w, is_live kd h w = false -> fails (k a) w) ->
  forall w, is_live kd h w = false -> fails (bind m k) w.
Proof.
  intros Hm Hk w Hd. unfold fails, bind.
  destruct (m w) as [a w1 | e w1] eqn:Em.
  - apply Hk. destruct (is_live kd h w1) eqn:Hl; [| reflexivity].
    rewrite (Hm w a w1 Em kd h Hl) in Hd. discriminate.
  - eexists. eexists. reflexivity.
Qed.

(** *** Allocation *)

Lemma cudaMalloc_Ok (old size v : Z) (w w' : world) :
  cudaMalloc old size w = Ok (cudaSuccess, v) w' ->
  v = fresh w /\ live w' = (DeviceMemory, v) :: live w.
Proof.
  unfold cudaMalloc. destruct (size <=? device_free w); [| discriminate].
  intros E. injection E as <- <-. split; reflexivity.
Qed.

Lemma cudaMemcpyAsync_Ok (dst src count stream_ : Z) (code : cudaError_t)
    (w w' : world) :
  cudaMemcpyAsync dst src count stream_ w = Ok code w' -> live w' = live w.
Proof.
  unfold cudaMemcpyAsync. destruct (is_live Stream stream_ w);
    intros E; injection E as <- <-; reflexivity.
Qed.

Lemma allocate_and_copy_filters_Ok fd fs taps total_taps dp w dp' w' :
  fd <> fs ->
  allocate_and_copy_filters fd fs taps total_taps dp w = Ok dp' w' ->
  is_live DeviceMemory (dp' fd) w' = true /\
  (forall k h, is_live k h w = true -> is_live k h w' = true) /\
  (forall m, m <> fd -> m <> fs -> dp' m = dp m).
Proof.
  intros Hne. unfold allocate_and_copy_filters. cbv zeta. intros E.
  invert_run.
  match goal with H : cudaMalloc _ _ _ = _ |- _ =>
    apply cudaMalloc_Ok in H as [-> Hl] end.
  match goal with H : cudaMemcpyAsync _ _ _ _ _ = _ |- _ =>
    apply cudaMemcpyAsync_Ok in H as Hl' end.
  rewrite set_same. unfold is_live. rewrite Hl', Hl. cbn.
  rewrite Z.eqb_refl. repeat split.
  - intros k h Hk. rewrite Hk. apply orb_true_r.
  - intros m H1 H2. rewrite !set_other by assumption. reflexivity.
Qed.

Lemma allocate_output_Ok od os n dp w dp' w' :
  od <> os ->
  allocate_output od os n dp w = Ok dp' w' ->
  dp' od = fresh w /\
  (forall k h, is_live k h w = true -> is_live k h w' = true) /\
  (forall m, m <> od -> m <> os -> dp' m = dp m).
Proof.
  intros Hne. unfold allocate_output. cbv zeta. intros E. invert_run.
  match goal with H : cudaMalloc _ _ _ = _ |- _ =>
    apply cudaMalloc_Ok in H as [-> Hl] end.
  rewrite set_same. repeat split.
  - intros k h Hk. unfold is_live in *. rewrite Hl. cbn. rewrite Hk.
    apply orb_true_r.
  - intros m H1 H2. rewrite !set_other by assumption. reflexivity.
Qed.

(** C4.  [get_second_stage_output_p] returns [second_stage_filters_d] and
    [get_third_stage_output_p] returns [third_stage_filters_d], as the two
    filter accessors do.  Once the filter banks and then the output
    buffers of stages 2 and 3 have been allocated, what the two output
    accessors return is the filter bank allocations, still live, and not
    the buffers that [allocate_second_stage_output] and
    [allocate_third_stage_output] have put in [second_stage_output_d] and
    [third_stage_output_d]. *)
Theorem output_accessors_return_filter_banks :
  forall taps2 total2 taps3 total3 n2 n3 dp w dp1 w1 dp2 w2 dp3 w3 dp4 w4,
    allocate_and_copy_second_stage_filter taps2 total2 dp w = Ok dp1 w1 ->
    allocate_and_copy_third_stage_filter taps3 total3 dp1 w1 = Ok dp2 w2 ->
    allocate_second_stage_output n2 dp2 w2 = Ok dp3 w3 ->
    allocate_third_stage_output n3 dp3 w3 = Ok dp4 w4 ->
    get_second_stage_output_p dp4 = get_second_stage_filter_p dp4 /\
    get_third_stage_output_p dp4 = get_third_stage_filter_p dp4 /\
    get_second_stage_output_p dp4 = dp1 second_stage_filters_d /\
    get_third_stage_output_p dp4 = dp2 third_stage_filters_d /\
    is_live DeviceMemory (get_second_stage_output_p dp4) w4 = true /\
    is_live DeviceMemory (get_third_stage_output_p dp4) w4 = true /\
    get_second_stage_output_p dp4 <> dp4 second_stage_output_d /\
    get_third_stage_output_p dp4 <> dp4 third_stage_output_d.
Proof.
  intros taps2 total2 taps3 total3 n2 n3 dp w dp1 w1 dp2 w2 dp3 w3 dp4 w4
    H1 H2 H3 H4.
  apply allocate_and_copy_filters_Ok in H1 as (L1 & K1 & M1); [| discriminate].
  apply allocate_and_copy_filters_Ok in H2 as (L2 & K2 & M2); [| discriminate].
  apply allocate_output_Ok in H3 as (F3 & K3 & M3); [| discriminate].
  apply allocate_output_Ok in H4 as (F4 & K4 & M4); [| discriminate].
  unfold get_second_stage_output_p, get_third_stage_output_p,
    get_second_stage_filter_p, get_third_stage_filter_p.
  assert (E2 : dp4 second_stage_filters_d = dp1 second_stage_filters_d).
  { rewrite M4, M3, M2 by discriminate. reflexivity. }
  assert (E3 : dp4 third_stage_filters_d = dp2 third_stage_filters_d).
  { rewrite M4, M3 by discriminate. reflexivity. }
  assert (O2 : dp4 second_stage_output_d = fresh w2).
  { rewrite M4 by discriminate. exact F3. }
  assert (A2 : is_live DeviceMemory (dp1 second_stage_filters_d) w2 = true)
    by (apply K2; exact L1).
  pose proof (fresh_above_live _ _ _ A2) as B2.
  pose proof (fresh_above_live _ _ _ (K3 _ _ L2)) as B3.
  rewrite E2, E3, O2, F4.
  repeat split; try reflexivity.
  - apply K4, K3. exact A2.
  - apply K4, K3. exact L2.
  - lia.
  - lia.
Qed.

Lemma output_accessors_return_filter_banks_witness :
  get_second_stage_output_p (result blank example_output_3)
    <> result blank example_output_3 second_stage_output_d /\
  get_third_stage_output_p (result blank example_output_3)
    <> result blank example_output_3 third_stage_output_d.
Proof.
  assert (H1 : allocate_and_copy_second_stage_filter 1002 64
                 (result blank example_started) (final_world example_started)
               = Ok (result blank example_filters_2)
                    (final_world example_filters_2)) by (vm_compute; reflexivity).
  assert (H2 : allocate_and_copy_third_stage_filter 1003 32
                 (result blank example_filters_2)
                 (final_world example_filters_2)
               = Ok (result blank example_filters_3)
                    (final_world example_filters_3)) by (vm_compute; reflexivity).
  assert (H3 : allocate_second_stage_output 2048
                 (result blank example_filters_3)
                 (final_world example_filters_3)
               = Ok (result blank example_output_2)
                    (final_world example_output_2)) by (vm_compute; reflexivity).
  assert (H4 : allocate_third_stage_output 512
                 (result blank example_output_2)
                 (final_world example_output_2)
               = Ok (result blank example_output_3)
                    (final_world example_output_3)) by (vm_compute; reflexivity).
  pose proof (output_accessors_return_filter_banks _ _ _ _ _ _ _ _ _ _ _ _ _ _
                _ _ H1 H2 H3 H4) as H.
  split; [exact (proj1 (proj2 (proj2 (proj2 (proj2 (proj2 (proj2 H)))))))
         | exact (proj2 (proj2 (proj2 (proj2 (proj2 (proj2 (proj2 H)))))))].
Defined.

(** *** Kernel selection *)

Lemma call_decimate_silent_over_limit
    (a1 a2 a3 dm_rate samples_per_antenna num_taps_per_filter num_freqs
     num_antennas : Z) (msg : string) (dp : DSPCore) (w : world)
    (gpu0 : cudaDeviceProp) (rest : list cudaDeviceProp) :
  gpus w = gpu0 :: rest ->
  last_error w = cudaSuccess ->
  u32 (num_taps_per_filter * num_freqs) > u32 (2 * maxThreadsPerBlock gpu0) ->
  call_decimate a1 a2 a3 dm_rate samples_per_antenna num_taps_per_filter
    num_freqs num_antennas msg dp w
  = Ok tt (emit (Cout msg []) w).
Proof.
  intros Hg He Hn. unfold call_decimate, bind, act, get_gpu_properties.
  cbn [gpus emit]. rewrite Hg.
  destruct (Z.gtb_spec (u32 (num_taps_per_filter * num_freqs))
                       (u32 (2 * maxThreadsPerBlock gpu0))); [| lia].
  unfold ret, check, bind, cudaPeekAtLastError. cbn [last_error emit].
  rewrite He. reflexivity.
Qed.

Lemma launches_app (l1 l2 : list action) :
  launches (l1 ++ l2) = launches l1 ++ launches l2.
Proof. unfold launches. apply flat_map_app. Qed.

Lemma launch_wrapper_launches k threads_x a1 a2 a3 a4 a5 a6 a7 a8 a9 w :
  exists added,
    trace (final_world (launch_wrapper k threads_x a1 a2 a3 a4 a5 a6 a7 a8 a9 w))
      = trace w ++ added /\
    (launches added = [] \/ launches added = [k]).
Proof.
  unfold launch_wrapper, bind, act, raise, ret, launch. cbv zeta.
  destruct (a4 =? 0).
  - eexists. split; [reflexivity | left; reflexivity].
  - cbn [gpus emit]. destruct (gpus w) as [| gpu0 rest].
    + cbn [final_world trace emit]. rewrite <- !app_assoc.
      eexists. split; [reflexivity | left; reflexivity].
    + match goal with
      | |- context [if ?b then _ else _] => destruct b
      end; cbn [final_world trace emit with_last_error];
        rewrite <- !app_assoc; eexists;
        (split; [reflexivity |]); [right | left]; reflexivity.
Qed.

Lemma trace_then_check_peek {A : Type} (m : M A) (w : world) :
  trace (final_world (bind m (fun _ => check cudaPeekAtLastError) w))
  = trace (final_world (m w)).
Proof.
  unfold bind. destruct (m w) as [a w1 | e w1]; [| reflexivity].
  unfold check, bind, cudaPeekAtLastError.
  destruct (last_error w1); reflexivity.
Qed.

(** X7.  Which kernels [call_decimate] launches, however it ends: none
    when the taps over all frequencies number more than twice
    [maxThreadsPerBlock], at most one launch of the large variant when they
    number more than [maxThreadsPerBlock], at most one launch of the small
    variant otherwise; the three counts are compared as 32-bit unsigned
    numbers. *)
Lemma call_decimate_selects
    (a1 a2 a3 dm_rate samples_per_antenna num_taps_per_filter num_freqs
     num_antennas : Z) (msg : string) (dp : DSPCore) (w : world)
    (gpu0 : cudaDeviceProp) (rest : list cudaDeviceProp) :
  gpus w = gpu0 :: rest ->
  let total := u32 (num_taps_per_filter * num_freqs) in
  let limit := u32 (maxThreadsPerBlock gpu0) in
  let twice := u32 (2 * maxThreadsPerBlock gpu0) in
  exists added,
    trace (final_world
             (call_decimate a1 a2 a3 dm_rate samples_per_antenna
                num_taps_per_filter num_freqs num_antennas msg dp w))
      = trace w ++ added /\
    ((twice < total /\ launches added = []) \/
     (total <= twice /\ limit < total /\
      (launches added = [] \/ launches added = [decimate2048_kernel])) \/
     (total <= twice /\ total <= limit /\
      (launches added = [] \/ launches added = [decimate1024_kernel]))).
Proof.
  intros Hg total limit twice.
  unfold call_decimate. unfold bind at 1. unfold act at 1.
  unfold bind at 1. unfold get_gpu_properties. cbn [gpus emit]. rewrite Hg.
  rewrite trace_then_check_peek. fold total limit twice.
  set (w1 := emit (Cout msg []) w).
  assert (Hw1 : trace w1 = trace w ++ [Cout msg []]) by reflexivity.
  destruct (Z.gtb_spec total twice) as [H2 | H2].
  - exists [Cout msg []]. split; [exact Hw1 |]. left. split; [lia | reflexivity].
  - destruct (Z.gtb_spec total limit) as [H1 | H1].
    + destruct (launch_wrapper_launches decimate2048_kernel
                  (num_taps_per_filter / 2) a1 a2 a3 dm_rate samples_per_antenna
                  num_taps_per_filter num_freqs num_antennas (dp stream) w1)
        as (added & E & L).
      exists (Cout msg [] :: added). split.
      * unfold decimate2048_wrapper. rewrite E, Hw1, <- app_assoc. reflexivity.
      * right. left. repeat split; try lia. exact L.
    + destruct (launch_wrapper_launches decimate1024_kernel
                  num_taps_per_filter a1 a2 a3 dm_rate samples_per_antenna
                  num_taps_per_filter num_freqs num_antennas (dp stream) w1)
        as (added & E & L).
      exists (Cout msg [] :: added). split.
      * unfold decimate1024_wrapper. rewrite E, Hw1, <- app_assoc. reflexivity.
      * right. right. repeat split; try lia. exact L.
Qed.

Lemma call_decimate_selects_witness :
  exists added,
    trace (final_world
             (call_decimate (get_rf_samples_p (result blank example_acked))
                (get_first_stage_output_p (result blank example_acked))
                (get_first_stage_bp_filters_p (result blank example_acked))
                8 4096 2048 1 2 "Stage 1" (result blank example_acked)
                (final_world example_acked)))
      = trace (final_world example_acked) ++ added /\
    ((u32 (2 * 1024) < u32 (2048 * 1) /\ launches added = []) \/
     (u32 (2048 * 1) <= u32 (2 * 1024) /\ u32 1024 < u32 (2048 * 1) /\
      (launches added = [] \/ launches added = [decimate2048_kernel])) \/
     (u32 (2048 * 1) <= u32 (2 * 1024) /\ u32 (2048 * 1) <= u32 1024 /\
      (launches added = [] \/ launches added = [decimate1024_kernel]))).
Proof.
  assert (Hg : gpus (final_world example_acked)
               = [{| maxThreadsPerBlock := 1024; sharedMemPerBlock := 49152 |}])
    by (vm_compute; reflexivity).
  exact (call_decimate_selects _ _ _ 8 4096 2048 1 2 "Stage 1"
           (result blank example_acked) (final_world example_acked) _ _ Hg).
Defined.

(** C6.  On a device of 1024 threads per block, [call_decimate] for 2048
    taps and 2 frequencies prints its message and returns: no kernel is
    launched, and nothing is reported. *)
Theorem call_decimate_over_limit_reports_nothing :
  let dp := result blank example_acked in
  let w := final_world example_acked in
  u32 (2048 * 2) > u32 (2 * 1024) /\
  call_decimate (get_rf_samples_p dp) (get_first_stage_output_p dp)
    (get_first_stage_bp_filters_p dp) 8 4096 2048 2 2 "Stage 1" dp w
  = Ok tt (emit (Cout "Stage 1" []) w).
Proof.
  cbv zeta. split; [reflexivity |].
  apply call_decimate_silent_over_limit
    with (gpu0 := {| maxThreadsPerBlock := 1024; sharedMemPerBlock := 49152 |})
         (rest := []); reflexivity.
Qed.

(** *** The timing message *)

Lemma cudaEventRecord_Ok (event stream_ : Z) (w w' : world) :
  cudaEventRecord event stream_ w = Ok cudaSuccess w' ->
  w' = emit (EventRecord event stream_)
            (with_recorded ((event, now w) :: recorded w) w).
Proof.
  unfold cudaEventRecord.
  destruct (is_live Event event w && is_live Stream stream_ w);
    [| discriminate].
  intros E. injection E as <-. reflexivity.
Qed.

Lemma cudaEventSynchronize_Ok (event : Z) (code : cudaError_t) (w w' : world) :
  cudaEventSynchronize event w = Ok code w' -> w' = w.
Proof.
  unfold cudaEventSynchronize. destruct (is_live Event event w);
    intros E; injection E as <- <-; reflexivity.
Qed.

Lemma cudaEventElapsedTime_Ok (old start end_ v : Z) (w w' : world) :
  cudaEventElapsedTime old start end_ w = Ok (cudaSuccess, v) w' ->
  w' = w /\
  exists t0 t1,
    record_time start w = Some t0 /\ record_time end_ w = Some t1 /\
    v = t1 - t0.
Proof.
  unfold cudaEventElapsedTime.
  destruct (is_live Event start w && is_live Event end_ w);
    destruct (record_time start w) as [t0 |];
    destruct (record_time end_ w) as [t1 |];
    intros E; try discriminate.
  injection E as <- <-. split; [reflexivity |].
  exists t0, t1. repeat split.
Qed.

Lemma send_Ok (socket : Z) (msg : SigProcPacket) (w w' : world) :
  send socket msg w = Ok tt w' -> w' = emit (SocketSend socket msg) w.
Proof.
  unfold send. destruct (existsb (Z.eqb socket) (broken_sockets w));
    [discriminate |].
  intros E. injection E as <-. reflexivity.
Qed.

(** The sequence of [over_limit_sequence] fails: its stage-1 launch
    configuration is invalid.  Its timing message carries the 2 ms that
    passed between [kernel_start] and [stop], not -1. *)
Lemma over_limit_sequence_timing_not_sentinel :
  u32 (2048 * 2) > u32 (2 * 1024) /\
  launches (trace (final_world over_limit_sequence)) = [] /\
  timing_messages 51 (trace (final_world over_limit_sequence))
    = [{| kerneltime := Some 2; packet_sequence_num := Some 7 |}] /\
  ~ (forall msg,
       In msg (timing_messages 51 (trace (final_world over_limit_sequence))) ->
       kerneltime msg = Some (-1)).
Proof.
  assert (E : timing_messages 51 (trace (final_world over_limit_sequence))
              = [{| kerneltime := Some 2; packet_sequence_num := Some 7 |}])
    by (vm_compute; reflexivity).
  split; [reflexivity |].
  split; [vm_compute; reflexivity |].
  split; [exact E |].
  intros Hall. rewrite E in Hall.
  specialize (Hall _ (or_introl eq_refl)). discriminate.
Qed.

(** *** Teardown *)

(** The acknowledged instance, torn down a second time: [cudaFree] of
    [rf_samples_d], already freed, fails. *)
Lemma second_teardown_is_not_a_no_op :
  clear_device_and_destroy (result blank example_acked)
    (final_world example_acked)
  = Ok tt (final_world example_cleared) /\
  clear_device_and_destroy (result blank example_acked)
    (final_world example_cleared)
  = Fatal (GpuAssert cudaErrorInvalidValue) (final_world example_cleared) /\
  ~ (exists w', clear_device_and_destroy (result blank example_acked)
                  (final_world example_cleared) = Ok tt w').
Proof.
  assert (E : clear_device_and_destroy (result blank example_acked)
                (final_world example_cleared)
              = Fatal (GpuAssert cudaErrorInvalidValue)
                      (final_world example_cleared))
    by (vm_compute; reflexivity).
  split; [vm_compute; reflexivity |].
  split; [exact E |].
  intros [w' E']. rewrite E in E'. discriminate.
Qed.

(** *** What teardown releases *)

Lemma kind_eqb_eq (a b : kind) : kind_eqb a b = true <-> a = b.
Proof. destruct a, b; cbn; split; intros E; congruence. Qed.

Lemma holds_In (r : kind * Z) (l : list (kind * Z)) :
  holds r l = true <-> In r l.
Proof.
  unfold holds. rewrite existsb_exists. split.
  - intros ([k h] & Hin & E). apply andb_prop in E as [Ek Eh].
    apply kind_eqb_eq in Ek. apply Z.eqb_eq in Eh. cbn [fst snd] in *.
    destruct r as [k' h']. cbn [fst snd] in *. subst. exact Hin.
  - intros Hin. exists r. split; [exact Hin |].
    apply andb_true_intro. split; [apply kind_eqb_eq | apply Z.eqb_eq];
      reflexivity.
Qed.

Lemma holds_drop (r : kind * Z) (k : kind) (h : Z) (l : list (kind * Z)) :
  holds r (drop k h l) = holds r l && negb (holds r [(k, h)]).
Proof.
  apply eq_iff_eq_true.
  rewrite andb_true_iff, negb_true_iff, <- not_true_iff_false, !holds_In.
  unfold drop. rewrite filter_In, negb_true_iff, <- not_true_iff_false.
  rewrite andb_true_iff, kind_eqb_eq, Z.eqb_eq.
  destruct r as [k' h']. cbn [fst snd In]. split.
  - intros [Hin Hne]. split; [exact Hin |]. intros [E | []]. apply Hne.
    injection E as -> ->. split; reflexivity.
  - intros [Hin Hne]. split; [exact Hin |]. intros [-> ->]. apply Hne.
    left. reflexivity.
Qed.

Lemma free_live (k : kind) (p : Z) (w w' : world) :
  free k p w = Ok cudaSuccess w' ->
  forall k0 h0,
    is_live k0 h0 w' = is_live k0 h0 w && negb (holds (k0, h0) (buffer k p)).
Proof.
  unfold free, buffer. destruct (p =? 0).
  - intros E k0 h0. injection E as <-. cbn. rewrite andb_true_r. reflexivity.
  - destruct (is_live k p w); [| discriminate].
    intros E k0 h0. injection E as <-.
    exact (holds_drop (k0, h0) k p (live w)).
Qed.

Lemma destroy_live (k : kind) (h : Z) (w w' : world) :
  destroy k h w = Ok cudaSuccess w' ->
  forall k0 h0,
    is_live k0 h0 w' = is_live k0 h0 w && negb (holds (k0, h0) [(k, h)]).
Proof.
  unfold destroy. destruct (is_live k h w); [| discriminate].
  intros E k0 h0. injection E as <-.
  exact (holds_drop (k0, h0) k h (live w)).
Qed.

Lemma remove_shr_mem_live (handler : Z) (w w' : world) :
  remove_shr_mem handler w = Ok tt w' ->
  forall k0 h0, is_live k0 h0 w' = is_live k0 h0 w.
Proof.
  unfold remove_shr_mem. destruct (is_live Object handler w); [| discriminate].
  destruct (region_of handler w); [| discriminate].
  intros E k0 h0. injection E as <-. reflexivity.
Qed.

Lemma delete_live (object : Z) (w w' : world) :
  delete object w = Ok tt w' ->
  forall k0 h0,
    is_live k0 h0 w' = is_live k0 h0 w && negb (holds (k0, h0) [(Object, object)]).
Proof.
  unfold delete. destruct (is_live Object object w); [| discriminate].
  intros E k0 h0. injection E as <-.
  exact (holds_drop (k0, h0) Object object (live w)).
Qed.

Lemma clear_device_and_destroy_live (dp : DSPCore) (w w' : world) :
  clear_device_and_destroy dp w = Ok tt w' ->
  forall k h,
    is_live k h w' = is_live k h w && negb (holds (k, h) (owned dp)).
Proof.
  intros Hrun k h. unfold clear_device_and_destroy in Hrun.
  invert_run.
  unfold cudaFree, cudaFreeHost, cudaEventDestroy, cudaStreamDestroy in *.
  repeat match goal with
         | H : free _ _ ?wa = Ok cudaSuccess ?wb
           |- context [is_live k h ?wb] => rewrite (free_live _ _ _ _ H k h)
         | H : destroy _ _ ?wa = Ok cudaSuccess ?wb
           |- context [is_live k h ?wb] => rewrite (destroy_live _ _ _ _ H k h)
         | H : remove_shr_mem _ ?wa = Ok tt ?wb
           |- context [is_live k h ?wb] =>
             rewrite (remove_shr_mem_live _ _ _ H k h)
         | H : delete _ ?wa = Ok tt ?wb
           |- context [is_live k h ?wb] => rewrite (delete_live _ _ _ H k h)
         end.
  unfold owned, holds. rewrite !existsb_app. cbn [existsb].
  rewrite !orb_false_r, !negb_orb, !andb_assoc. reflexivity.
Qed.

Lemma destroy_was_live (k : kind) (h : Z) (w w' : world) :
  destroy k h w = Ok cudaSuccess w' -> is_live k h w = true.
Proof.
  unfold destroy. destruct (is_live k h w); [reflexivity | discriminate].
Qed.

(** A teardown that returns found the event [initial_start] live. *)
Lemma clear_device_and_destroy_needs_live (dp : DSPCore) (w w' : world) :
  clear_device_and_destroy dp w = Ok tt w' ->
  is_live Event (dp initial_start) w = true.
Proof.
  intros H. unfold clear_device_and_destroy in H. invert_run.
  match goal with
  | H : cudaEventDestroy (dp initial_start) _ = _ |- _ =>
      apply destroy_was_live in H; rename H into L
  end.
  repeat match goal with
         | H : cudaFree _ ?wa = Ok _ ?wb,
           L : is_live Event (dp initial_start) ?wb = true |- _ =>
             apply (shrinks_free _ _ _ _ _ H) in L; clear H
         | H : cudaFreeHost _ ?wa = Ok _ ?wb,
           L : is_live Event (dp initial_start) ?wb = true |- _ =>
             apply (shrinks_free _ _ _ _ _ H) in L; clear H
         end.
  exact L.
Qed.

Lemma owns_initial_start (dp : DSPCore) :
  holds (Event, dp initial_start) (owned dp) = true.
Proof.
  apply holds_In. unfold owned. rewrite !in_app_iff.
  do 8 right. left. reflexivity.
Qed.

(** C10, as amended.  Teardown is not idempotent, and a second call is
    never a no-op.  In the state a successful [clear_device_and_destroy]
    has left, a second call on the same instance fails at one of its
    checked CUDA calls (at the latest when it destroys [initial_start]
    again).  In any other state a second call fails as well, or it
    returns and has then destroyed an event that was live under the
    handle [initial_start], which the first call had left dead and
    something else has created since; the resources that are live are
    not those that were. *)
Theorem second_teardown_fails :
  forall (dp : DSPCore) (w w' : world),
    clear_device_and_destroy dp w = Ok tt w' ->
    fails (clear_device_and_destroy dp) w' /\
    is_live Event (dp initial_start) w' = false /\
    forall w2 : world,
      fails (clear_device_and_destroy dp) w2 \/
      exists w3,
        clear_device_and_destroy dp w2 = Ok tt w3 /\
        is_live Event (dp initial_start) w2 = true /\
        is_live Event (dp initial_start) w3 = false /\
        live w3 <> live w2.
Proof.
  intros dp w w' H.
  assert (Hdead : forall wa wb,
            clear_device_and_destroy dp wa = Ok tt wb ->
            is_live Event (dp initial_start) wb = false).
  { intros wa wb Hab.
    rewrite (clear_device_and_destroy_live dp wa wb Hab).
    rewrite owns_initial_start. apply andb_false_r. }
  split; [| split; [exact (Hdead w w' H) |]].
  - specialize (Hdead w w' H). revert Hdead. generalize w'. clear.
    unfold clear_device_and_destroy.
    repeat (apply fails_after;
            [apply shrinks_check, shrinks_free | intros _]).
    intros w Hd. apply fails_bind, destroy_dead_fails. exact Hd.
  - intros w2.
    destruct (clear_device_and_destroy dp w2) as [[] w3 | f w3] eqn:E2.
    + right. exists w3. split; [first [exact E2 | reflexivity] |].
      pose proof (clear_device_and_destroy_needs_live dp w2 w3 E2) as L2.
      pose proof (Hdead w2 w3 E2) as L3.
      split; [exact L2 | split; [exact L3 |]].
      intros El. unfold is_live in L2, L3. rewrite El in L3.
      rewrite L2 in L3. discriminate.
    + left. exists f, w3. exact E2.
Qed.

Lemma second_teardown_fails_witness :
  fails (clear_device_and_destroy (result blank example_acked))
        (final_world example_cleared).
Proof.
  assert (H : clear_device_and_destroy (result blank example_acked)
                (final_world example_acked)
              = Ok tt (final_world example_cleared))
    by (vm_compute; reflexivity).
  exact (proj1 (second_teardown_fails _ _ _ H)).
Defined.

(** A second teardown of the finished instance, run after the next
    sequence has started: the handles have been given out again, so the
    call returns, and what it has destroyed is the next sequence's
    samples, events, stream and handler. *)
Example stale_teardown_frees_the_next_sequence :
  live (final_world example_finished) = [] /\
  (forall m, m <> sequence_num ->
     result blank example_restarted m = result blank example_acked m) /\
  is_live DeviceMemory (result blank example_restarted rf_samples_d)
    (final_world example_restarted) = true /\
  exists w3,
    clear_device_and_destroy (result blank example_acked)
      (final_world example_restarted) = Ok tt w3 /\
    live w3 = [(Object, result blank example_restarted this_)].
Proof.
  split; [vm_compute; reflexivity |].
  split; [intros m Hm; destruct m; first [contradiction Hm; reflexivity
                                         | vm_compute; reflexivity] |].
  split; [vm_compute; reflexivity |].
  eexists. split; vm_compute; reflexivity.
Qed.

(** X10.  When [clear_device_and_destroy] returns, it has released what
    the instance had handles of and nothing else: a resource is live
    afterwards exactly when it was live before and is none of the
    instance's non-null buffers, its three events, its stream and its
    shared-memory handler. *)
Theorem teardown_releases_what_the_instance_owns :
  forall (dp : DSPCore) (w w' : world),
    clear_device_and_destroy dp w = Ok tt w' ->
    forall k h,
      is_live k h w' = is_live k h w && negb (holds (k, h) (owned dp)).
Proof. exact clear_device_and_destroy_live. Qed.

Lemma teardown_releases_what_the_instance_owns_witness :
  is_live DeviceMemory 7 (final_world example_cleared)
  = is_live DeviceMemory 7 (final_world example_acked)
    && negb (holds (DeviceMemory, 7) (owned (result blank example_acked))) /\
  is_live Object 1 (final_world example_cleared)
  = is_live Object 1 (final_world example_acked)
    && negb (holds (Object, 1) (owned (result blank example_acked))).
Proof.
  assert (Hrun : clear_device_and_destroy (result blank example_acked)
                   (final_world example_acked)
                 = Ok tt (final_world example_cleared))
    by (vm_compute; reflexivity).
  split; exact (teardown_releases_what_the_instance_owns _ _ _ Hrun _ _).
Defined.

(** *** Accounting for what is live *)

Lemma accounted_spec (base own : list (kind * Z)) (w : world) :
  accounted base own w = true <->
  (forall r, holds r (live w) = holds r base || holds r own) /\
  (forall r, holds r base = true -> holds r own = false).
Proof.
  unfold accounted. rewrite !andb_true_iff, !forallb_forall. split.
  - intros [[H1 H2] H3]. split.
    + intros r. apply eq_iff_eq_true. split.
      * intros Hl. apply H1. apply holds_In. exact Hl.
      * intros Hb. apply H2. apply in_or_app.
        apply orb_prop in Hb as [Hb | Hb]; apply holds_In in Hb;
          [left | right]; exact Hb.
    + intros r Hb. apply holds_In in Hb. apply H3 in Hb.
      apply negb_true_iff. exact Hb.
  - intros [Hall Hdis]. split; [split |].
    + intros r Hr. rewrite <- Hall. apply holds_In. exact Hr.
    + intros r Hr. rewrite Hall. apply in_app_or in Hr as [Hr | Hr];
        apply holds_In in Hr; rewrite Hr; [reflexivity | apply orb_true_r].
    + intros r Hr. apply negb_true_iff. apply Hdis. apply holds_In. exact Hr.
Qed.

Lemma holds_cons (r x : kind * Z) (l : list (kind * Z)) :
  holds r (x :: l) = holds r [x] || holds r l.
Proof. unfold holds. cbn [existsb]. rewrite orb_false_r. reflexivity. Qed.

Lemma fresh_positive (w : world) : 0 < fresh w.
Proof.
  unfold fresh. induction (map snd (live w)) as [| h l IH]; cbn [fold_right]; lia.
Qed.

Lemma holds_fresh (r : kind * Z) (k : kind) (w : world) :
  holds r (live w) = true -> holds r [(k, fresh w)] = false.
Proof.
  intros Hl. pose proof (fresh_above_live (fst r) (snd r) w Hl) as Hlt.
  unfold holds. cbn [existsb fst snd].
  replace (fresh w =? snd r) with false by (symmetry; apply Z.eqb_neq; lia).
  rewrite andb_false_r. reflexivity.
Qed.

Lemma accounted_start (w : world) : accounted (live w) [] w = true.
Proof.
  apply accounted_spec. split.
  - intros r. cbn. rewrite orb_false_r. reflexivity.
  - intros r _. reflexivity.
Qed.

Lemma accounted_grow (base own : list (kind * Z)) (w w' : world) (k : kind) :
  accounted base own w = true ->
  live w' = (k, fresh w) :: live w ->
  accounted base ((k, fresh w) :: own) w' = true.
Proof.
  rewrite !accounted_spec. intros [Hall Hdis] Hl. split.
  - intros r. rewrite Hl, holds_cons, (holds_cons r _ own), Hall.
    destruct (holds r [(k, fresh w)]), (holds r base), (holds r own);
      reflexivity.
  - intros r Hb. rewrite holds_cons, (Hdis r Hb), orb_false_r.
    apply holds_fresh. rewrite Hall, Hb. reflexivity.
Qed.

Lemma accounted_same (base own own' : list (kind * Z)) (w w' : world) :
  accounted base own w = true ->
  live w' = live w ->
  (forall r, holds r own' = holds r own) ->
  accounted base own' w' = true.
Proof.
  rewrite !accounted_spec. intros [Hall Hdis] Hl Ho. split.
  - intros r. rewrite Hl, Ho. apply Hall.
  - intros r Hb. rewrite Ho. apply Hdis. exact Hb.
Qed.

Lemma unallocated_spec (dp : DSPCore) :
  unallocated dp = true ->
  dp rf_samples_d = 0 /\ dp first_stage_bp_filters_d = 0 /\
  dp second_stage_filters_d = 0 /\ dp third_stage_filters_d = 0 /\
  dp first_stage_output_d = 0 /\ dp second_stage_output_d = 0 /\
  dp third_stage_output_d = 0 /\ dp host_output_h = 0.
Proof.
  unfold unallocated. cbn [forallb]. rewrite !andb_true_iff, !Z.eqb_eq.
  tauto.
Qed.

Lemma create_Ok (k : kind) (v : Z) (w w' : world) :
  create k w = Ok (cudaSuccess, v) w' ->
  v = fresh w /\ live w' = (k, v) :: live w.
Proof.
  unfold create. intros E. injection E as <- <-. split; reflexivity.
Qed.

Lemma cudaHostAlloc_Ok (old size v : Z) (w w' : world) :
  cudaHostAlloc old size w = Ok (cudaSuccess, v) w' ->
  v = fresh w /\ live w' = (PinnedMemory, v) :: live w.
Proof.
  unfold cudaHostAlloc. intros E. injection E as <- <-. split; reflexivity.
Qed.

Lemma new_SharedMemoryHandler_Ok (name : string) (h : Z) (w w' : world) :
  new_SharedMemoryHandler name w = Ok h w' ->
  h = fresh w /\ live w' = (Object, h) :: live w.
Proof.
  unfold new_SharedMemoryHandler. intros E. injection E as <- <-.
  split; reflexivity.
Qed.

Lemma open_shr_mem_Ok (handler : Z) (w w' : world) :
  open_shr_mem handler w = Ok tt w' -> live w' = live w.
Proof.
  unfold open_shr_mem. destruct (is_live Object handler w); [| discriminate].
  destruct (region_of handler w) as [name |]; [| discriminate].
  destruct (existsb (String.eqb name) (shr_mem_regions w)); [| discriminate].
  intros E. injection E as <-. reflexivity.
Qed.

Lemma get_shrmem_addr_Ok (handler a : Z) (w w' : world) :
  get_shrmem_addr handler w = Ok a w' -> w' = w.
Proof.
  unfold get_shrmem_addr. destruct (is_live Object handler w); [| discriminate].
  intros E. injection E as _ <-. reflexivity.
Qed.

Lemma buffer_null (k : kind) : buffer k 0 = [].
Proof. reflexivity. Qed.

Lemma buffer_fresh (k : kind) (w : world) : buffer k (fresh w) = [(k, fresh w)].
Proof.
  unfold buffer. pose proof (fresh_positive w).
  replace (fresh w =? 0) with false by (symmetry; apply Z.eqb_neq; lia).
  reflexivity.
Qed.

(** Read the members of an instance after its updates. *)
Ltac read_members :=
  repeat first [ rewrite set_same | rewrite set_other by discriminate ].

(** Two lists of resources with the same members, up to their order. *)
Ltac same_resources :=
  intros r; unfold owned; read_members;
  repeat match goal with
         | H : _ _ = 0 |- _ => rewrite H
         end;
  rewrite ?buffer_null, ?buffer_fresh; unfold holds;
  repeat (progress (rewrite ?existsb_app; cbn [existsb app fst snd]));
  repeat match goal with
         | |- context [existsb ?f ?l] => generalize (existsb f l); intros ?
         | |- context [kind_eqb ?a ?b && (?x =? ?h)] =>
             generalize (kind_eqb a b && (x =? h)); intros ?
         end;
  btauto.

(** Turn the calls of a successful run into what they did to the live
    resources. *)
Ltac read_live :=
  unfold cudaStreamCreate, cudaEventCreate in *;
  repeat match goal with
         | H : create _ _ = Ok _ _ |- _ => apply create_Ok in H as [-> ?]
         | H : cudaMalloc _ _ _ = Ok _ _ |- _ => apply cudaMalloc_Ok in H as [-> ?]
         | H : cudaHostAlloc _ _ _ = Ok _ _ |- _ =>
             apply cudaHostAlloc_Ok in H as [-> ?]
         | H : new_SharedMemoryHandler _ _ = Ok _ _ |- _ =>
             apply new_SharedMemoryHandler_Ok in H as [-> ?]
         | H : cudaMemcpyAsync _ _ _ _ _ = Ok _ _ |- _ =>
             apply cudaMemcpyAsync_Ok in H
         | H : open_shr_mem _ _ = Ok _ _ |- _ => apply open_shr_mem_Ok in H
         | H : get_shrmem_addr _ _ = Ok _ _ |- _ =>
             apply get_shrmem_addr_Ok in H; subst
         | H : cudaEventRecord _ _ _ = Ok _ _ |- _ =>
             apply cudaEventRecord_Ok in H; subst
         end.

(** X14.  On an instance none of whose buffer pointers is set, a
    constructor that returns leaves every live resource accounted for:
    live are the resources that were live before, and the stream, the
    three events and the shared-memory handler the instance now has
    handles of, all of them new. *)
Theorem DSPCore_ctor_accounts_for_what_it_creates :
  forall (raw : DSPCore) (ack_s timing_s sq_num : Z) (shr_mem_name : string)
         (w : world) (dp : DSPCore) (w' : world),
    unallocated raw = true ->
    DSPCore_ctor raw ack_s timing_s sq_num shr_mem_name w = Ok dp w' ->
    accounted (live w) (owned dp) w' = true.
Proof.
  intros raw ack_s timing_s sq_num shr_mem_name w dp w' Hraw Hrun.
  apply unallocated_spec in Hraw
    as (R1 & R2 & R3 & R4 & R5 & R6 & R7 & R8).
  unfold DSPCore_ctor in Hrun. cbv zeta in Hrun. invert_run. read_live.
  pose proof (accounted_start w) as A0.
  repeat match goal with
         | A : accounted _ _ ?wa = true,
           H : live ?wb = (_, fresh ?wa) :: live ?wa |- _ =>
             pose proof (accounted_grow _ _ _ _ _ A H); clear A H
         | A : accounted _ _ ?wa = true,
           H : live ?wb = live ?wa |- _ =>
             pose proof (accounted_same _ _ _ _ _ A H (fun r => eq_refl));
             clear A H
         | A : accounted ?b ?o (with_recorded ?r ?wa) = true |- _ =>
             change (accounted b o (with_recorded r wa))
               with (accounted b o wa) in A
         | A : accounted ?b ?o (emit ?a ?wa) = true |- _ =>
             change (accounted b o (emit a wa)) with (accounted b o wa) in A
         | H : live ?wb = (_, fresh (emit ?a (with_recorded ?r ?wa)))
                          :: live (emit ?a (with_recorded ?r ?wa)) |- _ =>
             change (fresh (emit a (with_recorded r wa))) with (fresh wa) in *;
             change (live (emit a (with_recorded r wa))) with (live wa) in H
         end.
  match goal with
  | A : accounted _ _ ?wa = true |- accounted _ _ ?wa = true =>
      apply (accounted_same _ _ _ _ _ A eq_refl)
  end.
  same_resources.
Qed.

Lemma DSPCore_ctor_accounts_for_what_it_creates_witness :
  accounted (live example_allocated) (owned (result blank example_started))
    (final_world example_started) = true.
Proof.
  assert (Hrun : DSPCore_ctor (set this_ 1 blank) 50 51 7 "rx_ringbuffer_0"
                   example_allocated
                 = Ok (result blank example_started)
                      (final_world example_started))
    by (vm_compute; reflexivity).
  exact (DSPCore_ctor_accounts_for_what_it_creates (set this_ 1 blank) 50 51
           7 "rx_ringbuffer_0" example_allocated _ _
           ltac:(vm_compute; reflexivity) Hrun).
Defined.

(** One allocation into a member that was null, then copies. *)
Ltac allocation_accounted :=
  match goal with
  | Hrun : _ = Ok _ _ |- _ =>
      cbv zeta in Hrun; invert_run; read_live
  end;
  repeat match goal with
         | A : accounted _ _ ?wa = true,
           H : live ?wb = (_, fresh ?wa) :: live ?wa |- _ =>
             pose proof (accounted_grow _ _ _ _ _ A H); clear A H
         | A : accounted _ _ ?wa = true,
           H : live ?wb = live ?wa |- _ =>
             pose proof (accounted_same _ _ _ _ _ A H (fun r => eq_refl));
             clear A H
         end;
  match goal with
  | A : accounted _ _ ?wa = true |- accounted _ _ ?wa = true =>
      apply (accounted_same _ _ _ _ _ A eq_refl)
  end;
  same_resources.

Lemma fresh_not_live (k : kind) (w : world) : is_live k (fresh w) w = false.
Proof.
  destruct (is_live k (fresh w) w) eqn:L; [| reflexivity].
  apply fresh_above_live in L. lia.
Qed.

(** One allocation into a member, then copies: what the instance and
    the live resources have become. *)
Ltac allocation_made :=
  match goal with
  | Hrun : _ = Ok _ _ |- _ =>
      cbv zeta in Hrun; invert_run; read_live
  end;
  unfold allocates; read_members;
  match goal with
  | |- fresh ?w <> 0 /\ _ =>
      split; [pose proof (fresh_positive w); lia |];
      split; [intros k'; apply fresh_not_live |]
  end;
  split; [congruence |];
  split; [reflexivity |];
  intros m Hm1 Hm2; unfold set;
  repeat match goal with
         | |- context [member_eq_dec m ?x] =>
             destruct (member_eq_dec m x); [contradiction |]
         end;
  reflexivity.

(** X15.  Each allocating method, called on an instance whose pointer
    member for that buffer is null, makes one allocation and keeps every
    live resource accounted for.  When it returns, the pointer member
    holds a handle that is not null and was the handle of nothing live,
    the size member holds the size of the samples asked for, no other
    member has changed, the allocation is the one resource that became
    live, and live are the resources of [base] and those the instance
    has handles of. *)
Theorem allocations_stay_accounted :
  forall (base : list (kind * Z)) (dp : DSPCore) (w : world)
         (dp' : DSPCore) (w' : world),
    accounted base (owned dp) w = true ->
    (forall n, dp rf_samples_d = 0 ->
       allocate_and_copy_rf_samples n dp w = Ok dp' w' ->
       accounted base (owned dp') w' = true /\
       allocates DeviceMemory rf_samples_d rf_samples_size n dp w dp' w') /\
    (forall taps n, dp first_stage_bp_filters_d = 0 ->
       allocate_and_copy_first_stage_filters taps n dp w = Ok dp' w' ->
       accounted base (owned dp') w' = true /\
       allocates DeviceMemory first_stage_bp_filters_d
         first_stage_bp_filters_size n dp w dp' w') /\
    (forall taps n, dp second_stage_filters_d = 0 ->
       allocate_and_copy_second_stage_filter taps n dp w = Ok dp' w' ->
       accounted base (owned dp') w' = true /\
       allocates DeviceMemory second_stage_filters_d
         second_stage_filters_size n dp w dp' w') /\
    (forall taps n, dp third_stage_filters_d = 0 ->
       allocate_and_copy_third_stage_filter taps n dp w = Ok dp' w' ->
       accounted base (owned dp') w' = true /\
       allocates DeviceMemory third_stage_filters_d
         third_stage_filters_size n dp w dp' w') /\
    (forall n, dp first_stage_output_d = 0 ->
       allocate_first_stage_output n dp w = Ok dp' w' ->
       accounted base (owned dp') w' = true /\
       allocates DeviceMemory first_stage_output_d first_stage_output_size
         n dp w dp' w') /\
    (forall n, dp second_stage_output_d = 0 ->
       allocate_second_stage_output n dp w = Ok dp' w' ->
       accounted base (owned dp') w' = true /\
       allocates DeviceMemory second_stage_output_d second_stage_output_size
         n dp w dp' w') /\
    (forall n, dp third_stage_output_d = 0 ->
       allocate_third_stage_output n dp w = Ok dp' w' ->
       accounted base (owned dp') w' = true /\
       allocates DeviceMemory third_stage_output_d third_stage_output_size
         n dp w dp' w') /\
    (forall n, dp host_output_h = 0 ->
       allocate_and_copy_host_output n dp w = Ok dp' w' ->
       accounted base (owned dp') w' = true /\
       allocates PinnedMemory host_output_h host_output_size n dp w dp' w').
Proof.
  intros base dp w dp' w' A.
  repeat match goal with |- _ /\ _ => split end; intros;
    unfold allocate_and_copy_rf_samples,
      allocate_and_copy_first_stage_filters,
      allocate_and_copy_second_stage_filter,
      allocate_and_copy_third_stage_filter, allocate_and_copy_filters,
      allocate_first_stage_output, allocate_second_stage_output,
      allocate_third_stage_output, allocate_output,
      allocate_and_copy_host_output in *;
    (split; [allocation_accounted | allocation_made]).
Qed.

Lemma allocations_stay_accounted_witness :
  accounted [(Object, 1)] (owned (result blank example_samples))
    (final_world example_samples) = true /\
  allocates DeviceMemory rf_samples_d rf_samples_size 8192
    (result blank example_started) (final_world example_started)
    (result blank example_samples) (final_world example_samples).
Proof.
  assert (Hacc : accounted [(Object, 1)] (owned (result blank example_started))
                   (final_world example_started) = true)
    by (vm_compute; reflexivity).
  assert (Hrun : allocate_and_copy_rf_samples 8192
                   (result blank example_started)
                   (final_world example_started)
                 = Ok (result blank example_samples)
                      (final_world example_samples))
    by (vm_compute; reflexivity).
  exact (proj1 (allocations_stay_accounted [(Object, 1)]
                  (result blank example_started) (final_world example_started)
                  (result blank example_samples) (final_world example_samples)
                  Hacc) 8192
           ltac:(vm_compute; reflexivity) Hrun).
Defined.

(** X16.  Teardown of an accounted instance leaves nothing of the
    instance behind and takes nothing else away: when
    [clear_device_and_destroy] returns, exactly the resources of [base]
    are live. *)
Theorem teardown_restores_the_live_resources :
  forall (base : list (kind * Z)) (dp : DSPCore) (w w' : world),
    accounted base (owned dp) w = true ->
    clear_device_and_destroy dp w = Ok tt w' ->
    forall k h, is_live k h w' = holds (k, h) base.
Proof.
  intros base dp w w' A Hrun k h.
  apply accounted_spec in A as [Hall Hdis].
  rewrite (clear_device_and_destroy_live dp w w' Hrun k h).
  change (is_live k h w) with (holds (k, h) (live w)). rewrite Hall.
  destruct (holds (k, h) base) eqn:Hb.
  - rewrite (Hdis _ Hb). reflexivity.
  - destruct (holds (k, h) (owned dp)); reflexivity.
Qed.

Lemma teardown_restores_the_live_resources_witness :
  is_live DeviceMemory 7 (final_world example_cleared)
  = holds (DeviceMemory, 7) [(Object, 1)] /\
  is_live Object 1 (final_world example_cleared)
  = holds (Object, 1) [(Object, 1)].
Proof.
  assert (Hacc : accounted [(Object, 1)] (owned (result blank example_acked))
                   (final_world example_acked) = true)
    by (vm_compute; reflexivity).
  assert (Hrun : clear_device_and_destroy (result blank example_acked)
                   (final_world example_acked)
                 = Ok tt (final_world example_cleared))
    by (vm_compute; reflexivity).
  split; exact (teardown_restores_the_live_resources _ _ _ _ Hacc Hrun _ _).
Defined.

(** *** The clock and the timing message *)

Lemma clock_ok_later (w w' : world) :
  recorded w' = recorded w -> now w <= now w' ->
  clock_ok w = true -> clock_ok w' = true.
Proof.
  unfold clock_ok. intros -> Hn Hc. rewrite forallb_forall in *.
  intros r Hr. specialize (Hc r Hr). apply Z.leb_le in Hc. apply Z.leb_le. lia.
Qed.

Lemma now_emit (a : action) (w : world) : now w <= now (emit a w).
Proof. cbn. lia. Qed.

Lemma record_time_le (event t : Z) (w : world) :
  clock_ok w = true -> record_time event w = Some t -> t <= now w.
Proof.
  unfold clock_ok, record_time. intros Hc E.
  destruct (find (fun r => fst r =? event) (recorded w)) as [r |] eqn:Ef;
    [| discriminate].
  injection E as <-. apply find_some in Ef as [Hin _].
  rewrite forallb_forall in Hc. apply Z.leb_le. apply Hc. exact Hin.
Qed.

(** Right after [event] was recorded at time [now w], it carries that
    time and no event carries a later one. *)
Lemma record_time_after_record (event : Z) (a : action) (w : world) :
  clock_ok w = true ->
  let w1 := emit a (with_recorded ((event, now w) :: recorded w) w) in
  record_time event w1 = Some (now w) /\
  forall e t, record_time e w1 = Some t -> t <= now w.
Proof.
  intros Hc w1. unfold record_time. cbn [recorded emit with_recorded w1 find fst].
  rewrite Z.eqb_refl. split; [reflexivity |].
  intros e t. destruct (event =? e).
  - cbn. intros E. injection E as <-. lia.
  - apply record_time_le. exact Hc.
Qed.

Lemma stop_timing_not_negative (dp dp' : DSPCore) (w w' : world) :
  clock_ok w = true ->
  stop_timing dp w = Ok dp' w' ->
  0 <= dp' decimate_kernel_timing_ms /\ 0 <= dp' total_process_timing_ms /\
  dp' timing_socket = dp timing_socket /\ dp' sequence_num = dp sequence_num.
Proof.
  intros Hc Hstop. unfold stop_timing in Hstop. invert_run.
  match goal with H : cudaEventRecord _ _ _ = _ |- _ =>
    apply cudaEventRecord_Ok in H; subst end.
  match goal with H : cudaEventSynchronize _ _ = _ |- _ =>
    apply cudaEventSynchronize_Ok in H; subst end.
  repeat match goal with H : cudaEventElapsedTime _ _ _ _ = _ |- _ =>
    apply cudaEventElapsedTime_Ok in H as (-> & ? & ? & ? & ? & ->) end.
  repeat match goal with
         | H : record_time (set _ _ _ _) _ = _ |- _ =>
             rewrite set_other in H by discriminate
         end.
  destruct (record_time_after_record (dp stop)
              (EventRecord (dp stop) (dp stream)) w Hc) as [Hs Hle].
  repeat match goal with
         | H : record_time (dp stop) _ = Some _ |- _ =>
             rewrite Hs in H; injection H as <-
         end.
  repeat match goal with
         | H : record_time _ _ = Some _ |- _ => apply Hle in H
         end.
  rewrite set_same. rewrite (set_other decimate_kernel_timing_ms) by discriminate.
  rewrite set_same. rewrite !set_other by discriminate.
  repeat split; lia.
Qed.

Lemma emits_remove_shr_mem_of (P : action -> bool) (handler : Z) :
  (forall name, P (ShrMemRemove name) = true) ->
  Emits P (remove_shr_mem handler).
Proof.
  intros Ha w. unfold remove_shr_mem.
  destruct (is_live Object handler w);
    [| exists []; cbn; rewrite app_nil_r; split; reflexivity].
  destruct (region_of handler w) as [name |];
    [| exists []; cbn; rewrite app_nil_r; split; reflexivity].
  exists [ShrMemRemove name]. cbn. rewrite Ha. split; reflexivity.
Qed.

Lemma emits_delete_of (P : action -> bool) (object : Z) :
  P (Delete object) = true -> Emits P (delete object).
Proof.
  intros Ha. apply (emits_one _ _ (Delete object) Ha). intros w. unfold delete.
  destruct (is_live Object object w); [right | left]; reflexivity.
Qed.

Lemma sent_app (l1 l2 : list action) : sent (l1 ++ l2) = sent l1 ++ sent l2.
Proof. unfold sent. apply flat_map_app. Qed.

Lemma sent_quiet (l : list action) :
  forallb sends_nothing l = true -> sent l = [].
Proof.
  induction l as [| a l IH]; [reflexivity |]. cbn [forallb].
  intros E. apply andb_prop in E as [Ea El].
  change (sent (a :: l)) with (sent ([a] ++ l)). rewrite sent_app, (IH El).
  destruct a; try discriminate; reflexivity.
Qed.

Lemma emits_stop_timing_quiet (dp : DSPCore) :
  Emits sends_nothing (stop_timing dp).
Proof.
  unfold stop_timing. emits_steps; apply emits_cudaEventRecord; reflexivity.
Qed.

Lemma emits_teardown_quiet (dp : DSPCore) :
  Emits sends_nothing
    (act (Cout "Sent timing after processing" []) ;;
     act (Cout "Cuda kernel timing: ms" [get_decimate_timing dp]) ;;
     act (Cout "Complete process timing: ms" [get_total_timing dp]) ;;
     clear_device_and_destroy dp ;;
     delete (dp this_)).
Proof.
  unfold clear_device_and_destroy.
  emits_steps;
    first [ apply emits_act; reflexivity
          | apply emits_remove_shr_mem_of; reflexivity
          | apply emits_delete_of; reflexivity ].
Qed.

Lemma bind_bind {A B C : Type} (m : M A) (f : A -> M B) (g : B -> M C)
    (w : world) :
  bind (bind m f) g w = bind m (fun a => bind (f a) g) w.
Proof. unfold bind. destruct (m w); reflexivity. Qed.

(** X11.  From a world whose clock is sound, [postprocess] sends at most
    one message, however it ends: the timing message of its sequence, on
    the timing socket, with a kernel time that is not negative.  When
    [postprocess] returns, it has sent that message. *)
Theorem postprocess_sends_one_timing_message :
  forall (dp : DSPCore) (w : world),
    clock_ok w = true ->
    exists added,
      trace (final_world (postprocess dp w)) = trace w ++ added /\
      (sent added = [] \/
       exists t, 0 <= t /\
         sent added
         = [(dp timing_socket,
             {| kerneltime := Some t;
                packet_sequence_num := Some (dp sequence_num) |})]) /\
      (forall w', postprocess dp w = Ok tt w' -> sent added <> []).
Proof.
  intros dp w Hc.
  remember (postprocess dp w) as o eqn:Eo.
  unfold postprocess, send_timing in Eo. unfold bind at 1 in Eo.
  destruct (emits_stop_timing_quiet dp w) as (l1 & E1 & Q1).
  apply sent_quiet in Q1.
  destruct (stop_timing dp w) as [dp' w1 | e w1] eqn:Es; cbn [final_world] in E1.
  - apply (stop_timing_not_negative dp dp' w w1 Hc) in Es
      as (Hk & _ & Hsock & Hseq).
    rewrite bind_bind in Eo. unfold bind at 1 in Eo. unfold send in Eo.
    destruct (existsb (Z.eqb (dp' timing_socket)) (broken_sockets w1)).
    + subst o. exists l1. split; [exact E1 |]. split; [left; exact Q1 |].
      intros w' E. discriminate.
    + cbv beta in Eo.
      destruct (emits_teardown_quiet dp'
                  (emit (SocketSend (dp' timing_socket) (timing_packet dp')) w1))
        as (l2 & E2 & Q2).
      rewrite <- Eo in E2. clear Eo.
      apply sent_quiet in Q2.
      exists (l1 ++ SocketSend (dp' timing_socket) (timing_packet dp') :: l2).
      assert (Hsent : sent (l1 ++ SocketSend (dp' timing_socket)
                                    (timing_packet dp') :: l2)
                      = [(dp timing_socket,
                          {| kerneltime := Some (dp' decimate_kernel_timing_ms);
                             packet_sequence_num := Some (dp sequence_num) |})]).
      { rewrite sent_app, Q1.
        change (sent (?a :: l2)) with (sent ([a] ++ l2)).
        rewrite sent_app, Q2. unfold timing_packet. rewrite Hsock, Hseq.
        reflexivity. }
      split; [| split].
      * rewrite E2. cbn [trace emit]. rewrite E1, <- !app_assoc.
        reflexivity.
      * right. exists (dp' decimate_kernel_timing_ms).
        split; [exact Hk | exact Hsent].
      * intros _ _. rewrite Hsent. discriminate.
  - subst o. exists l1. split; [exact E1 |]. split; [left; exact Q1 |].
    intros w' E. discriminate.
Qed.

Lemma postprocess_sends_one_timing_message_witness :
  exists added,
    trace (final_world (postprocess (result blank example_acked)
                          (final_world example_acked)))
    = trace (final_world example_acked) ++ added /\
    (sent added = [] \/
     exists t, 0 <= t /\
       sent added
       = [(result blank example_acked timing_socket,
           {| kerneltime := Some t;
              packet_sequence_num :=
                Some (result blank example_acked sequence_num) |})]) /\
    (forall w', postprocess (result blank example_acked)
                  (final_world example_acked) = Ok tt w' -> sent added <> []).
Proof.
  apply postprocess_sends_one_timing_message. vm_compute. reflexivity.
Defined.

(** X13.  Both timings run up to the call of [stop_timing]: when the
    three events are distinct, [total_process_timing_ms] is the time from
    the last record of [initial_start] to the record of [stop] that
    [stop_timing] makes, and [decimate_kernel_timing_ms] the time from the
    last record of [kernel_start] to it; no other member changes. *)
Theorem stop_timing_measures_up_to_stop :
  forall (dp dp' : DSPCore) (w w' : world) (t0 t1 : Z),
    stop_timing dp w = Ok dp' w' ->
    dp initial_start <> dp stop -> dp kernel_start <> dp stop ->
    record_time (dp initial_start) w = Some t0 ->
    record_time (dp kernel_start) w = Some t1 ->
    dp' total_process_timing_ms = now w - t0 /\
    dp' decimate_kernel_timing_ms = now w - t1 /\
    (forall m, m <> total_process_timing_ms ->
               m <> decimate_kernel_timing_ms -> dp' m = dp m).
Proof.
  intros dp dp' w w' t0 t1 Hstop Hi Hk Ht0 Ht1.
  unfold stop_timing in Hstop. invert_run.
  match goal with H : cudaEventRecord _ _ _ = _ |- _ =>
    apply cudaEventRecord_Ok in H; subst end.
  match goal with H : cudaEventSynchronize _ _ = _ |- _ =>
    apply cudaEventSynchronize_Ok in H; subst end.
  repeat match goal with H : cudaEventElapsedTime _ _ _ _ = _ |- _ =>
    apply cudaEventElapsedTime_Ok in H as (-> & ? & ? & ? & ? & ->) end.
  repeat match goal with
         | H : record_time (set _ _ _ _) _ = _ |- _ =>
             rewrite set_other in H by discriminate
         end.
  assert (Hrec : forall e,
            record_time e
              (emit (EventRecord (dp stop) (dp stream))
                 (with_recorded ((dp stop, now w) :: recorded w) w))
            = if dp stop =? e then Some (now w) else record_time e w).
  { intros e. unfold record_time.
    cbn [recorded emit with_recorded find fst].
    destruct (dp stop =? e); reflexivity. }
  repeat match goal with
         | H : record_time _ (emit _ _) = Some _ |- _ => rewrite Hrec in H
         end.
  rewrite Z.eqb_refl in *.
  replace (dp stop =? dp initial_start) with false in *
    by (symmetry; apply Z.eqb_neq; congruence).
  replace (dp stop =? dp kernel_start) with false in *
    by (symmetry; apply Z.eqb_neq; congruence).
  rewrite set_same. rewrite (set_other decimate_kernel_timing_ms) by discriminate.
  rewrite set_same.
  split; [congruence |]. split; [congruence |].
  intros m Hm1 Hm2. rewrite !set_other by assumption. reflexivity.
Qed.

Lemma stop_timing_measures_up_to_stop_witness :
  result blank example_stopped total_process_timing_ms
  = now (final_world example_acked) - 0 /\
  result blank example_stopped decimate_kernel_timing_ms
  = now (final_world example_acked) - 5 /\
  (forall m, m <> total_process_timing_ms ->
             m <> decimate_kernel_timing_ms ->
             result blank example_stopped m = result blank example_acked m).
Proof.
  assert (Hrun : stop_timing (result blank example_acked)
                   (final_world example_acked)
                 = Ok (result blank example_stopped)
                      (final_world example_stopped))
    by (vm_compute; reflexivity).
  exact (stop_timing_measures_up_to_stop _ _ _ _ 0 5 Hrun
           ltac:(vm_compute; discriminate) ltac:(vm_compute; discriminate)
           ltac:(vm_compute; reflexivity) ltac:(vm_compute; reflexivity)).
Defined.

Lemma keeps_clock_ret {A : Type} (a : A) : keeps_clock (ret a).
Proof. intros w Hc. exact Hc. Qed.

Lemma keeps_clock_raise {A : Type} (e : failure) : keeps_clock (@raise A e).
Proof. intros w Hc. exact Hc. Qed.

Lemma keeps_clock_bind {A B : Type} (m : M A) (f : A -> M B) :
  keeps_clock m -> (forall a, keeps_clock (f a)) -> keeps_clock (bind m f).
Proof.
  intros Hm Hf w Hc. unfold bind. specialize (Hm w Hc).
  destruct (m w) as [a w1 | e w1]; cbn [final_world] in Hm.
  - apply Hf. exact Hm.
  - exact Hm.
Qed.

(** A step that records nothing and does not turn the clock back. *)
Lemma keeps_clock_later {A : Type} (m : M A) :
  (forall w, recorded (final_world (m w)) = recorded w /\
             now w <= now (final_world (m w))) ->
  keeps_clock m.
Proof.
  intros Hm w Hc. destruct (Hm w) as [Hr Hn].
  exact (clock_ok_later w _ Hr Hn Hc).
Qed.

Ltac clock_cases :=
  apply keeps_clock_later; intros w;
  repeat match goal with
         | |- context [if ?b then _ else _] => destruct b
         | |- context [match ?x with Some _ => _ | None => _ end] => destruct x
         | |- context [match ?x with [] => _ | _ :: _ => _ end] => destruct x
         end;
  cbn; split; first [reflexivity | lia].

Lemma keeps_clock_gpuErrchk (code : cudaError_t) : keeps_clock (gpuErrchk code).
Proof. destruct code; cbn; auto using keeps_clock_ret, keeps_clock_raise. Qed.

Lemma keeps_clock_check (call : M cudaError_t) :
  keeps_clock call -> keeps_clock (check call).
Proof.
  intros Hc. unfold check. apply keeps_clock_bind; [exact Hc |].
  intros code. apply keeps_clock_gpuErrchk.
Qed.

Lemma keeps_clock_check_into (m : member) (call : Z -> M (cudaError_t * Z))
    (dp : DSPCore) :
  (forall old, keeps_clock (call old)) -> keeps_clock (check_into m call dp).
Proof.
  intros Hc. unfold check_into. apply keeps_clock_bind; [apply Hc |].
  intros r. apply keeps_clock_bind; [apply keeps_clock_gpuErrchk |].
  intros _. apply keeps_clock_ret.
Qed.

Lemma keeps_clock_create (k : kind) : keeps_clock (create k).
Proof. unfold create. clock_cases. Qed.

Lemma keeps_clock_destroy (k : kind) (h : Z) : keeps_clock (destroy k h).
Proof. unfold destroy. clock_cases. Qed.

Lemma keeps_clock_free (k : kind) (p : Z) : keeps_clock (free k p).
Proof. unfold free. clock_cases. Qed.

Lemma keeps_clock_cudaMalloc (old size : Z) : keeps_clock (cudaMalloc old size).
Proof. unfold cudaMalloc. clock_cases. Qed.

Lemma keeps_clock_cudaHostAlloc (old size : Z) :
  keeps_clock (cudaHostAlloc old size).
Proof. unfold cudaHostAlloc. clock_cases. Qed.

Lemma keeps_clock_cudaEventSynchronize (event : Z) :
  keeps_clock (cudaEventSynchronize event).
Proof. unfold cudaEventSynchronize. clock_cases. Qed.

Lemma keeps_clock_cudaEventElapsedTime (old start end_ : Z) :
  keeps_clock (cudaEventElapsedTime old start end_).
Proof. unfold cudaEventElapsedTime. clock_cases. Qed.

Lemma keeps_clock_cudaPeekAtLastError : keeps_clock cudaPeekAtLastError.
Proof. unfold cudaPeekAtLastError. clock_cases. Qed.

Lemma keeps_clock_get_gpu_properties : keeps_clock get_gpu_properties.
Proof. unfold get_gpu_properties. clock_cases. Qed.

Lemma keeps_clock_get_shrmem_addr (handler : Z) :
  keeps_clock (get_shrmem_addr handler).
Proof. unfold get_shrmem_addr. clock_cases. Qed.

Lemma keeps_clock_new_SharedMemoryHandler (name : string) :
  keeps_clock (new_SharedMemoryHandler name).
Proof. unfold new_SharedMemoryHandler. clock_cases. Qed.

Lemma keeps_clock_act (a : action) : keeps_clock (act a).
Proof. unfold act. clock_cases. Qed.

Lemma keeps_clock_send (socket : Z) (msg : SigProcPacket) :
  keeps_clock (send socket msg).
Proof. unfold send. clock_cases. Qed.

Lemma keeps_clock_cudaMemcpyAsync (dst src count stream_ : Z) :
  keeps_clock (cudaMemcpyAsync dst src count stream_).
Proof. unfold cudaMemcpyAsync. clock_cases. Qed.

Lemma keeps_clock_launch (k : kernel) (dimGrid dimBlock : Z * Z)
    (shr_mem_taps : Z) (args : list Z) (stream_ : Z) :
  keeps_clock (launch k dimGrid dimBlock shr_mem_taps args stream_).
Proof. unfold launch. clock_cases. Qed.

Lemma keeps_clock_open_shr_mem (handler : Z) :
  keeps_clock (open_shr_mem handler).
Proof. unfold open_shr_mem. clock_cases. Qed.

Lemma keeps_clock_remove_shr_mem (handler : Z) :
  keeps_clock (remove_shr_mem handler).
Proof. unfold remove_shr_mem. clock_cases. Qed.

Lemma keeps_clock_delete (object : Z) : keeps_clock (delete object).
Proof. unfold delete. clock_cases. Qed.

(** The one step that records: the event gets the time of the clock. *)
Lemma keeps_clock_cudaEventRecord (event stream_ : Z) :
  keeps_clock (cudaEventRecord event stream_).
Proof.
  intros w Hc. unfold cudaEventRecord.
  destruct (is_live Event event w && is_live Stream stream_ w);
    [| exact Hc].
  unfold clock_ok in *.
  cbn [final_world recorded emit with_recorded now forallb snd].
  apply andb_true_intro. split; [apply Z.leb_le; lia |].
  rewrite forallb_forall in *. intros r Hr. specialize (Hc r Hr).
  apply Z.leb_le in Hc. apply Z.leb_le. lia.
Qed.

Create HintDb clock.
#[export] Hint Resolve keeps_clock_ret keeps_clock_raise keeps_clock_bind
  keeps_clock_gpuErrchk keeps_clock_check keeps_clock_check_into
  keeps_clock_create keeps_clock_destroy keeps_clock_free
  keeps_clock_cudaMalloc keeps_clock_cudaHostAlloc
  keeps_clock_cudaEventSynchronize keeps_clock_cudaEventElapsedTime
  keeps_clock_cudaPeekAtLastError keeps_clock_get_gpu_properties
  keeps_clock_get_shrmem_addr keeps_clock_new_SharedMemoryHandler
  keeps_clock_act keeps_clock_send keeps_clock_cudaMemcpyAsync
  keeps_clock_launch keeps_clock_open_shr_mem keeps_clock_remove_shr_mem
  keeps_clock_delete keeps_clock_cudaEventRecord : clock.

(** Unfold a method to its calls; each of them keeps the clock. *)
Ltac clock_steps :=
  cbv zeta;
  unfold cudaStreamCreate, cudaEventCreate, cudaEventDestroy,
    cudaStreamDestroy, cudaFree, cudaFreeHost;
  repeat (first
    [ apply keeps_clock_bind; [| intros ? ]
    | apply keeps_clock_check
    | apply keeps_clock_check_into; intros ?
    | match goal with
      | |- keeps_clock (if ?b then _ else _) => destruct b
      | |- keeps_clock (match ?l with [] => _ | _ :: _ => _ end) => destruct l
      end ]);
  auto with clock.

(** No method of [DSPCore] and neither stream callback records an
    event at a time the clock has not reached: from a world in which every
    recorded time is at or before the clock, each of them ends, well or
    not, in such a world. *)
Theorem methods_keep_the_clock :
  (forall raw ack_s timing_s sq_num shr_mem_name,
     keeps_clock (DSPCore_ctor raw ack_s timing_s sq_num shr_mem_name)) /\
  (forall total_samples dp,
     keeps_clock (allocate_and_copy_rf_samples total_samples dp)) /\
  (forall fd fs taps total_taps dp,
     keeps_clock (allocate_and_copy_filters fd fs taps total_taps dp)) /\
  (forall od os n dp, keeps_clock (allocate_output od os n dp)) /\
  (forall n dp, keeps_clock (allocate_and_copy_host_output n dp)) /\
  (forall status dp, keeps_clock (initial_memcpy_callback status dp)) /\
  (forall a1 a2 a3 a4 a5 a6 a7 a8 msg dp,
     keeps_clock (call_decimate a1 a2 a3 a4 a5 a6 a7 a8 msg dp)) /\
  (forall status dp, keeps_clock (cuda_postprocessing_callback status dp)).
Proof.
  repeat split; intros.
  - unfold DSPCore_ctor. clock_steps.
  - unfold allocate_and_copy_rf_samples. clock_steps.
  - unfold allocate_and_copy_filters. clock_steps.
  - unfold allocate_output. clock_steps.
  - unfold allocate_and_copy_host_output. clock_steps.
  - unfold initial_memcpy_callback, initial_memcpy_callback_handler,
      send_ack, start_decimate_timing. clock_steps.
  - unfold call_decimate, decimate1024_wrapper, decimate2048_wrapper,
      launch_wrapper. clock_steps.
  - unfold cuda_postprocessing_callback, postprocess, stop_timing,
      send_timing, clear_device_and_destroy. clock_steps.
Qed.

(** *** The launch [call_decimate] makes *)

Lemma kernel_launches_app (l1 l2 : list action) :
  kernel_launches (l1 ++ l2) = kernel_launches l1 ++ kernel_launches l2.
Proof. unfold kernel_launches. apply filter_app. Qed.

(** The launch half of a wrapper, when the device may refuse. *)
Lemma launch_wrapper_run (k : kernel) (threads_x a1 a2 a3 dm_rate
    samples_per_antenna num_taps_per_filter num_freqs num_antennas
    stream_ : Z) (w : world) (gpu0 : cudaDeviceProp)
    (rest : list cudaDeviceProp) :
  gpus w = gpu0 :: rest -> dm_rate <> 0 ->
  let dimGrid := (samples_per_antenna / dm_rate, num_antennas) in
  let dimBlock := (threads_x, num_freqs) in
  let shr_mem_taps := u32 (num_freqs * num_taps_per_filter)
                      * sizeof_cuComplex in
  exists w1,
    launch_wrapper k threads_x a1 a2 a3 dm_rate samples_per_antenna
      num_taps_per_filter num_freqs num_antennas stream_ w = Ok tt w1 /\
    live w1 = live w /\
    if launchable gpu0 dimGrid dimBlock shr_mem_taps
    then last_error w1 = last_error w /\
         kernel_launches (trace w1)
         = kernel_launches (trace w)
           ++ [KernelLaunch k dimGrid dimBlock shr_mem_taps
                 [a1; a2; a3; dm_rate; samples_per_antenna] stream_]
    else last_error w1 = cudaErrorInvalidConfiguration /\
         kernel_launches (trace w1) = kernel_launches (trace w).
Proof.
  intros Hg Hdm dimGrid dimBlock shr_mem_taps.
  unfold launch_wrapper, bind, act, raise, ret, launch. cbv zeta.
  fold shr_mem_taps. unfold create_grid, create_block. fold dimGrid dimBlock.
  replace (dm_rate =? 0) with false by (symmetry; apply Z.eqb_neq; exact Hdm).
  cbn [gpus emit]. rewrite Hg. fold (launchable gpu0 dimGrid dimBlock shr_mem_taps).
  destruct (launchable gpu0 dimGrid dimBlock shr_mem_taps).
  - eexists. split; [reflexivity |]. split; [reflexivity |].
    split; [reflexivity |]. cbn [trace emit].
    rewrite !kernel_launches_app. cbn. rewrite !app_nil_r. reflexivity.
  - eexists. split; [reflexivity |]. split; [reflexivity |].
    split; [reflexivity |]. cbn [trace emit with_last_error].
    rewrite !kernel_launches_app. cbn. rewrite !app_nil_r. reflexivity.
Qed.

Lemma call_decimate_unfold (a1 a2 a3 dm_rate samples_per_antenna
    num_taps_per_filter num_freqs num_antennas : Z) (msg : string)
    (dp : DSPCore) (w : world) (gpu0 : cudaDeviceProp)
    (rest : list cudaDeviceProp) :
  gpus w = gpu0 :: rest ->
  u32 (num_taps_per_filter * num_freqs) <= u32 (2 * maxThreadsPerBlock gpu0) ->
  let large := u32 (num_taps_per_filter * num_freqs)
               >? u32 (maxThreadsPerBlock gpu0) in
  call_decimate a1 a2 a3 dm_rate samples_per_antenna num_taps_per_filter
    num_freqs num_antennas msg dp w
  = (launch_wrapper
       (if large then decimate2048_kernel else decimate1024_kernel)
       (if large then num_taps_per_filter / 2 else num_taps_per_filter)
       a1 a2 a3 dm_rate samples_per_antenna num_taps_per_filter num_freqs
       num_antennas (dp stream) ;;
     check cudaPeekAtLastError) (emit (Cout msg []) w).
Proof.
  intros Hg Htwice large. unfold call_decimate.
  unfold bind at 1. unfold act at 1. unfold bind at 1.
  unfold get_gpu_properties. cbn [gpus emit]. rewrite Hg.
  destruct (Z.gtb_spec (u32 (num_taps_per_filter * num_freqs))
                       (u32 (2 * maxThreadsPerBlock gpu0))) as [Ho | _];
    [lia |].
  subst large.
  destruct (u32 (num_taps_per_filter * num_freqs)
            >? u32 (maxThreadsPerBlock gpu0)); reflexivity.
Qed.

(** X8.  A request the device can run is launched, once.  With at most
    twice [maxThreadsPerBlock] taps over all frequencies (and sizes that do
    not wrap), a grid and a block that are not empty, and filter taps that
    fit in shared memory, [call_decimate] returns with one kernel launched:
    the small variant on [num_taps_per_filter] by [num_freqs] threads when
    the taps number at most [maxThreadsPerBlock], else the large variant on
    half as many threads per row, which then never exceed the limit; the
    grid is [samples_per_antenna / dm_rate] by [num_antennas], the shared
    memory one [cuComplex] per tap. *)
Theorem call_decimate_launches_one_kernel
    (a1 a2 a3 dm_rate samples_per_antenna num_taps_per_filter num_freqs
     num_antennas : Z) (msg : string) (dp : DSPCore) (w : world)
    (gpu0 : cudaDeviceProp) (rest : list cudaDeviceProp) :
  gpus w = gpu0 :: rest ->
  last_error w = cudaSuccess ->
  dm_rate <> 0 ->
  1 <= samples_per_antenna / dm_rate -> 1 <= num_antennas ->
  1 <= num_freqs -> 2 <= num_taps_per_filter ->
  2 * maxThreadsPerBlock gpu0 < 2 ^ 32 ->
  num_taps_per_filter * num_freqs <= 2 * maxThreadsPerBlock gpu0 ->
  num_freqs * num_taps_per_filter * sizeof_cuComplex
    <= sharedMemPerBlock gpu0 ->
  let large := maxThreadsPerBlock gpu0 <? num_taps_per_filter * num_freqs in
  exists w',
    call_decimate a1 a2 a3 dm_rate samples_per_antenna num_taps_per_filter
      num_freqs num_antennas msg dp w = Ok tt w' /\
    kernel_launches (trace w')
    = kernel_launches (trace w)
      ++ [KernelLaunch
            (if large then decimate2048_kernel else decimate1024_kernel)
            (samples_per_antenna / dm_rate, num_antennas)
            (if large then num_taps_per_filter / 2 else num_taps_per_filter,
             num_freqs)
            (num_freqs * num_taps_per_filter * sizeof_cuComplex)
            [a1; a2; a3; dm_rate; samples_per_antenna] (dp stream)].
Proof.
  intros Hg He Hdm Hgx Hgy Hf Ht Hmax Htwice Hshm large.
  assert (Hpos : 0 <= num_taps_per_filter * num_freqs) by nia.
  assert (Hm0 : 0 <= maxThreadsPerBlock gpu0) by lia.
  assert (Ut : u32 (num_taps_per_filter * num_freqs)
               = num_taps_per_filter * num_freqs) by (apply u32_small; lia).
  assert (Ut' : u32 (num_freqs * num_taps_per_filter)
                = num_freqs * num_taps_per_filter) by (apply u32_small; lia).
  assert (Um : u32 (maxThreadsPerBlock gpu0) = maxThreadsPerBlock gpu0)
    by (apply u32_small; lia).
  assert (U2 : u32 (2 * maxThreadsPerBlock gpu0) = 2 * maxThreadsPerBlock gpu0)
    by (apply u32_small; lia).
  rewrite (call_decimate_unfold a1 a2 a3 dm_rate samples_per_antenna
             num_taps_per_filter num_freqs num_antennas msg dp w gpu0 rest Hg)
    by (rewrite Ut, U2; exact Htwice).
  cbv zeta. rewrite Ut, Um, Z.gtb_ltb. fold large.
  set (k := if large then decimate2048_kernel else decimate1024_kernel).
  set (threads_x := if large then num_taps_per_filter / 2
                    else num_taps_per_filter).
  assert (Hx : 1 <= threads_x /\ threads_x * num_freqs
                                 <= maxThreadsPerBlock gpu0).
  { subst threads_x large.
    destruct (Z.ltb_spec (maxThreadsPerBlock gpu0)
                         (num_taps_per_filter * num_freqs)) as [Hl | Hl].
    - assert (Hh : 1 <= num_taps_per_filter / 2)
        by (apply Z.div_le_lower_bound; lia).
      assert (Hd : 2 * (num_taps_per_filter / 2) <= num_taps_per_filter)
        by (apply Z.mul_div_le; lia).
      split; [exact Hh | nia].
    - split; lia. }
  destruct (launch_wrapper_run k threads_x a1 a2 a3 dm_rate
              samples_per_antenna num_taps_per_filter num_freqs num_antennas
              (dp stream) (emit (Cout msg []) w) gpu0 rest Hg Hdm)
    as (w1 & Hrun & _ & Hl).
  cbv zeta in Hl. rewrite Ut' in Hl.
  assert (Hok : launchable gpu0 (samples_per_antenna / dm_rate, num_antennas)
                  (threads_x, num_freqs)
                  (num_freqs * num_taps_per_filter * sizeof_cuComplex) = true).
  { unfold launchable. cbn [fst snd].
    repeat (apply andb_true_intro; split); apply Z.leb_le; lia. }
  rewrite Hok in Hl. destruct Hl as [Hle Hk].
  exists w1. unfold bind. rewrite Hrun.
  unfold check, bind, cudaPeekAtLastError. rewrite Hle.
  cbn [last_error emit]. rewrite He. cbn. split; [reflexivity |].
  rewrite Hk. cbn [trace emit]. rewrite kernel_launches_app. cbn.
  rewrite app_nil_r. reflexivity.
Qed.

(** X9.  A launch the device refuses ends the process.  When the taps
    over all frequencies number at most twice [maxThreadsPerBlock] and the
    configuration of the selected variant is not one the device accepts
    (an empty grid or block, too many threads, too much shared memory),
    [call_decimate] launches nothing and fails at its check of
    [cudaPeekAtLastError] with [cudaErrorInvalidConfiguration], whatever
    error was pending before; it releases nothing on the way. *)
Theorem call_decimate_reports_refused_launch
    (a1 a2 a3 dm_rate samples_per_antenna num_taps_per_filter num_freqs
     num_antennas : Z) (msg : string) (dp : DSPCore) (w : world)
    (gpu0 : cudaDeviceProp) (rest : list cudaDeviceProp) :
  gpus w = gpu0 :: rest ->
  dm_rate <> 0 ->
  u32 (num_taps_per_filter * num_freqs) <= u32 (2 * maxThreadsPerBlock gpu0) ->
  let large := u32 (num_taps_per_filter * num_freqs)
               >? u32 (maxThreadsPerBlock gpu0) in
  launchable gpu0 (samples_per_antenna / dm_rate, num_antennas)
    (if large then num_taps_per_filter / 2 else num_taps_per_filter, num_freqs)
    (u32 (num_freqs * num_taps_per_filter) * sizeof_cuComplex) = false ->
  exists w',
    call_decimate a1 a2 a3 dm_rate samples_per_antenna num_taps_per_filter
      num_freqs num_antennas msg dp w
    = Fatal (GpuAssert cudaErrorInvalidConfiguration) w' /\
    kernel_launches (trace w') = kernel_launches (trace w) /\
    live w' = live w.
Proof.
  intros Hg Hdm Htwice large Hbad.
  rewrite (call_decimate_unfold a1 a2 a3 dm_rate samples_per_antenna
             num_taps_per_filter num_freqs num_antennas msg dp w gpu0 rest Hg
             Htwice).
  cbv zeta. fold large.
  destruct (launch_wrapper_run
              (if large then decimate2048_kernel else decimate1024_kernel)
              (if large then num_taps_per_filter / 2 else num_taps_per_filter)
              a1 a2 a3 dm_rate samples_per_antenna num_taps_per_filter
              num_freqs num_antennas (dp stream) (emit (Cout msg []) w)
              gpu0 rest Hg Hdm)
    as (w1 & Hrun & Hlive & Hl).
  cbv zeta in Hl. rewrite Hbad in Hl. destruct Hl as [Hle Hk].
  exists w1. unfold bind. rewrite Hrun.
  unfold check, bind, cudaPeekAtLastError. rewrite Hle. cbn.
  split; [reflexivity |]. split; [| exact Hlive].
  rewrite Hk. cbn [trace emit]. rewrite kernel_launches_app. cbn.
  apply app_nil_r.
Qed.

Lemma call_decimate_launches_one_kernel_witness :
  exists w',
    call_decimate (get_rf_samples_p (result blank example_acked))
      (get_first_stage_output_p (result blank example_acked))
      (get_first_stage_bp_filters_p (result blank example_acked))
      8 4096 2048 1 2 "Stage 1" (result blank example_acked)
      (final_world example_acked) = Ok tt w' /\
    kernel_launches (trace w')
    = kernel_launches (trace (final_world example_acked))
      ++ [KernelLaunch decimate2048_kernel (4096 / 8, 2) (2048 / 2, 1)
            (1 * 2048 * sizeof_cuComplex)
            [get_rf_samples_p (result blank example_acked);
             get_first_stage_output_p (result blank example_acked);
             get_first_stage_bp_filters_p (result blank example_acked);
             8; 4096]
            (result blank example_acked stream)].
Proof.
  assert (Hg : gpus (final_world example_acked)
               = [{| maxThreadsPerBlock := 1024; sharedMemPerBlock := 49152 |}])
    by (vm_compute; reflexivity).
  assert (He : last_error (final_world example_acked) = cudaSuccess)
    by (vm_compute; reflexivity).
  exact (call_decimate_launches_one_kernel _ _ _ 8 4096 2048 1 2 "Stage 1"
           (result blank example_acked) (final_world example_acked) _ _ Hg He
           ltac:(lia) ltac:(cbn; lia) ltac:(lia) ltac:(lia) ltac:(lia)
           ltac:(cbn; lia) ltac:(cbn; lia)
           ltac:(unfold sizeof_cuComplex; cbn; lia)).
Defined.

Lemma call_decimate_reports_refused_launch_witness :
  exists w',
    example_empty_grid = Fatal (GpuAssert cudaErrorInvalidConfiguration) w' /\
    kernel_launches (trace w')
    = kernel_launches (trace (final_world example_acked)) /\
    live w' = live (final_world example_acked).
Proof.
  assert (Hg : gpus (final_world example_acked)
               = [{| maxThreadsPerBlock := 1024; sharedMemPerBlock := 49152 |}])
    by (vm_compute; reflexivity).
  exact (call_decimate_reports_refused_launch _ _ _ 8 4 64 2 2 "Stage 1"
           (result blank example_acked) (final_world example_acked) _ _ Hg
           ltac:(lia) ltac:(vm_compute; discriminate)
           ltac:(vm_compute; reflexivity)).
Defined.

Lemma is_live_holds (k : kind) (h : Z) (w : world) :
  is_live k h w = holds (k, h) (live w).
Proof. reflexivity. Qed.

Lemma check_into_create (m : member) (k : kind) (dp : DSPCore) (w : world) :
  check_into m (fun _ => create k) dp w
  = Ok (set m (fresh w) dp)
       (with_resources (device_free w) ((k, fresh w) :: live w) w).
Proof. reflexivity. Qed.

Lemma emits_DSPCore_ctor_quiet raw ack_s timing_s sq_num shr_mem_name :
  Emits sends_nothing (DSPCore_ctor raw ack_s timing_s sq_num shr_mem_name).
Proof.
  unfold DSPCore_ctor.
  emits_steps;
    first [ apply emits_cudaEventRecord; reflexivity
          | apply emits_open_shr_mem; reflexivity ].
Qed.

(** The constructor on a region that does not exist: the handler's
    [open_shr_mem] fails, after nothing was sent. *)
Lemma DSPCore_ctor_missing_region (raw : DSPCore) (ack_s timing_s sq_num : Z)
    (shr_mem_name : string) (w : world) :
  existsb (String.eqb shr_mem_name) (shr_mem_regions w) = false ->
  exists w',
    DSPCore_ctor raw ack_s timing_s sq_num shr_mem_name w
    = Fatal ShrMemError w' /\
    sent (trace w') = sent (trace w).
Proof.
  intros Hmiss.
  destruct (emits_DSPCore_ctor_quiet raw ack_s timing_s sq_num shr_mem_name w)
    as (added & Et & Hq).
  apply sent_quiet in Hq.
  assert (Hrun : exists w', DSPCore_ctor raw ack_s timing_s sq_num
                              shr_mem_name w = Fatal ShrMemError w').
  { clear added Et Hq.
    unfold DSPCore_ctor. cbv zeta.
    unfold cudaStreamCreate, cudaEventCreate.
    unfold bind at 1. rewrite check_into_create.
    set (w1 := with_resources _ _ w). set (dp1 := set stream _ _).
    unfold bind at 1. rewrite check_into_create.
    set (w2 := with_resources _ _ w1). set (dp2 := set initial_start _ _).
    unfold bind at 1. rewrite check_into_create.
    set (w3 := with_resources _ _ w2). set (dp3 := set kernel_start _ _).
    unfold bind at 1. rewrite check_into_create.
    set (w4 := with_resources _ _ w3). set (dp4 := set stop _ _).
    assert (Hi : is_live Event (dp4 initial_start) w4 = true).
    { rewrite is_live_holds. apply holds_In. right. right. left. reflexivity. }
    assert (Hs : is_live Stream (dp4 stream) w4 = true).
    { rewrite is_live_holds. apply holds_In. do 3 right. left. reflexivity. }
    assert (Hr : shr_mem_regions w4 = shr_mem_regions w) by reflexivity.
    clearbody w4 dp4. clear w1 w2 w3 dp1 dp2 dp3.
    unfold bind at 1. unfold check, bind, cudaEventRecord.
    rewrite Hi, Hs. cbn [andb gpuErrchk ret].
    set (w5 := emit _ _).
    assert (Hr5 : shr_mem_regions w5 = shr_mem_regions w) by exact Hr.
    clearbody w5. unfold new_SharedMemoryHandler.
    set (w6 := with_shr_mem _ _ _).
    assert (Hl6 : is_live Object (fresh w5) w6 = true).
    { rewrite is_live_holds. apply holds_In. left. reflexivity. }
    assert (Hn6 : region_of (fresh w5) w6 = Some shr_mem_name).
    { unfold region_of, w6. cbn [handler_name with_shr_mem find fst snd].
      rewrite Z.eqb_refl. reflexivity. }
    assert (Hr6 : shr_mem_regions w6 = shr_mem_regions w) by exact Hr5.
    clearbody w6. rewrite set_same. unfold open_shr_mem.
    rewrite Hl6, Hn6, Hr6, Hmiss. exists w6. reflexivity. }
  destruct Hrun as (w' & E). exists w'. split; [exact E |].
  rewrite E in Et. cbn [final_world] in Et.
  rewrite Et, sent_app, Hq, app_nil_r. reflexivity.
Qed.

(** *** Failed sequences and the timing message *)

Lemma emits_launch_wrapper_quiet k threads_x a1 a2 a3 a4 a5 a6 a7 a8 a9 :
  Emits sends_nothing (launch_wrapper k threads_x a1 a2 a3 a4 a5 a6 a7 a8 a9).
Proof.
  unfold launch_wrapper.
  emits_steps;
    first [ apply emits_act; reflexivity | apply emits_launch; reflexivity ].
Qed.

Lemma emits_call_decimate_quiet a1 a2 a3 a4 a5 a6 a7 a8 msg dp :
  Emits sends_nothing (call_decimate a1 a2 a3 a4 a5 a6 a7 a8 msg dp).
Proof.
  unfold call_decimate, decimate1024_wrapper, decimate2048_wrapper.
  apply emits_bind; [apply emits_act; reflexivity |]. intros _.
  apply emits_bind; [auto with emits |]. intros [| gpu0 rest];
    [auto with emits |].
  apply emits_bind; [| intros _; auto with emits].
  repeat match goal with
         | |- Emits _ (if ?b then _ else _) => destruct b
         end; auto using emits_launch_wrapper_quiet with emits.
Qed.

Lemma cudaMalloc_exhausted (old size : Z) (w : world) :
  device_free w < size ->
  cudaMalloc old size w = Ok (cudaErrorMemoryAllocation, old) w.
Proof.
  intros Hs. unfold cudaMalloc.
  destruct (Z.leb_spec size (device_free w)); [lia | reflexivity].
Qed.



